(** * TestRemoteControl: pane detection, detection state and capture scheduling

    A shallow embedding of the server side of the repository:

    - [PaneDetector]  : the edge detector and the terminal-pane locator
                        (pane-detector.js);
    - [ClientManager] : the per-client detection state (lib/ClientManager.js);
    - [StreamEngine]  : the capture scheduler (lib/StreamEngine.js);
    - [Index]         : the input and calibration handlers (index.js);
    - [WindowDetectorWorker] : the worker channel
                        (lib/WindowDetectorWorker.js);
    - [PaneLocator]   : the pane locators and the colour helpers
                        (pane-detector.js);
    - [Input]         : the focus handlers (index.js);
    - [ConfigUpdate]  : the updates of the configuration (configManager.js);
    - [WindowDetector] : the one-shot window lookup (window-detector.js);
    - [Server]        : the event loop with the [config:update] handler
                        (index.js).

    JavaScript numbers are modelled as exact rationals ([Q]) where the code
    divides or multiplies by a fraction, and as integers ([Z]) where every
    value that reaches the code is integral (pixel coordinates after
    [Math.round], counters, timestamps).  Rounding errors of IEEE doubles are
    outside the model. *)

From Stdlib Require Import ZArith QArith Qround Qabs Qminmax Lqa Lia List String.
From Stdlib Require Import Ascii Sorted Permutation.
From stdpp Require Import base gmap strings list pretty.

Local Open Scope Z_scope.

(** ** JavaScript helpers *)

Module JS.

Definition Qlt_bool (a b : Q) : bool := negb (Qle_bool b a).
Definition Qgt_bool (a b : Q) : bool := Qlt_bool b a.
Definition Qge_bool (a b : Q) : bool := Qle_bool b a.

(** [Math.round]: nearest integer, halves towards plus infinity. *)
Definition Math_round (q : Q) : Z := Qfloor (q + (1 # 2)).

(** [Math.max(a, b)] and [Math.min(a, b)] on rationals. *)
Definition Math_max (a b : Q) : Q := if Qlt_bool a b then b else a.
Definition Math_min (a b : Q) : Q := if Qlt_bool b a then b else a.

(** [Array.prototype.sort(cmp)] for a comparator that is a consistent
    order: the sort is stable, so its result is that of a stable insertion
    sort.  [cmp a b > 0] moves [a] behind [b]. *)
Section Sort.
Context {A : Type} (cmp : A -> A -> Q).

Fixpoint insert_sorted (a : A) (l : list A) : list A :=
  match l with
  | [] => [a]
  | b :: l' => if Qlt_bool 0 (cmp a b) then b :: insert_sorted a l'
               else a :: l
  end.

Definition sort (l : list A) : list A := foldr insert_sorted [] l.
End Sort.

End JS.

(** ** pane-detector.js *)

Module PaneDetector.
Import JS.

(** A Jimp image: its dimensions and [getPixelColor], which returns the
    pixel as a 32-bit RGBA integer. *)
Record Image := {
  width : Z;
  height : Z;
  getPixelColor : Q -> Q -> Z
}.

Record RGBA := { r : Z; g : Z; b : Z; a : Z }.

(** [i >>> n] converts [i] to an unsigned 32-bit integer first. *)
Definition ushr (i n : Z) : Z := Z.shiftr (i mod 2 ^ 32) n.

Definition intToRGBA (i : Z) : RGBA :=
  {| r := Z.land (ushr i 24) 255;
     g := Z.land (ushr i 16) 255;
     b := Z.land (ushr i 8) 255;
     a := Z.land (i mod 2 ^ 32) 255 |}.

Definition colorDiff (c1 c2 : RGBA) : Z :=
  Z.abs (r c1 - r c2) + Z.abs (g c1 - g c2) + Z.abs (b c1 - b c2).

(** [getLowResourceSampleStep]; [configManager.isLowResourceMode()] is not
    part of the sources at hand and is taken as the flag [lowResource]. *)
Definition getLowResourceSampleStep (lowResource : bool) (defaultStep : Q) : Q :=
  if lowResource then Math_max 15 (defaultStep * 2) else defaultStep.

(** [options.scanRegion]: centre and extent of the region to scan. *)
Record ScanRegion := { sr_x : Q; sr_width : Q; sr_y : Q; sr_height : Q }.

(** The options object of [findVerticalEdges] / [findHorizontalEdges],
    after destructuring with its defaults. *)
Record EdgeOptions := {
  minEdgeScore : Q;
  edgeThreshold : Q;
  sampleStep : Q;
  marginX : Q;
  marginY : Q;
  fullWidth : bool;
  scanRegion : option ScanRegion
}.


(** An edge candidate; [pos] is the field [x] of a vertical edge and the
    field [y] of a horizontal one. *)
Record Edge := { pos : Q; edgeScore : Q; continuity : Q }.

(** The positions visited by [for (let p = start; p > stop; p--)]. *)
Fixpoint countDown (fuel : nat) (p stop : Q) : list Q :=
  match fuel with
  | O => []
  | S fuel' => if Qgt_bool p stop then p :: countDown fuel' (p - 1)%Q stop
               else []
  end.

Definition scanPositions (start stop : Q) : list Q :=
  countDown (Z.to_nat (Qceiling (start - stop))) start stop.

(** The inner sampling loop
    [for (let q = from; q < limit; q += step) { ...; totalSamples++ }]:
    [hit q] tells whether the sample at [q] exceeds the contrast
    threshold.  With [fuel] exhausted the loop has not finished. *)
Fixpoint sampleLoop (hit : Q -> bool) (fuel : nat) (q limit step : Q)
    (edgeCount totalSamples : Z) : option (Z * Z) :=
  if Qlt_bool q limit then
    match fuel with
    | O => None
    | S fuel' =>
        sampleLoop hit fuel' (q + step)%Q limit step
                   (if hit q then edgeCount + 1 else edgeCount)
                   (totalSamples + 1)
    end
  else Some (edgeCount, totalSamples).

(** Enough fuel for a positive step; with a step that is not positive the
    loop never ends once entered, which is the result [None]. *)
Definition sampleFuel (from limit step : Q) : nat :=
  if Qlt_bool 0 step then Z.to_nat (Qceiling ((limit - from) / step)) else O.

Definition samples (hit : Q -> bool) (from limit step : Q) : option (Z * Z) :=
  sampleLoop hit (sampleFuel from limit step) from limit step 0 0.

Definition scoreOf (counts : Z * Z) : Q :=
  if 0 <? snd counts then (inject_Z (fst counts) / inject_Z (snd counts))%Q
  else 0%Q.

(** Hit test of [findVerticalEdges] at column [x], row [y]. *)
Definition verticalHit (image : Image) (threshold x y : Q) : bool :=
  let leftX := Math_max 0 (x - 3) in
  let rightX := Math_min (inject_Z (width image) - 1) (x + 3) in
  let leftColor := intToRGBA (getPixelColor image leftX y) in
  let rightColor := intToRGBA (getPixelColor image rightX y) in
  Qgt_bool (inject_Z (colorDiff leftColor rightColor)) threshold.

(** Hit test of [findHorizontalEdges] at row [y], column [x]. *)
Definition horizontalHit (image : Image) (threshold y x : Q) : bool :=
  let topY := Math_max 0 (y - 3) in
  let bottomY := Math_min (inject_Z (height image) - 1) (y + 3) in
  let topColor := intToRGBA (getPixelColor image x topY) in
  let bottomColor := intToRGBA (getPixelColor image x bottomY) in
  Qgt_bool (inject_Z (colorDiff topColor bottomColor)) threshold.

(** The scan loop shared by both functions: one candidate per position
    whose score reaches [minEdgeScore]. *)
Fixpoint scan (sampleAt : Q -> option (Z * Z)) (minScore : Q)
    (positions : list Q) : option (list Edge) :=
  match positions with
  | [] => Some []
  | p :: rest =>
      match sampleAt p with
      | None => None
      | Some counts =>
          let score := scoreOf counts in
          match scan sampleAt minScore rest with
          | None => None
          | Some edges =>
              Some (if Qge_bool score minScore
                    then {| pos := p; edgeScore := score; continuity := score |} :: edges
                    else edges)
          end
      end
  end.

(** "Remove duplicates within 5px of each other, keeping highest score":
    [filtered.find] returns the first close entry, which is overwritten in
    place when the new edge scores higher. *)
Definition close (e1 e2 : Edge) : bool := Qlt_bool (Qabs (pos e1 - pos e2)) 5.

Fixpoint mergeInto (filtered : list Edge) (edge : Edge) : list Edge :=
  match filtered with
  | [] => [edge]
  | existing :: rest =>
      if close existing edge then
        (if Qgt_bool (edgeScore edge) (edgeScore existing)
         then {| pos := pos edge; edgeScore := edgeScore edge;
                 continuity := continuity existing |}
         else existing) :: rest
      else existing :: mergeInto rest edge
  end.

Definition dedupe (edges : list Edge) : list Edge :=
  fold_left mergeInto edges [].

Definition byPosDescending (e1 e2 : Edge) : Q := (pos e2 - pos e1)%Q.

Definition findVerticalEdges (image : Image) (options : EdgeOptions)
    : option (list Edge) :=
  let w := inject_Z (width image) in
  let h := inject_Z (height image) in
  let startX :=
    if fullWidth options then (w - marginX options)%Q
    else match scanRegion options with
         | Some sr => Math_min (w - 5) (sr_x sr + sr_width sr / 2)
         | None => (w - marginX options)%Q
         end in
  let endX :=
    if fullWidth options then marginX options
    else match scanRegion options with
         | Some sr => Math_max 5 (sr_x sr - sr_width sr / 2)
         | None => (w * (3 # 10))%Q
         end in
  match scan (fun x => samples (verticalHit image (edgeThreshold options) x)
                               (marginY options) (h - marginY options)
                               (sampleStep options))
             (minEdgeScore options) (scanPositions startX endX) with
  | None => None
  | Some edges => Some (sort byPosDescending (dedupe edges))
  end.

Definition findHorizontalEdges (image : Image) (options : EdgeOptions)
    : option (list Edge) :=
  let w := inject_Z (width image) in
  let h := inject_Z (height image) in
  let startY :=
    match scanRegion options with
    | Some sr => Math_min (h - 5) (sr_y sr + sr_height sr / 2)
    | None => (h - 5)%Q
    end in
  let endY :=
    match scanRegion options with
    | Some sr => Math_max 5 (sr_y sr - sr_height sr / 2)
    | None => (h * (3 # 10))%Q
    end in
  match scan (fun y => samples (horizontalHit image (edgeThreshold options) y)
                               (marginX options) (w - marginX options)
                               (sampleStep options))
             (minEdgeScore options) (scanPositions startY endY) with
  | None => None
  | Some edges => Some (sort byPosDescending (dedupe edges))
  end.

(** *** findTerminalPane

    The options [findTerminalPane] hands to [findHorizontalEdges]; the
    margins keep their defaults. *)
Definition terminalEdgeOptions (lowResource : bool)
    (region : option ScanRegion) : EdgeOptions :=
  {| minEdgeScore := 50 # 100;
     edgeThreshold := 20;
     sampleStep := getLowResourceSampleStep lowResource 8;
     marginX := 30;
     marginY := 30;
     fullWidth := false;
     scanRegion := region |}.

(** Step 1, the candidates for the top separator. *)
Definition topCandidates (h : Z) (horizontalEdges : list Edge) : list Edge :=
  let statusBarThreshold := (inject_Z h - 40)%Q in
  let minHeightThreshold := (inject_Z h * (30 # 100))%Q in
  sort byPosDescending
       (List.filter (fun e => Qgt_bool (pos e) minHeightThreshold
                              && Qlt_bool (pos e) statusBarThreshold)
                    horizontalEdges).

(** The loop [for (let i = 1; i < candidates.length; i++)]: [first] is
    [candidates[0]], [prev] is [candidates[i - 1]]. *)
Fixpoint walkUp (first prev topSeparator : Edge) (rest : list Edge) : Edge :=
  match rest with
  | [] => topSeparator
  | c :: rest' =>
      if Qlt_bool (Qabs (pos c - pos prev)) 100 then walkUp first c c rest'
      else if Qgt_bool (pos first - pos prev) 80 then topSeparator
           else walkUp first c c rest'
  end.

Definition selectTop (candidates : list Edge) : option Edge :=
  match candidates with
  | [] => None
  | c0 :: rest => Some (walkUp c0 c0 c0 rest)
  end.

(** Step 2, the bottom separator. *)
Definition inBottomRange (h : Z) (topY : Q) (e : Edge) : bool :=
  Qgt_bool (pos e) (topY + 100) && Qlt_bool (pos e) (inject_Z h - 5).

Definition bottomCandidates (h : Z) (topY : Q) (horizontalEdges : list Edge)
    : list Edge :=
  sort byPosDescending (List.filter (inBottomRange h topY) horizontalEdges).

Definition selectBottomY (h : Z) (candidates : list Edge) : Q :=
  match candidates with
  | [] => (inject_Z h - 25)%Q
  | b0 :: rest =>
      match rest with
      | b1 :: _ =>
          if Qlt_bool (inject_Z h - pos b0) 25
             && Qlt_bool (Qabs (pos b1 - pos b0)) 45
          then pos b1 else pos b0
      | [] => pos b0
      end
  end.

Record Slice := { topSeparatorY : Q; bottomSeparatorY : Q }.

(** Steps 1 and 2 of [findTerminalPane] on the candidates returned by
    [findHorizontalEdges]: [None] is the result [null].  The pane returned
    by the function has [y = topSeparatorY] and
    [height = bottomSeparatorY - topSeparatorY]; step 3 only chooses its
    [x] and [width]. *)
Definition terminalSlice (h : Z) (horizontalEdges : list Edge) : option Slice :=
  match horizontalEdges with
  | [] => None
  | _ =>
      match selectTop (topCandidates h horizontalEdges) with
      | None => None
      | Some topSeparator =>
          let bottomY :=
            selectBottomY h (bottomCandidates h (pos topSeparator) horizontalEdges) in
          let finalSliceHeight := (bottomY - pos topSeparator)%Q in
          if Qlt_bool finalSliceHeight 120 then None
          else Some {| topSeparatorY := pos topSeparator;
                       bottomSeparatorY := bottomY |}
      end
  end.

(** The horizontal pass of [findTerminalPane] on an image; the outer
    [None] stands for an edge scan that does not return. *)
Definition findTerminalSlice (image : Image) (lowResource : bool)
    (region : option ScanRegion) : option (option Slice) :=
  match findHorizontalEdges image (terminalEdgeOptions lowResource region) with
  | None => None
  | Some horizontalEdges => Some (terminalSlice (height image) horizontalEdges)
  end.

(** *** Notions used in the statements *)

(** No two pixels of the image differ by more than the threshold. *)
Definition noContrast (image : Image) (threshold : Q) : Prop :=
  forall x1 y1 x2 y2 : Q,
    (inject_Z (colorDiff (intToRGBA (getPixelColor image x1 y1))
                         (intToRGBA (getPixelColor image x2 y2))) <= threshold)%Q.

(** The order of a list of candidates that runs from the bottom up. *)
Definition lowerFirst (e1 e2 : Edge) : Prop := (pos e2 <= pos e1)%Q.

Definition candidate (p : Z) (score : Q) : Edge :=
  {| pos := inject_Z p; edgeScore := score; continuity := score |}.

(** The candidates of the terminal scenario: y=850 (score .95), y=820 and
    y=700 (score .9), as [findHorizontalEdges] orders them. *)
Definition scenarioEdges : list Edge :=
  [candidate 850 (95 # 100); candidate 820 (60 # 100); candidate 700 (90 # 100)].

(** A uniform grey image. *)
Definition greyImage (w h : Z) : Image :=
  {| width := w; height := h; getPixelColor := fun _ _ => 2155905279 |}.


End PaneDetector.

(** ** configManager.js *)

Module ConfigManager.

Record Crop := { top : Q; bottom : Q; left : Q; right : Q }.

Record Rect := { x : Q; y : Q; width : Q; height : Q }.

(** [config.global], restricted to the settings the capture scheduler and
    the input handlers read.  [isLowResourceMode], [getEffectiveFps],
    [getEffectiveQuality] and [getImageDownscale] are called by the
    scheduler but are not defined in the configManager.js at hand; the
    values they return are the last four fields. *)
Record GlobalConfig := {
  screenConfig : Rect;
  chatCrop : Crop;
  terminalCrop : Crop;
  fps : Q;
  quality : Q;
  detectionMode : string;
  lowResourceMode : bool;
  lowResourceFps : Q;
  lowResourceQuality : Q;
  imageDownscale : Q
}.

(** A client's overrides; [None] is [null], "use the global default". *)
Record ClientConfig := {
  c_fps : option Q;
  c_quality : option Q;
  c_detectionMode : option string
}.

Definition clientDefaults : ClientConfig :=
  {| c_fps := None; c_quality := None; c_detectionMode := None |}.

Record Store := {
  global : GlobalConfig;
  clients : gmap string ClientConfig
}.

(** [getClientConfig] creates the entry on first use; reading it on a
    client without an entry gives the defaults. *)
Definition getClientConfig (store : Store) (socketId : string) : ClientConfig :=
  default clientDefaults (clients store !! socketId).

Record EffectiveConfig := {
  e_fps : Q;
  e_quality : Q;
  e_detectionMode : string;
  cropTop : Q;
  cropBottom : Q;
  cropLeft : Q;
  cropRight : Q
}.

(** [a || b] on strings: the empty string is falsy. *)
Definition orElse (a : option string) (b : string) : string :=
  match a with
  | Some s => if (s =? "")%string then b else s
  | None => b
  end.

Definition getEffectiveConfig (store : Store) (socketId viewMode : string)
    : EffectiveConfig :=
  let g := global store in
  let client := getClientConfig store socketId in
  let crop := if (viewMode =? "chat")%string then chatCrop g else terminalCrop g in
  {| e_fps := default (fps g) (c_fps client);
     e_quality := default (quality g) (c_quality client);
     e_detectionMode := orElse (c_detectionMode client) (detectionMode g);
     cropTop := top crop;
     cropBottom := bottom crop;
     cropLeft := left crop;
     cropRight := right crop |}.

End ConfigManager.

(** ** lib/ClientManager.js *)

Module ClientManager.
Import JS.
Export ConfigManager.

Record FixedTerminalZone := {
  fz_stablePaneX : Q; fz_stablePaneY : Q; fz_stablePaneW : Q; fz_stablePaneH : Q
}.

Record ClickPos := { click_x : Q; click_y : Q; click_time : Z }.

(** [state.streamSource]: [type] is 'auto', 'global' or 'window'. *)
Record StreamSource := {
  type : string;
  target : option string;
  handle : option string
}.

(** The object built by [createDefaultClientState].  Its override fields
    ([fps], [quality], ... all [null] and never read) are left out: the
    overrides that count live in the configuration store. *)
Record ClientState := {
  socketId : string;
  viewMode : string;
  lastActivity : Z;
  isActive : bool;
  calibrationMode : bool;
  calibrationStartTime : option Z;
  frameCount : Z;
  lastPaneX : Q;
  stablePaneX : Q;
  lastPaneY : Q;
  stablePaneY : Q;
  stablePaneW : Q;
  stablePaneH : Q;
  stabilityCount : Z;
  detectedWindow : option Rect;
  lastCaptureArea : option Rect;
  fixedChatZone : option Q;
  fixedTerminalZone : option FixedTerminalZone;
  lastClickPos : option ClickPos;
  scrollAccumulatorY : Q;
  streamSource : StreamSource
}.

Definition createDefaultClientState (id : string) (now : Z) : ClientState :=
  {| socketId := id;
     viewMode := "chat";
     lastActivity := now;
     isActive := true;
     calibrationMode := true;
     calibrationStartTime := None;
     frameCount := 0;
     lastPaneX := -1;
     stablePaneX := -1;
     lastPaneY := -1;
     stablePaneY := -1;
     stablePaneW := -1;
     stablePaneH := -1;
     stabilityCount := 0;
     detectedWindow := None;
     lastCaptureArea := None;
     fixedChatZone := None;
     fixedTerminalZone := None;
     lastClickPos := None;
     scrollAccumulatorY := 0;
     streamSource := {| type := "auto"; target := None; handle := None |} |}.

(** Field updates, one per assignment of the source. *)
Definition set_viewMode (v : string) (s : ClientState) : ClientState :=
  {| socketId := socketId s; viewMode := v; lastActivity := lastActivity s;
     isActive := isActive s; calibrationMode := calibrationMode s;
     calibrationStartTime := calibrationStartTime s; frameCount := frameCount s;
     lastPaneX := lastPaneX s; stablePaneX := stablePaneX s;
     lastPaneY := lastPaneY s; stablePaneY := stablePaneY s;
     stablePaneW := stablePaneW s; stablePaneH := stablePaneH s;
     stabilityCount := stabilityCount s; detectedWindow := detectedWindow s;
     lastCaptureArea := lastCaptureArea s; fixedChatZone := fixedChatZone s;
     fixedTerminalZone := fixedTerminalZone s; lastClickPos := lastClickPos s;
     scrollAccumulatorY := scrollAccumulatorY s;
     streamSource := streamSource s |}.

Definition set_activity (t : Z) (act : bool) (s : ClientState) : ClientState :=
  {| socketId := socketId s; viewMode := viewMode s; lastActivity := t;
     isActive := act; calibrationMode := calibrationMode s;
     calibrationStartTime := calibrationStartTime s; frameCount := frameCount s;
     lastPaneX := lastPaneX s; stablePaneX := stablePaneX s;
     lastPaneY := lastPaneY s; stablePaneY := stablePaneY s;
     stablePaneW := stablePaneW s; stablePaneH := stablePaneH s;
     stabilityCount := stabilityCount s; detectedWindow := detectedWindow s;
     lastCaptureArea := lastCaptureArea s; fixedChatZone := fixedChatZone s;
     fixedTerminalZone := fixedTerminalZone s; lastClickPos := lastClickPos s;
     scrollAccumulatorY := scrollAccumulatorY s;
     streamSource := streamSource s |}.

Definition set_calibration (mode : bool) (start : option Z) (s : ClientState)
    : ClientState :=
  {| socketId := socketId s; viewMode := viewMode s; lastActivity := lastActivity s;
     isActive := isActive s; calibrationMode := mode;
     calibrationStartTime := start; frameCount := frameCount s;
     lastPaneX := lastPaneX s; stablePaneX := stablePaneX s;
     lastPaneY := lastPaneY s; stablePaneY := stablePaneY s;
     stablePaneW := stablePaneW s; stablePaneH := stablePaneH s;
     stabilityCount := stabilityCount s; detectedWindow := detectedWindow s;
     lastCaptureArea := lastCaptureArea s; fixedChatZone := fixedChatZone s;
     fixedTerminalZone := fixedTerminalZone s; lastClickPos := lastClickPos s;
     scrollAccumulatorY := scrollAccumulatorY s;
     streamSource := streamSource s |}.

Definition set_frameCount (n : Z) (s : ClientState) : ClientState :=
  {| socketId := socketId s; viewMode := viewMode s; lastActivity := lastActivity s;
     isActive := isActive s; calibrationMode := calibrationMode s;
     calibrationStartTime := calibrationStartTime s; frameCount := n;
     lastPaneX := lastPaneX s; stablePaneX := stablePaneX s;
     lastPaneY := lastPaneY s; stablePaneY := stablePaneY s;
     stablePaneW := stablePaneW s; stablePaneH := stablePaneH s;
     stabilityCount := stabilityCount s; detectedWindow := detectedWindow s;
     lastCaptureArea := lastCaptureArea s; fixedChatZone := fixedChatZone s;
     fixedTerminalZone := fixedTerminalZone s; lastClickPos := lastClickPos s;
     scrollAccumulatorY := scrollAccumulatorY s;
     streamSource := streamSource s |}.

(** The pane fields: [lastPaneX], [lastPaneY], the four [stable*] values
    and [stabilityCount]. *)
Definition set_last (lx ly : Q) (count : Z) (s : ClientState) : ClientState :=
  {| socketId := socketId s; viewMode := viewMode s; lastActivity := lastActivity s;
     isActive := isActive s; calibrationMode := calibrationMode s;
     calibrationStartTime := calibrationStartTime s; frameCount := frameCount s;
     lastPaneX := lx; stablePaneX := stablePaneX s;
     lastPaneY := ly; stablePaneY := stablePaneY s;
     stablePaneW := stablePaneW s; stablePaneH := stablePaneH s;
     stabilityCount := count; detectedWindow := detectedWindow s;
     lastCaptureArea := lastCaptureArea s; fixedChatZone := fixedChatZone s;
     fixedTerminalZone := fixedTerminalZone s; lastClickPos := lastClickPos s;
     scrollAccumulatorY := scrollAccumulatorY s;
     streamSource := streamSource s |}.

Definition set_stable (sx sy sw sh : Q) (s : ClientState) : ClientState :=
  {| socketId := socketId s; viewMode := viewMode s; lastActivity := lastActivity s;
     isActive := isActive s; calibrationMode := calibrationMode s;
     calibrationStartTime := calibrationStartTime s; frameCount := frameCount s;
     lastPaneX := lastPaneX s; stablePaneX := sx;
     lastPaneY := lastPaneY s; stablePaneY := sy;
     stablePaneW := sw; stablePaneH := sh;
     stabilityCount := stabilityCount s; detectedWindow := detectedWindow s;
     lastCaptureArea := lastCaptureArea s; fixedChatZone := fixedChatZone s;
     fixedTerminalZone := fixedTerminalZone s; lastClickPos := lastClickPos s;
     scrollAccumulatorY := scrollAccumulatorY s;
     streamSource := streamSource s |}.

Definition set_fixedZones (chat : option Q) (term : option FixedTerminalZone)
    (s : ClientState) : ClientState :=
  {| socketId := socketId s; viewMode := viewMode s; lastActivity := lastActivity s;
     isActive := isActive s; calibrationMode := calibrationMode s;
     calibrationStartTime := calibrationStartTime s; frameCount := frameCount s;
     lastPaneX := lastPaneX s; stablePaneX := stablePaneX s;
     lastPaneY := lastPaneY s; stablePaneY := stablePaneY s;
     stablePaneW := stablePaneW s; stablePaneH := stablePaneH s;
     stabilityCount := stabilityCount s; detectedWindow := detectedWindow s;
     lastCaptureArea := lastCaptureArea s; fixedChatZone := chat;
     fixedTerminalZone := term; lastClickPos := lastClickPos s;
     scrollAccumulatorY := scrollAccumulatorY s;
     streamSource := streamSource s |}.

Definition set_windows (win : option Rect) (area : option Rect)
    (s : ClientState) : ClientState :=
  {| socketId := socketId s; viewMode := viewMode s; lastActivity := lastActivity s;
     isActive := isActive s; calibrationMode := calibrationMode s;
     calibrationStartTime := calibrationStartTime s; frameCount := frameCount s;
     lastPaneX := lastPaneX s; stablePaneX := stablePaneX s;
     lastPaneY := lastPaneY s; stablePaneY := stablePaneY s;
     stablePaneW := stablePaneW s; stablePaneH := stablePaneH s;
     stabilityCount := stabilityCount s; detectedWindow := win;
     lastCaptureArea := area; fixedChatZone := fixedChatZone s;
     fixedTerminalZone := fixedTerminalZone s; lastClickPos := lastClickPos s;
     scrollAccumulatorY := scrollAccumulatorY s;
     streamSource := streamSource s |}.

Definition set_lastClickPos (c : option ClickPos) (s : ClientState) : ClientState :=
  {| socketId := socketId s; viewMode := viewMode s; lastActivity := lastActivity s;
     isActive := isActive s; calibrationMode := calibrationMode s;
     calibrationStartTime := calibrationStartTime s; frameCount := frameCount s;
     lastPaneX := lastPaneX s; stablePaneX := stablePaneX s;
     lastPaneY := lastPaneY s; stablePaneY := stablePaneY s;
     stablePaneW := stablePaneW s; stablePaneH := stablePaneH s;
     stabilityCount := stabilityCount s; detectedWindow := detectedWindow s;
     lastCaptureArea := lastCaptureArea s; fixedChatZone := fixedChatZone s;
     fixedTerminalZone := fixedTerminalZone s; lastClickPos := c;
     scrollAccumulatorY := scrollAccumulatorY s;
     streamSource := streamSource s |}.

Definition set_streamSource (src : StreamSource) (s : ClientState) : ClientState :=
  {| socketId := socketId s; viewMode := viewMode s; lastActivity := lastActivity s;
     isActive := isActive s; calibrationMode := calibrationMode s;
     calibrationStartTime := calibrationStartTime s; frameCount := frameCount s;
     lastPaneX := lastPaneX s; stablePaneX := stablePaneX s;
     lastPaneY := lastPaneY s; stablePaneY := stablePaneY s;
     stablePaneW := stablePaneW s; stablePaneH := stablePaneH s;
     stabilityCount := stabilityCount s; detectedWindow := detectedWindow s;
     lastCaptureArea := lastCaptureArea s; fixedChatZone := fixedChatZone s;
     fixedTerminalZone := fixedTerminalZone s; lastClickPos := lastClickPos s;
     scrollAccumulatorY := scrollAccumulatorY s;
     streamSource := src |}.

(** [clientStates], a [Map] iterated in insertion order: an association
    list with at most one entry per socket id. *)
Definition Clients := list ClientState.

Definition hasId (id : string) (s : ClientState) : bool := (socketId s =? id)%string.

Definition getClientState (cs : Clients) (id : string) : option ClientState :=
  List.find (hasId id) cs.

Definition getAllClients (cs : Clients) : list ClientState := cs.

(** Assignments to a field of a state object held in the map. *)
Fixpoint update (id : string) (f : ClientState -> ClientState) (cs : Clients)
    : Clients :=
  match cs with
  | [] => []
  | s :: rest => if hasId id s then f s :: rest else s :: update id f rest
  end.

Definition addClient (cs : Clients) (id : string) (now : Z) : Clients :=
  match getClientState cs id with
  | Some _ => cs
  | None => cs ++ [createDefaultClientState id now]
  end.

Definition removeClient (cs : Clients) (id : string) : Clients :=
  List.filter (fun s => negb (hasId id s)) cs.

Definition updateActivity (now : Z) (s : ClientState) : ClientState :=
  set_activity now true s.

Definition INACTIVITY_TIMEOUT_MS : Z := 60000.

Definition checkInactivity (now : Z) (cs : Clients) : Clients :=
  List.map (fun s =>
              if isActive s && (INACTIVITY_TIMEOUT_MS <? now - lastActivity s)
              then set_viewMode "idle" (set_activity (lastActivity s) false s)
              else s) cs.

Definition resetDetectionState (s : ClientState) : ClientState :=
  set_calibration true None
    (set_last (lastPaneX s) (lastPaneY s) 0
       (set_stable (-1) (-1) (stablePaneW s) (stablePaneH s) s)).

Definition getEffectiveConfigOf (store : Store) (s : ClientState) : EffectiveConfig :=
  getEffectiveConfig store (socketId s) (viewMode s).

Definition isPaneMode (mode : string) : bool :=
  (mode =? "chat")%string || (mode =? "terminal")%string.

Definition isStreamingMode (mode : string) : bool :=
  (mode =? "chat")%string || (mode =? "terminal")%string || (mode =? "apps")%string.

Definition restoreChatZone (zx : Q) (s : ClientState) : ClientState :=
  set_calibration false (calibrationStartTime s)
    (set_last zx (lastPaneY s) 3
       (set_stable zx (stablePaneY s) (stablePaneW s) (stablePaneH s) s)).

Definition restoreTerminalZone (z : FixedTerminalZone) (s : ClientState)
    : ClientState :=
  set_calibration false (calibrationStartTime s)
    (set_last (fz_stablePaneX z) (fz_stablePaneY z) 3
       (set_stable (fz_stablePaneX z) (fz_stablePaneY z)
                   (fz_stablePaneW z) (fz_stablePaneH z) s)).

(** The branch of [setMode] taken in fixed detection mode. *)
Definition restoreOrReset (mode : string) (s : ClientState) : ClientState :=
  if (mode =? "chat")%string then
    match fixedChatZone s with
    | Some zx => restoreChatZone zx s
    | None => resetDetectionState s
    end
  else if (mode =? "terminal")%string then
    match fixedTerminalZone s with
    | Some z => restoreTerminalZone z s
    | None => resetDetectionState s
    end
  else resetDetectionState s.

(** [setMode] on the state of one client. *)
Definition setMode (store : Store) (now : Z) (mode : string) (s : ClientState)
    : ClientState :=
  let s1 :=
    if isPaneMode mode && negb (viewMode s =? mode)%string then
      let config := getEffectiveConfigOf store s in
      if (e_detectionMode config =? "fixed")%string then restoreOrReset mode s
      else resetDetectionState s
    else s in
  updateActivity now (set_viewMode mode s1).

End ClientManager.

(** ** lib/StreamEngine.js *)

Module StreamEngine.
Import JS.
Export ClientManager.

Record Engine := {
  isStreaming : bool;
  streamInterval : option Q;       (* the period of the capture timer, in ms *)
  isCapturing : bool;
  globalDetectedWindow : option Rect
}.

Definition newEngine : Engine :=
  {| isStreaming := false; streamInterval := None; isCapturing := false;
     globalDetectedWindow := None |}.

Definition set_isCapturing (v : bool) (e : Engine) : Engine :=
  {| isStreaming := isStreaming e; streamInterval := streamInterval e;
     isCapturing := v; globalDetectedWindow := globalDetectedWindow e |}.

Definition set_timer (streaming : bool) (t : option Q) (e : Engine) : Engine :=
  {| isStreaming := streaming; streamInterval := t;
     isCapturing := isCapturing e; globalDetectedWindow := globalDetectedWindow e |}.

Definition set_globalDetectedWindow (win : option Rect) (e : Engine) : Engine :=
  {| isStreaming := isStreaming e; streamInterval := streamInterval e;
     isCapturing := isCapturing e; globalDetectedWindow := win |}.

(** *** startWindowDetection *)

(** What the window lookups of one detection cycle yield: for each client
    the bounds found for its window (by handle, else by title, for a window
    source; by the configured titles in chat and terminal mode), and the
    bounds found for the global target titles.  [None]: not found. *)
Record Lookups := {
  found : string -> option Rect;
  globalFound : option Rect
}.

Definition isApps (s : ClientState) : bool := (viewMode s =? "apps")%string.

(** The body of the per-client loop of the detection cycle. *)
Definition detectWindow (lookups : Lookups) (s : ClientState) : ClientState :=
  if negb (isStreamingMode (viewMode s)) then s
  else if negb (isActive s) then s
  else if isApps s && negb (type (streamSource s) =? "window")%string
  then set_windows None (lastCaptureArea s) s
  else match found lookups (socketId s) with
       | Some bounds => set_windows (Some bounds) (lastCaptureArea s) s
       | None => s
       end.

Definition detectionCycle (lookups : Lookups) (clients : Clients) (e : Engine)
    : Clients * Engine :=
  (List.map (detectWindow lookups) clients,
   match globalFound lookups with
   | Some bounds => set_globalDetectedWindow (Some bounds) e
   | None => e
   end).

(** *** updateInterval *)

Definition baseFps (store : Store) : Q :=
  if lowResourceMode (global store) then lowResourceFps (global store)
  else fps (global store).

Definition clientFps (store : Store) (clients : Clients) : list Q :=
  List.map (fun c => e_fps (getEffectiveConfigOf store c)) (getAllClients clients).

(** [Math.max(baseFps, ...clientFps)]. *)
Definition maxOf (first : Q) (others : list Q) : Q := fold_left Math_max others first.

Definition targetFps (store : Store) (clients : Clients) : Q :=
  if lowResourceMode (global store) then baseFps store
  else maxOf (baseFps store) (clientFps store clients).

Definition intervalMs (store : Store) (clients : Clients) : Q :=
  (1000 / targetFps store clients)%Q.

Definition updateInterval (store : Store) (clients : Clients) (e : Engine) : Engine :=
  if isStreaming e then set_timer true (Some (intervalMs store clients)) e
  else set_timer false None e.

Definition start (store : Store) (clients : Clients) (e : Engine) : Engine :=
  if isStreaming e then e
  else updateInterval store clients (set_timer true (streamInterval e) e).

Definition stop (e : Engine) : Engine :=
  if isStreaming e then set_timer false None e else e.

(** *** captureAndEmit: the base region *)

Record Scale := { scale_x : Q; scale_y : Q }.

(** [getDpiScale]; [logical] is [robot.getScreenSize()]. *)
Definition getDpiScale (logicalWidth logicalHeight : Z) (w h : Z) : Scale :=
  {| scale_x := inject_Z w / inject_Z logicalWidth;
     scale_y := inject_Z h / inject_Z logicalHeight |}.

Record Base := { baseX : Z; baseY : Z; baseW : Z; baseH : Z }.

(** "Determine Base Region": the detected window, else the configured
    screen rectangle, in snapshot pixels. *)
Definition baseRegion (activeWindow : option Rect) (screenConfig : Rect)
    (dpiScale : Scale) : Base :=
  let rect := default screenConfig activeWindow in
  {| baseX := Math_round (x rect * scale_x dpiScale);
     baseY := Math_round (y rect * scale_y dpiScale);
     baseW := Math_round (width rect * scale_x dpiScale);
     baseH := Math_round (height rect * scale_y dpiScale) |}.

(** "Clip": the four assignments, in the order of the source. *)
Definition clip (screenWidth screenHeight : Z) (b : Base) : Base :=
  let bx := if baseX b <? 0 then 0 else baseX b in
  let by_ := if baseY b <? 0 then 0 else baseY b in
  let bw := if screenWidth <? bx + baseW b then screenWidth - bx else baseW b in
  let bh := if screenHeight <? by_ + baseH b then screenHeight - by_ else baseH b in
  {| baseX := bx; baseY := by_; baseW := bw; baseH := bh |}.

(** The rectangle handed to [mainImage.clone().crop]. *)
Definition cropRectangle (activeWindow : option Rect) (screenConfig : Rect)
    (logicalWidth logicalHeight screenWidth screenHeight : Z) : Base :=
  clip screenWidth screenHeight
       (baseRegion activeWindow screenConfig
                   (getDpiScale logicalWidth logicalHeight screenWidth screenHeight)).

(** *** performPaneDetection *)

(** The operations of one client's turn that can throw. *)
Inductive Fault :=
| BaseCropFault        (* mainImage.clone().crop on the base region *)
| DetectionFault       (* findChatPaneStructural / findTerminalPane *)
| PaneCropFault        (* clientImage.crop on the stable pane *)
| ManualCropFault      (* clientImage.crop on the configured margins *)
| EncodeFault.         (* clientImage.getBuffer *)

(** What the outside world does during one client's turn: which operations
    throw when they are executed, what the Pane Locator returns on this
    client's image ([None] is [null]), and the two readings of
    [Date.now()]. *)
Record ClientEnv := {
  throws : Fault -> bool;
  located : option Rect;
  now1 : Z;
  now2 : Z
}.

Definition CALIBRATION_DURATION : Z := 5000.

(** Truthiness of [state.calibrationStartTime]. *)
Definition truthy (t : option Z) : bool :=
  match t with Some v => negb (v =? 0) | None => false end.

Definition isNull (t : option Z) : bool :=
  match t with Some _ => false | None => true end.

Definition elapsed (now : Z) (t : option Z) : Z := now - default 0 t.

(** The prologue: start of calibration, frame counter, calibration
    timeout. *)
Definition beginDetection (cenv : ClientEnv) (s : ClientState) : ClientState :=
  let s1 := if calibrationMode s && isNull (calibrationStartTime s)
            then set_calibration (calibrationMode s) (Some (now1 cenv)) s else s in
  let s2 := set_frameCount (frameCount s1 + 1) s1 in
  if calibrationMode s2 && truthy (calibrationStartTime s2)
     && (CALIBRATION_DURATION <=? elapsed (now2 cenv) (calibrationStartTime s2))
  then set_calibration false (calibrationStartTime s2) s2
  else s2.

Definition isChat (s : ClientState) : bool := (viewMode s =? "chat")%string.
Definition isTerminal (s : ClientState) : bool := (viewMode s =? "terminal")%string.

(** "Fast Exit if Fixed Mode AND already stable". *)
Definition fastExit (isFixedMode : bool) (s : ClientState) : bool :=
  isFixedMode && negb (calibrationMode s)
  && ((isChat s && Qgt_bool (stablePaneX s) 0)
      || (isTerminal s && Qgt_bool (stablePaneY s) 0)).

Definition shouldRunDetection (s : ClientState) : bool :=
  calibrationMode s
  || (Z.rem (frameCount s) 10 =? 0)
  || (isChat s && Qeq_bool (stablePaneX s) (-1))
  || (isTerminal s && Qeq_bool (stablePaneY s) (-1)).

(** The chat branch on a pane found by the locator. *)
Definition observeChat (isFixedMode : bool) (paneBounds : Rect) (s : ClientState)
    : ClientState :=
  let detectedX := x paneBounds in
  let s1 := if Qlt_bool (Qabs (detectedX - lastPaneX s)) 5
            then set_last (lastPaneX s) (lastPaneY s) (stabilityCount s + 1) s
            else set_last detectedX (lastPaneY s) 0 s in
  if 3 <=? stabilityCount s1 then
    let s2 := set_stable (lastPaneX s1) (stablePaneY s1)
                         (stablePaneW s1) (stablePaneH s1) s1 in
    if isFixedMode
    then set_calibration false (calibrationStartTime s2)
           (set_fixedZones (Some (stablePaneX s2)) (fixedTerminalZone s2) s2)
    else s2
  else s1.

(** The terminal branch on a pane found by the locator. *)
Definition observeTerminal (isFixedMode : bool) (paneBounds : Rect) (s : ClientState)
    : ClientState :=
  let detectedY := y paneBounds in
  let detectedX := x paneBounds in
  let detectedW := width paneBounds in
  let detectedH := height paneBounds in
  let s1 := if Qlt_bool (Qabs (detectedY - lastPaneY s)) 5
               && Qlt_bool (Qabs (detectedX - lastPaneX s)) 5
            then set_last (lastPaneX s) (lastPaneY s) (stabilityCount s + 1) s
            else set_last detectedX detectedY 0 s in
  if 3 <=? stabilityCount s1 then
    let s2 := set_stable (lastPaneX s1) (lastPaneY s1) detectedW detectedH s1 in
    if isFixedMode
    then set_calibration false (calibrationStartTime s2)
           (set_fixedZones (fixedChatZone s2)
              (Some {| fz_stablePaneX := stablePaneX s2;
                       fz_stablePaneY := stablePaneY s2;
                       fz_stablePaneW := stablePaneW s2;
                       fz_stablePaneH := stablePaneH s2 |}) s2)
    else s2
  else s1.

(** [effectiveConfig.detectionMode === 'fixed']. *)
Definition fixedMode (store : Store) (s : ClientState) : bool :=
  (e_detectionMode (getEffectiveConfigOf store s) =? "fixed")%string.

(** The result of a call: the state as the call left it, the number of
    Pane Locator invocations, and whether the call threw. *)
Record Detection := {
  d_state : ClientState;
  d_locatorCalls : nat;
  d_threw : bool
}.

Definition returned (s : ClientState) (calls : nat) : Detection :=
  {| d_state := s; d_locatorCalls := calls; d_threw := false |}.

(** [performPaneDetection].  The debug overlay drawn during calibration
    changes only the client's image and is left out. *)
Definition performPaneDetection (store : Store) (cenv : ClientEnv)
    (s : ClientState) : Detection :=
  let s1 := beginDetection cenv s in
  let isFixedMode := fixedMode store s1 in
  if fastExit isFixedMode s1 then returned s1 0
  else if negb (shouldRunDetection s1) then returned s1 0
  else if isChat s1 || isTerminal s1 then
    if throws cenv DetectionFault
    then {| d_state := s1; d_locatorCalls := 1; d_threw := true |}
    else match located cenv with
         | None => returned s1 1
         | Some paneBounds =>
             returned (if isChat s1 then observeChat isFixedMode paneBounds s1
                       else observeTerminal isFixedMode paneBounds s1) 1
         end
  else returned s1 0.

(** *** captureAndEmit: one client's turn *)

(** An emitted frame: the region of the snapshot it shows, the JPEG quality
    and the scale factor applied before encoding. *)
Record Frame := { frame_area : Rect; frame_quality : Q; frame_scale : Q }.

Inductive Completion := Emitted (f : Frame) | Threw (f : Fault).

Record Processed := {
  p_state : ClientState;
  p_locatorCalls : nat;
  p_result : Completion
}.

(** "Apply Stable Crops": the rectangle cut out of the client's image, if
    any, and the final region in snapshot coordinates. *)
Definition stableCrop (b : Base) (s : ClientState) : bool * Rect :=
  let bx := inject_Z (baseX b) in
  let by_ := inject_Z (baseY b) in
  let bw := inject_Z (baseW b) in
  let bh := inject_Z (baseH b) in
  if isChat s && Qgt_bool (stablePaneX s) 0 then
    let paneW := (bw - stablePaneX s)%Q in
    (true, {| x := bx + stablePaneX s; y := by_; width := paneW; height := bh |})
  else if isTerminal s && Qgt_bool (stablePaneY s) 0 then
    let cropX := if Qgt_bool (stablePaneX s) 0 then stablePaneX s else 0%Q in
    let cropW := if Qgt_bool (stablePaneW s) 0 then stablePaneW s else (bw - cropX)%Q in
    let cropH := if Qgt_bool (stablePaneH s) 0 then stablePaneH s
                 else (bh - stablePaneY s)%Q in
    (true, {| x := bx + cropX; y := by_ + stablePaneY s;
              width := cropW; height := cropH |})
  else (false, {| x := bx; y := by_; width := bw; height := bh |}).

(** "User Manual Config Crop". *)
Definition manualCrop (config : EffectiveConfig) (final : Rect) : bool * Rect :=
  let displayW := (width final - cropLeft config - cropRight config)%Q in
  let displayH := (height final - cropTop config - cropBottom config)%Q in
  if Qgt_bool displayH 0 && Qgt_bool displayW 0
  then (true, {| x := x final + cropLeft config; y := y final + cropTop config;
                 width := displayW; height := displayH |})
  else (false, final).

Definition orWindow (a b : option Rect) : option Rect :=
  match a with Some _ => a | None => b end.

(** The body of [for (const state of activeLinkClients)] for a client whose
    socket exists. *)
Definition processClient (store : Store) (e : Engine)
    (screenWidth screenHeight : Z) (dpiScale : Scale) (cenv : ClientEnv)
    (s : ClientState) : Processed :=
  let effectiveConfig := getEffectiveConfigOf store s in
  let activeWindow := orWindow (detectedWindow s) (globalDetectedWindow e) in
  let b := clip screenWidth screenHeight
                (baseRegion activeWindow (screenConfig (global store)) dpiScale) in
  if throws cenv BaseCropFault
  then {| p_state := s; p_locatorCalls := 0; p_result := Threw BaseCropFault |}
  else
    let d := if bool_decide (is_Some (detectedWindow s)) && isPaneMode (viewMode s)
             then performPaneDetection store cenv s
             else returned s 0 in
    if d_threw d
    then {| p_state := d_state d; p_locatorCalls := d_locatorCalls d;
            p_result := Threw DetectionFault |}
    else
      let s1 := d_state d in
      let '(cropped, final) := stableCrop b s1 in
      if cropped && throws cenv PaneCropFault
      then {| p_state := s1; p_locatorCalls := d_locatorCalls d;
              p_result := Threw PaneCropFault |}
      else
        let s2 := set_windows (detectedWindow s1) (Some final) s1 in
        let '(cut, shown) := manualCrop effectiveConfig final in
        if cut && throws cenv ManualCropFault
        then {| p_state := s2; p_locatorCalls := d_locatorCalls d;
                p_result := Threw ManualCropFault |}
        else
          let low := lowResourceMode (global store) in
          let quality := if low then lowResourceQuality (global store)
                         else e_quality effectiveConfig in
          let downscale := imageDownscale (global store) in
          let scale := if low && Qlt_bool downscale 1 then downscale else 1%Q in
          if throws cenv EncodeFault
          then {| p_state := s2; p_locatorCalls := d_locatorCalls d;
                  p_result := Threw EncodeFault |}
          else {| p_state := s2; p_locatorCalls := d_locatorCalls d;
                  p_result := Emitted {| frame_area := shown;
                                         frame_quality := quality;
                                         frame_scale := scale |} |}.

(** *** captureAndEmit: the tick *)

(** What the outside world does during one tick: the size of the snapshot
    ([None]: [screenshot()] or [Jimp.read] rejects), the logical screen
    size, the sockets that are still connected, and the environment of
    each client's turn. *)
Record TickEnv := {
  snapshot : option (Z * Z);
  logicalScreen : Z * Z;
  hasSocket : string -> bool;
  clientEnv : string -> ClientEnv
}.

Inductive LogEntry :=
| StreamEngineError (socketId : option string) (f : option Fault).

(** What a tick has produced so far. *)
Record Output := {
  o_clients : Clients;
  o_locatorCalls : list string;     (* one entry per Pane Locator call *)
  o_emitted : list (string * Frame); (* socket.volatile.emit('frame', ...) *)
  o_log : list LogEntry              (* console.error *)
}.

Definition calls (id : string) (n : nat) : list string := List.repeat id n.

(** The loop over [activeLinkClients], given by their socket ids: the
    state objects are shared with the client map, so each turn reads the
    state as it is when the turn begins.  The result [Some fault] is an
    exception that leaves the loop. *)
Fixpoint clientLoop (store : Store) (e : Engine) (env : TickEnv)
    (screenWidth screenHeight : Z) (dpiScale : Scale)
    (ids : list string) (o : Output) : Output * option (string * Fault) :=
  match ids with
  | [] => (o, None)
  | id :: rest =>
      match getClientState (o_clients o) id with
      | None => clientLoop store e env screenWidth screenHeight dpiScale rest o
      | Some s =>
          if negb (hasSocket env id)
          then clientLoop store e env screenWidth screenHeight dpiScale rest o
          else
            let p := processClient store e screenWidth screenHeight dpiScale
                                   (clientEnv env id) s in
            let o1 := {| o_clients := update id (fun _ => p_state p) (o_clients o);
                         o_locatorCalls := o_locatorCalls o ++ calls id (p_locatorCalls p);
                         o_emitted := o_emitted o;
                         o_log := o_log o |} in
            match p_result p with
            | Threw f => (o1, Some (id, f))
            | Emitted frame =>
                clientLoop store e env screenWidth screenHeight dpiScale rest
                  {| o_clients := o_clients o1;
                     o_locatorCalls := o_locatorCalls o1;
                     o_emitted := o_emitted o1 ++ [(id, frame)];
                     o_log := o_log o1 |}
            end
      end
  end.

(** The clients a tick serves. *)
Definition eligible (s : ClientState) : bool :=
  isActive s && isStreamingMode (viewMode s).

Definition activeLinkClients (clients : Clients) : list string :=
  List.map socketId (List.filter eligible (getAllClients clients)).

(** The part of [captureAndEmit] after [await screenshot()], with its
    [catch]: an exception ends the loop and is logged. *)
Definition tickBody (store : Store) (e : Engine) (env : TickEnv)
    (ids : list string) (o : Output) : Output :=
  match snapshot env with
  | None =>
      {| o_clients := o_clients o; o_locatorCalls := o_locatorCalls o;
         o_emitted := o_emitted o;
         o_log := o_log o ++ [StreamEngineError None None] |}
  | Some (screenWidth, screenHeight) =>
      let dpiScale := getDpiScale (fst (logicalScreen env)) (snd (logicalScreen env))
                                  screenWidth screenHeight in
      match clientLoop store e env screenWidth screenHeight dpiScale ids o with
      | (o1, None) => o1
      | (o1, Some (id, f)) =>
          {| o_clients := o_clients o1; o_locatorCalls := o_locatorCalls o1;
             o_emitted := o_emitted o1;
             o_log := o_log o1 ++ [StreamEngineError (Some id) (Some f)] |}
      end
  end.

(** *** The scheduler *)

(** The server as the timer and the clients drive it.  [suspended] holds
    the calls of [captureAndEmit] that wait for their snapshot, each with
    the clients it selected; [captures] counts the calls of
    [screenshot()].  A call runs in two steps: up to its first [await]
    ([timerFire]) and from there to its end ([tickResume]); the later
    [await]s of a call are not interleaved with other events. *)
Record World := {
  engine : Engine;
  store : Store;
  out : Output;
  suspended : list (list string);
  captures : nat
}.

Definition set_engine (e : Engine) (w : World) : World :=
  {| engine := e; store := store w; out := out w;
     suspended := suspended w; captures := captures w |}.

Definition set_clients (cs : Clients) (w : World) : World :=
  {| engine := engine w; store := store w;
     out := {| o_clients := cs; o_locatorCalls := o_locatorCalls (out w);
               o_emitted := o_emitted (out w); o_log := o_log (out w) |};
     suspended := suspended w; captures := captures w |}.

Inductive Event :=
| TimerFire                          (* the capture timer calls captureAndEmit *)
| TickResume (env : TickEnv)         (* a suspended call runs to its end *)
| Connect (id : string) (now : Z)
| Disconnect (id : string)
| SetMode (id mode : string) (now : Z)          (* view:setMode *)
| CalibrationReset (id : string) (now : Z)      (* calibration:reset *)
| CalibrationResetFixed (id : string) (now : Z) (* calibration:resetFixed *)
| SetSource (id : string) (src : StreamSource) (now : Z) (* apps:setSource *)
| DetectionCycle (lookups : Lookups)            (* the window detection timer *)
| InactivityCheck (now : Z).

(** [captureAndEmit] up to its first [await]. *)
Definition timerFire (w : World) : World :=
  match streamInterval (engine w) with
  | None => w
  | Some _ =>
      if isCapturing (engine w) then w
      else
        let ids := activeLinkClients (o_clients (out w)) in
        match ids with
        | [] => set_engine (set_isCapturing false (set_isCapturing true (engine w))) w
        | _ =>
            {| engine := set_isCapturing true (engine w); store := store w;
               out := out w; suspended := suspended w ++ [ids];
               captures := S (captures w) |}
        end
  end.

(** The rest of it, [finally] included. *)
Definition tickResume (env : TickEnv) (w : World) : World :=
  match suspended w with
  | [] => w
  | ids :: rest =>
      {| engine := set_isCapturing false (engine w); store := store w;
         out := tickBody (store w) (engine w) env ids (out w);
         suspended := rest; captures := captures w |}
  end.

(** *** Notions used in the statements *)


(** The number of Pane Locator calls made for a client. *)
Definition locatorCallsOf (id : string) (o : Output) : nat :=
  List.length (List.filter (String.eqb id) (o_locatorCalls o)).

(** LOCKED: fixed detection mode, calibration over, and a stable pane
    committed for the view mode the client is in. *)
Definition locked (store : Store) (s : ClientState) : Prop :=
  fixedMode store s = true /\ calibrationMode s = false
  /\ ((viewMode s = "chat" /\ (0 < stablePaneX s)%Q)
      \/ (viewMode s = "terminal" /\ (0 < stablePaneY s)%Q)).

(** What remains of a locked state [s0] while the client sends nothing:
    the same stable pane in the same view mode, unless the inactivity
    check has put the client to sleep. *)
Definition settled (store : Store) (s0 s : ClientState) : Prop :=
  fixedMode store s = true /\ calibrationMode s = false
  /\ stablePaneX s = stablePaneX s0 /\ stablePaneY s = stablePaneY s0
  /\ (viewMode s = viewMode s0 \/ viewMode s = "idle").

(** The invariant of a client locked in state [s0] that sends nothing. *)
Definition quiet (id : string) (s0 : ClientState) (w : World) : Prop :=
  locked (store w) s0
  /\ exists s, getClientState (o_clients (out w)) id = Some s
               /\ settled (store w) s0 s.

(** A turn in which nothing throws and the locator finds a pane at [px]. *)
Definition seeing (pane : Rect) (t1 t2 : Z) : ClientEnv :=
  {| throws := fun _ => false; located := Some pane; now1 := t1; now2 := t2 |}.

Definition paneAt (px : Q) : Rect :=
  {| x := px; y := 0; width := 1000 - px; height := 800 |}.

(** Successive calls of [performPaneDetection] on one client. *)
Definition detections (store : Store) (turns : list ClientEnv) (s : ClientState)
    : ClientState :=
  fold_left (fun s cenv => d_state (performPaneDetection store cenv s)) turns s.

(** The default configuration of configManager.js, with low-resource mode
    off. *)
Definition defaultGlobal : GlobalConfig :=
  {| screenConfig := {| x := 0; y := 0; width := 800; height := 600 |};
     chatCrop := {| top := 40; bottom := 40; left := 0; right := 0 |};
     terminalCrop := {| top := 10; bottom := 10; left := 0; right := 0 |};
     fps := 30;
     quality := 70;
     detectionMode := "dynamic";
     lowResourceMode := false;
     lowResourceFps := 10;
     lowResourceQuality := 40;
     imageDownscale := 1 |}.

Definition defaultStore : Store := {| global := defaultGlobal; clients := ∅ |}.

Definition fixedGlobal : GlobalConfig :=
  {| screenConfig := screenConfig defaultGlobal;
     chatCrop := chatCrop defaultGlobal;
     terminalCrop := terminalCrop defaultGlobal;
     fps := 30; quality := 70;
     detectionMode := "fixed";
     lowResourceMode := false;
     lowResourceFps := 10; lowResourceQuality := 40; imageDownscale := 1 |}.

Definition fixedStore : Store := {| global := fixedGlobal; clients := ∅ |}.

(** The capture guard: at most one call of [captureAndEmit] is suspended,
    and [isCapturing] tells whether one is. *)
Definition guarded (w : World) : Prop :=
  match suspended w with
  | [] => isCapturing (engine w) = false
  | [_] => isCapturing (engine w) = true
  | _ => False
  end.

(** The clients of a tick that can be served: their state is in the map
    and their socket is connected. *)
Definition servable (env : TickEnv) (o : Output) (id : string) : bool :=
  bool_decide (is_Some (getClientState (o_clients o) id)) && hasSocket env id.

(** A tick in which nothing throws and no pane is found, on a 1920x1080
    screen, and the same tick with a failing encoder for client "a". *)
Definition calmTurn : ClientEnv :=
  {| throws := fun _ => false; located := None; now1 := 100; now2 := 100 |}.

Definition calmTick : TickEnv :=
  {| snapshot := Some (1920, 1080); logicalScreen := (1920, 1080);
     hasSocket := fun _ => true; clientEnv := fun _ => calmTurn |}.

Definition failingEncode : ClientEnv :=
  {| throws := fun f => match f with EncodeFault => true | _ => false end;
     located := None; now1 := 100; now2 := 100 |}.

Definition faultyTick : TickEnv :=
  {| snapshot := Some (1920, 1080); logicalScreen := (1920, 1080);
     hasSocket := fun _ => true;
     clientEnv := fun id => if (id =? "a")%string then failingEncode else calmTurn |}.



End StreamEngine.

(** ** lib/WindowDetectorWorker.js *)

Module WindowDetectorWorker.

(** Window bounds as [parseResult] builds them; a component is [None]
    when [parseInt] answers [NaN]. *)
Record Bounds := {
  x : option Z; y : option Z; width : option Z; height : option Z
}.

(** *** Strings *)

(** [s.split(sep)] for a one-character separator. *)
Fixpoint split (sep : ascii) (s : string) : list string :=
  match s with
  | EmptyString => [EmptyString]
  | String c rest =>
      if Ascii.eqb c sep then EmptyString :: split sep rest
      else match split sep rest with
           | [] => [String c EmptyString]
           | piece :: pieces => String c piece :: pieces
           end
  end.

Definition newline : ascii := ascii_of_nat 10.

Definition isSpace (c : ascii) : bool :=
  let n := nat_of_ascii c in
  (Nat.leb 9 n && Nat.leb n 13) || Nat.eqb n 32.

Fixpoint trimStart (s : string) : string :=
  match s with
  | String c rest => if isSpace c then trimStart rest else s
  | EmptyString => EmptyString
  end.

Fixpoint trimEnd (s : string) : string :=
  match s with
  | EmptyString => EmptyString
  | String c rest =>
      match trimEnd rest with
      | EmptyString => if isSpace c then EmptyString else String c EmptyString
      | rest' => String c rest'
      end
  end.

(** [s.trim()], on ASCII white space. *)
Definition trim (s : string) : string := trimEnd (trimStart s).

(** The text before and after the first [sep], with the index of [sep]. *)
Fixpoint cut (sep : ascii) (s : string) : option (nat * string * string) :=
  match s with
  | EmptyString => None
  | String c rest =>
      if Ascii.eqb c sep then Some (O, EmptyString, rest)
      else match cut sep rest with
           | Some (i, before, after) => Some (S i, String c before, after)
           | None => None
           end
  end.

Section Worker.

(** The built-in [parseInt]; [None] is [NaN]. *)
Variable parseInt : string -> option Z.

Definition parseResult (result : string) : option Bounds :=
  if (result =? "")%string || (result =? "NOT_FOUND")%string then None
  else match split "," result with
       | [p0; p1; p2; p3] =>
           Some {| x := parseInt p0; y := parseInt p1;
                   width := parseInt p2; height := parseInt p3 |}
       | _ => None
       end.

(** *** State *)

(** The closure stored in [pendingCallbacks]: it fills the cache entry
    [cacheKey] and resolves the promise [promise]. *)
Record Callback := { cb_cacheKey : string; cb_promise : nat }.

Record CacheEntry := { value : option Bounds; time : Z }.

(** The pending [setTimeout] callbacks. *)
Inductive TimerAction :=
| CallTimeout (id : string) (promise : nat)   (* the "timeout fallback" *)
| Respawn.                                    (* () => this.init() *)

Record Timer := { due : Z; action : TimerAction }.

(** The worker object together with the event loop around it: the
    clock, the timers, and the promises handed out, numbered in the order
    of the calls; [settled] records the value of each resolved promise
    ([Some None] is [null]). *)
Record State := {
  isReady : bool;
  killed : bool;
  pendingCallbacks : gmap string Callback;
  callId : nat;
  cache : gmap string CacheEntry;
  outputBuffer : string;
  clock : Z;
  timers : list Timer;
  promises : nat;
  settled : gmap nat (option Bounds)
}.

Definition cacheTTL : Z := 2000.
Definition CALL_TIMEOUT : Z := 3000.
Definition RESTART_DELAY : Z := 2000.

(** The constructor, [init()] included. *)
Definition create (now : Z) : State :=
  {| isReady := false; killed := false; pendingCallbacks := ∅; callId := O;
     cache := ∅; outputBuffer := ""; clock := now; timers := [];
     promises := O; settled := ∅ |}.

(** [resolve(v)]: only the first resolution of a promise counts. *)
Definition resolve (promise : nat) (v : option Bounds)
    (settled : gmap nat (option Bounds)) : gmap nat (option Bounds) :=
  match settled !! promise with
  | Some _ => settled
  | None => <[promise := v]> settled
  end.

(** [setTimeout]: the timers are kept in the order in which they fire. *)
Fixpoint schedule (t : Timer) (queue : list Timer) : list Timer :=
  match queue with
  | [] => [t]
  | t' :: rest => if due t <? due t' then t :: queue
                  else t' :: schedule t rest
  end.

(** *** processOutput *)

(** What [processOutput] makes of one line. *)
Inductive Line :=
| Blank
| Ready
| Response (callId result : string)     (* CALLID:RESULT *)
| Other.

Definition parseLine (line : string) : Line :=
  let trimmed := trim line in
  if (trimmed =? "")%string then Blank
  else if (trimmed =? "WORKER_READY")%string then Ready
  else match cut ":" trimmed with
       | Some (S _, id, result) => Response id result
       | _ => Other
       end.

(** The effect of one line of the helper's output. *)
Definition processLine (s : State) (line : string) : State :=
  match parseLine line with
  | Blank | Other => s
  | Ready =>
      {| isReady := true; killed := killed s;
         pendingCallbacks := pendingCallbacks s; callId := callId s;
         cache := cache s; outputBuffer := outputBuffer s; clock := clock s;
         timers := timers s; promises := promises s; settled := settled s |}
  | Response id result =>
      match pendingCallbacks s !! id with
      | Some callback =>
          let bounds := parseResult result in
          {| isReady := isReady s; killed := killed s;
             pendingCallbacks := delete id (pendingCallbacks s);
             callId := callId s;
             cache := <[cb_cacheKey callback :=
                          {| value := bounds; time := clock s |}]> (cache s);
             outputBuffer := outputBuffer s; clock := clock s;
             timers := timers s; promises := promises s;
             settled := resolve (cb_promise callback) bounds (settled s) |}
      | None => s
      end
  end.

(** The complete lines of a buffer and its unfinished rest
    ([lines.pop() || '']). *)
Definition completeLines (buffer : string) : list string * string :=
  let lines := split newline buffer in
  (removelast lines, List.last lines "").

Definition set_outputBuffer (buffer : string) (s : State) : State :=
  {| isReady := isReady s; killed := killed s;
     pendingCallbacks := pendingCallbacks s; callId := callId s;
     cache := cache s; outputBuffer := buffer; clock := clock s;
     timers := timers s; promises := promises s; settled := settled s |}.

(** The [stdout] handler: append the chunk, then [processOutput]. *)
Definition onData (chunk : string) (s : State) : State :=
  let '(lines, rest) := completeLines (outputBuffer s ++ chunk) in
  fold_left processLine lines (set_outputBuffer rest s).

(** *** findWindowBounds and findWindowBoundsByHandle *)

(** A promise that is resolved at once. *)
Definition resolved (v : option Bounds) (s : State) : State * nat :=
  ({| isReady := isReady s; killed := killed s;
      pendingCallbacks := pendingCallbacks s; callId := callId s;
      cache := cache s; outputBuffer := outputBuffer s; clock := clock s;
      timers := timers s; promises := S (promises s);
      settled := resolve (promises s) v (settled s) |}, promises s).

Definition cached (key : string) (s : State) : option (option Bounds) :=
  match cache s !! key with
  | Some entry => if clock s - time entry <? cacheTTL then Some (value entry)
                  else None
  | None => None
  end.

(** A call that is sent to the helper: it takes the next correlation id,
    stores its callback and sets its timeout.  The command written to the
    helper is not modelled; what the helper prints arrives through
    [onData]. *)
Definition register (cacheKey : string) (s : State) : State * nat :=
  let id := pretty (S (callId s)) in
  let promise := promises s in
  ({| isReady := isReady s; killed := killed s;
      pendingCallbacks :=
        <[id := {| cb_cacheKey := cacheKey; cb_promise := promise |}]>
          (pendingCallbacks s);
      callId := S (callId s);
      cache := cache s; outputBuffer := outputBuffer s; clock := clock s;
      timers := schedule {| due := clock s + CALL_TIMEOUT;
                            action := CallTimeout id promise |} (timers s);
      promises := S promise; settled := settled s |}, promise).

(** The part both calls share, from the cache lookup on: the new state
    and the promise returned. *)
Definition lookup (cacheKey : string) (s : State) : State * nat :=
  match cached cacheKey s with
  | Some v => resolved v s
  | None =>
      if negb (isReady s) || killed s then resolved None s
      else register cacheKey s
  end.

(** [titlePattern] is [None] when the argument is not a string. *)
Definition findWindowBounds (titlePattern : option string) (s : State)
    : State * nat :=
  match titlePattern with
  | None => resolved None s
  | Some pattern =>
      if (pattern =? "")%string then resolved None s
      else lookup ("title:" ++ pattern) s
  end.

Definition findWindowBoundsByHandle (handle : string) (s : State) : State * nat :=
  lookup ("handle:" ++ handle) s.

(** *** Timers and the process *)

Definition fire (a : TimerAction) (s : State) : State :=
  match a with
  | CallTimeout id promise =>
      match pendingCallbacks s !! id with
      | Some _ =>
          {| isReady := isReady s; killed := killed s;
             pendingCallbacks := delete id (pendingCallbacks s);
             callId := callId s; cache := cache s;
             outputBuffer := outputBuffer s; clock := clock s;
             timers := timers s; promises := promises s;
             settled := resolve promise None (settled s) |}
      | None => s
      end
  | Respawn =>
      {| isReady := isReady s; killed := false;
         pendingCallbacks := pendingCallbacks s; callId := callId s;
         cache := cache s; outputBuffer := ""; clock := clock s;
         timers := timers s; promises := promises s; settled := settled s |}
  end.

(** The event loop takes the first timer off the queue at its time. *)
Definition pop (tm : Timer) (rest : list Timer) (s : State) : State :=
  {| isReady := isReady s; killed := killed s;
     pendingCallbacks := pendingCallbacks s; callId := callId s;
     cache := cache s; outputBuffer := outputBuffer s;
     clock := Z.max (clock s) (due tm);
     timers := rest; promises := promises s; settled := settled s |}.

(** Time passes until [t]: every timer due by then fires, in order. *)
Fixpoint fireDue (t : Z) (queue : list Timer) (s : State) : State :=
  match queue with
  | [] => s
  | tm :: rest =>
      if due tm <=? t then fireDue t rest (fire (action tm) (pop tm rest s))
      else s
  end.

Definition elapse (t : Z) (s : State) : State :=
  let s1 := fireDue t (timers s) s in
  {| isReady := isReady s1; killed := killed s1;
     pendingCallbacks := pendingCallbacks s1; callId := callId s1;
     cache := cache s1; outputBuffer := outputBuffer s1;
     clock := Z.max (clock s1) t;
     timers := timers s1; promises := promises s1; settled := settled s1 |}.

(** The ['exit'] handler of the helper process. *)
Definition onExit (s : State) : State :=
  {| isReady := false; killed := killed s;
     pendingCallbacks := pendingCallbacks s; callId := callId s;
     cache := cache s; outputBuffer := outputBuffer s; clock := clock s;
     timers := schedule {| due := clock s + RESTART_DELAY; action := Respawn |}
                        (timers s);
     promises := promises s; settled := settled s |}.

Definition destroy (s : State) : State :=
  {| isReady := isReady s; killed := true;
     pendingCallbacks := pendingCallbacks s; callId := callId s;
     cache := cache s; outputBuffer := outputBuffer s; clock := clock s;
     timers := timers s; promises := promises s; settled := settled s |}.

Definition clearCache (s : State) : State :=
  {| isReady := isReady s; killed := killed s;
     pendingCallbacks := pendingCallbacks s; callId := callId s;
     cache := ∅; outputBuffer := outputBuffer s; clock := clock s;
     timers := timers s; promises := promises s; settled := settled s |}.

(** What can happen to the worker. *)
Inductive Event :=
| FindWindowBounds (titlePattern : option string)
| FindWindowBoundsByHandle (handle : string)
| Data (chunk : string)
| Elapse (t : Z)
| Exit
| Destroy
| ClearCache.

Definition step (s : State) (e : Event) : State :=
  match e with
  | FindWindowBounds titlePattern => fst (findWindowBounds titlePattern s)
  | FindWindowBoundsByHandle handle => fst (findWindowBoundsByHandle handle s)
  | Data chunk => onData chunk s
  | Elapse t => elapse t s
  | Exit => onExit s
  | Destroy => destroy s
  | ClearCache => clearCache s
  end.

Definition run (s : State) (events : list Event) : State :=
  fold_left step events s.

(** *** Notions used in the statements *)

(** No line among [lines] is a response to the call [id]. *)
Definition silentOn (id : string) (lines : list string) : Prop :=
  forall line result, In line lines -> parseLine line <> Response id result.

(** The helper never answers the call [id] during [events]. *)
Fixpoint unanswered (id : string) (s : State) (events : list Event) : Prop :=
  match events with
  | [] => True
  | e :: rest =>
      match e with
      | Data chunk =>
          silentOn id (fst (completeLines (outputBuffer s ++ chunk)))
      | _ => True
      end
      /\ unanswered id (step s e) rest
  end.

Definition isCall (e : Event) : Prop :=
  match e with
  | FindWindowBounds _ | FindWindowBoundsByHandle _ => True
  | _ => False
  end.

(** A chunk that ends its line, and a [parseInt] that knows no number. *)
Definition endLine (text : string) : string :=
  (text ++ String newline EmptyString)%string.

(** *** Invariants *)

Definition byDue (a b : Timer) : Prop := due a <= due b.

(** The queue is in firing order. *)
Definition ordered (s : State) : Prop := StronglySorted byDue (timers s).

(** Every queued timer is still to come. *)
Definition ahead (s : State) : Prop :=
  forall tm, In tm (timers s) -> clock s < due tm.

(** Promises and correlation ids in use are older than the counters. *)
Definition numbered (s : State) : Prop :=
  (forall tm id p, In tm (timers s) -> action tm = CallTimeout id p ->
                   (p < promises s)%nat
                   /\ exists n, (n <= callId s)%nat /\ id = pretty n)
  /\ (forall k cb, pendingCallbacks s !! k = Some cb ->
                   (cb_promise cb < promises s)%nat)
  /\ (forall q, (promises s <= q)%nat -> settled s !! q = None).

(** The call with correlation id [id], promise [p] and deadline [d] is
    either waiting, with its timer queued, or timed out. *)
Definition waiting (id : string) (p : nat) (d : Z) (s : State) : Prop :=
  In {| due := d; action := CallTimeout id p |} (timers s)
  /\ (exists cb, pendingCallbacks s !! id = Some cb /\ cb_promise cb = p)
  /\ settled s !! p = None.

Definition timedOut (id : string) (p : nat) (s : State) : Prop :=
  settled s !! p = Some None /\ pendingCallbacks s !! id = None.

Definition watched (id : string) (p : nat) (d : Z) (s : State) : Prop :=
  (forall tm id' p', In tm (timers s) -> action tm = CallTimeout id' p' ->
                     (id' = id <-> p' = p))
  /\ (forall k cb, pendingCallbacks s !! k = Some cb -> cb_promise cb = p ->
                   k = id)
  /\ (p < promises s)%nat
  /\ (exists n, (n <= callId s)%nat /\ id = pretty n)
  /\ (waiting id p d s \/ timedOut id p s).

(** The timeout of the call [id] is set for the time [d] only, and
  before [d] the call is still waiting. *)
Definition punctual (id : string) (p : nat) (d : Z) (s : State) : Prop :=
(forall tm p', In tm (timers s) -> action tm = CallTimeout id p' -> due tm = d)
/\ (clock s < d -> waiting id p d s).

End Worker.

End WindowDetectorWorker.

(** ** index.js *)

Module Index.
Import JS.
Export StreamEngine.

(** *** input:click *)

(** What the handler finds outside: the snapshot it takes for the DPI scale
    ([None]: the capture fails and the handler's [catch] logs it) and the
    logical screen size. *)
Record ClickEnv := {
  click_snapshot : option (Z * Z);
  click_logicalScreen : Z * Z
}.

Definition clickDownscale (store : Store) : Q :=
  if lowResourceMode (global store) then imageDownscale (global store) else 1%Q.

(** The position in snapshot pixels. *)
Definition absolutePosition (store : Store) (config : EffectiveConfig)
    (area : Rect) (pos : Q * Q) : Q * Q :=
  ((x area + fst pos / clickDownscale store + cropLeft config)%Q,
   (y area + snd pos / clickDownscale store + cropTop config)%Q).

(** The arguments of [robot.moveMouse]. *)
Definition logicalPosition (scale : Scale) (absolute : Q * Q) : Z * Z :=
  (Math_round (fst absolute / scale_x scale),
   Math_round (snd absolute / scale_y scale)).

(** The handler on the state of the client that sent the event; [pos] is
    [None] when the payload has no numeric [x] and [y].  The second
    component is the mouse move made, if any. *)
Definition inputClick (store : Store) (env : ClickEnv) (now : Z)
    (pos : option (Q * Q)) (s : ClientState) : ClientState * option (Z * Z) :=
  let s0 := updateActivity now s in
  match pos, lastCaptureArea s0, click_snapshot env with
  | Some p, Some area, Some (w, h) =>
      let scale := getDpiScale (fst (click_logicalScreen env))
                               (snd (click_logicalScreen env)) w h in
      let absolute := absolutePosition store (getEffectiveConfigOf store s0) area p in
      (set_lastClickPos (Some {| click_x := fst absolute; click_y := snd absolute;
                                 click_time := now |}) s0,
       Some (logicalPosition scale absolute))
  | _, _, _ => (s0, None)
  end.

(** *** calibration:reset and calibration:resetFixed *)

Definition calibrationReset (store : Store) (now : Z) (s : ClientState)
    : ClientState :=
  let s0 := updateActivity now s in
  set_calibration true None (setMode store now (viewMode s0) s0).

Definition calibrationResetFixed (store : Store) (now : Z) (s : ClientState)
    : ClientState :=
  let s0 := set_fixedZones None None (updateActivity now s) in
  set_calibration true None (setMode store now (viewMode s0) s0).

(** A client in chat mode whose last frame showed the region at (100, 200),
    and a screen whose snapshot has the logical size. *)
Definition clicker : ClientState :=
  set_windows None (Some {| x := 100; y := 200; width := 500; height := 400 |})
              (createDefaultClientState "a" 0).

Definition sameScale : ClickEnv :=
  {| click_snapshot := Some (1920, 1080); click_logicalScreen := (1920, 1080) |}.

(** The click target as the specification words it. *)
Definition specClickTarget (area : Rect) (scale : Scale) (pos : Q * Q) : Q * Q :=
  (((x area + fst pos) / scale_x scale)%Q, ((y area + snd pos) / scale_y scale)%Q).

(** *** The server *)

Definition removeClientConfig (id : string) (st : Store) : Store :=
  {| global := global st; clients := delete id (clients st) |}.

Definition onClient (id : string) (f : ClientState -> ClientState) (w : World)
    : World :=
  set_clients (update id f (o_clients (out w))) w.

Definition refreshInterval (w : World) : World :=
  set_engine (updateInterval (store w) (o_clients (out w)) (engine w)) w.

(** One event of the server's event loop. *)
Definition step (w : World) (ev : Event) : World :=
  match ev with
  | TimerFire => timerFire w
  | TickResume env => tickResume env w
  | Connect id now =>
      let w1 := set_clients (addClient (o_clients (out w)) id now) w in
      set_engine (start (store w1) (o_clients (out w1)) (engine w1)) w1
  | Disconnect id =>
      let cs := removeClient (o_clients (out w)) id in
      let w1 := {| engine := engine w; store := removeClientConfig id (store w);
                   out := out (set_clients cs w);
                   suspended := suspended w; captures := captures w |} in
      match cs with
      | [] => set_engine (stop (engine w1)) w1
      | _ => refreshInterval w1
      end
  | SetMode id mode now =>
      refreshInterval (onClient id (setMode (store w) now mode) w)
  | CalibrationReset id now => onClient id (calibrationReset (store w) now) w
  | CalibrationResetFixed id now =>
      onClient id (calibrationResetFixed (store w) now) w
  | SetSource id src now =>
      refreshInterval
        (onClient id (fun s => set_streamSource src (updateActivity now s)) w)
  | DetectionCycle lookups =>
      let '(cs, e) := detectionCycle lookups (o_clients (out w)) (engine w) in
      set_engine e (set_clients cs w)
  | InactivityCheck now =>
      set_clients (checkInactivity now (o_clients (out w))) w
  end.

Definition run (w : World) (events : list Event) : World :=
  fold_left step events w.

(** The events that are sent by, or connect or disconnect, the client
    [id]. *)
Definition concerns (id : string) (ev : Event) : bool :=
  match ev with
  | TimerFire | TickResume _ | InactivityCheck _ | DetectionCycle _ => false
  | Connect id' _ | Disconnect id' | SetMode id' _ _ | SetSource id' _ _
  | CalibrationReset id' _ | CalibrationResetFixed id' _ => (id' =? id)%string
  end.

(** The server after [server.listen]: no client, the engine started. *)
Definition boot (st : Store) : World :=
  {| engine := start st [] newEngine;
     store := st;
     out := {| o_clients := []; o_locatorCalls := []; o_emitted := []; o_log := [] |};
     suspended := [];
     captures := O |}.

(** *** A run that locks a client

    Client "a" connects in fixed mode, its window is found, and four ticks
    in which the Pane Locator sees the chat pane at 620, 622, 619 and 621
    follow. *)
Definition windowFound : Lookups :=
  {| found := fun _ => Some {| x := 0; y := 0; width := 1920; height := 1080 |};
     globalFound := None |}.

Definition tickSeeing (px : Q) : TickEnv :=
  {| snapshot := Some (1920, 1080); logicalScreen := (1920, 1080);
     hasSocket := fun _ => true;
     clientEnv := fun _ => seeing (paneAt px) 100 100 |}.

Definition lockingRun : list Event :=
  [Connect "a" 0; DetectionCycle windowFound;
   TimerFire; TickResume (tickSeeing 620);
   TimerFire; TickResume (tickSeeing 622);
   TimerFire; TickResume (tickSeeing 619);
   TimerFire; TickResume (tickSeeing 621)].

Definition lockedWorld : World := run (boot fixedStore) lockingRun.

Definition lockedState : ClientState :=
  default (createDefaultClientState "a" 0)
          (getClientState (o_clients (out lockedWorld)) "a").

(** Two clients and a tick that has taken its snapshot. *)
Definition twoClients : World :=
  run (boot defaultStore) [Connect "a" 0; Connect "b" 0; TimerFire].

End Index.

(** ** pane-detector.js: the pane locators and the colour helpers *)

Module PaneLocator.
Import JS.
Export PaneDetector.

(** *** rgbaToInt *)

(** The 32-bit integer operators of JavaScript on integers: [ToInt32],
    [a & b], [a | b], [a << n] and [a >>> 0]. *)
Definition toInt32 (z : Z) : Z := (z + 2 ^ 31) mod 2 ^ 32 - 2 ^ 31.
Definition band (a b : Z) : Z := Z.land (toInt32 a) (toInt32 b).
Definition bor (a b : Z) : Z := Z.lor (toInt32 a) (toInt32 b).
Definition shl (a n : Z) : Z := toInt32 (Z.shiftl (toInt32 a) (n mod 32)).
Definition toUint32 (a : Z) : Z := a mod 2 ^ 32.

Definition rgbaToInt (r g b a : Z) : Z :=
  toUint32 (bor (bor (bor (shl (band r 255) 24) (shl (band g 255) 16))
                     (shl (band b 255) 8))
                (band a 255)).

(** *** The scan range of the edge detectors *)

(** [startX] and [endX] of [findVerticalEdges], [startY] and [endY] of
    [findHorizontalEdges]. *)
Definition verticalRange (image : Image) (options : EdgeOptions) : Q * Q :=
  let w := inject_Z (width image) in
  if fullWidth options then ((w - marginX options)%Q, marginX options)
  else match scanRegion options with
       | Some sr => (Math_min (w - 5) (sr_x sr + sr_width sr / 2),
                     Math_max 5 (sr_x sr - sr_width sr / 2))
       | None => ((w - marginX options)%Q, (w * (3 # 10))%Q)
       end.

Definition horizontalRange (image : Image) (options : EdgeOptions) : Q * Q :=
  let h := inject_Z (height image) in
  match scanRegion options with
  | Some sr => (Math_min (h - 5) (sr_y sr + sr_height sr / 2),
                Math_max 5 (sr_y sr - sr_height sr / 2))
  | None => ((h - 5)%Q, (h * (3 # 10))%Q)
  end.

(** Edges whose positions fall strictly, and edges that lie at least
    5 pixels apart, read from the right (or the bottom). *)
Definition descending (e1 e2 : Edge) : Prop := (pos e2 < pos e1)%Q.
Definition apart (e1 e2 : Edge) : Prop := (5 <= pos e1 - pos e2)%Q.

(** A candidate of the scan: a visited position whose score reaches the
    minimum. *)
Definition scanned (sampleAt : Q -> option (Z * Z)) (minScore : Q)
    (positions : list Q) (e : Edge) : Prop :=
  In (pos e) positions
  /\ exists counts, sampleAt (pos e) = Some counts
                    /\ edgeScore e = scoreOf counts
                    /\ (minScore <= edgeScore e)%Q.

(** An edge as a detector reports it: inside the scanned range, with a
    score between the minimum asked for and 1. *)
Definition reported (range : Q * Q) (minScore : Q) (e : Edge) : Prop :=
  (snd range < pos e)%Q /\ (pos e <= fst range)%Q
  /\ (minScore <= edgeScore e)%Q /\ (edgeScore e <= 1)%Q.

(** Options with a sample step of 0. *)
Definition stuckOptions : EdgeOptions :=
  {| minEdgeScore := 50 # 100;
     edgeThreshold := 20;
     sampleStep := 0;
     marginX := 30;
     marginY := 30;
     fullWidth := false;
     scanRegion := None |}.

(** *** findChatPaneStructural and findTerminalPane *)

Section Locators.

(** [Array.prototype.sort] under the comparator of the locators.  That
    comparator is not a consistent order (scores within 0.10 of each
    other are compared by position, the others by score), so the order
    the engine produces is its own; the locators are modelled for any
    sort that rearranges the array. *)
Variable arraySort : (Edge -> Edge -> Q) -> list Edge -> list Edge.

Definition byScoreThenPos (a b : Edge) : Q :=
  if Qlt_bool (Qabs (edgeScore a - edgeScore b)) (10 # 100)
  then (pos b - pos a)%Q
  else (edgeScore b - edgeScore a)%Q.

(** The options [findChatPaneStructural] hands to [findVerticalEdges]. *)
Definition chatEdgeOptions (lowResource : bool)
    (region : option ScanRegion) : EdgeOptions :=
  {| minEdgeScore := 50 # 100;
     edgeThreshold := 20;
     sampleStep := getLowResourceSampleStep lowResource 8;
     marginX := 30;
     marginY := 30;
     fullWidth := false;
     scanRegion := region |}.

(** The filter of a global scan: not in the rightmost 10%, at least 35%
    from the left. *)
Definition validEdge (w : Z) (e : Edge) : bool :=
  Qlt_bool (pos e) (inject_Z w * (90 # 100))
  && Qgt_bool (pos e) (inject_Z w * (35 # 100)).

(** Steps 2 and 3 of [findChatPaneStructural] on the edges found;
    [None] is [null]. *)
Definition chatPane (w h : Z) (region : option ScanRegion)
    (verticalEdges : list Edge) : option ConfigManager.Rect :=
  match verticalEdges with
  | [] => None
  | _ =>
      let validEdges :=
        match region with
        | Some _ => verticalEdges
        | None => List.filter (validEdge w) verticalEdges
        end in
      match validEdges with
      | [] => None
      | _ =>
          match arraySort byScoreThenPos validEdges with
          | bestEdge :: _ =>
              let topY := 0%Q in
              let bottomY := inject_Z h in
              Some {| ConfigManager.x := pos bestEdge;
                      ConfigManager.y := topY;
                      ConfigManager.width := (inject_Z w - pos bestEdge)%Q;
                      ConfigManager.height := (bottomY - topY)%Q |}
          | [] => None   (* not reached by a sort that keeps the elements *)
          end
      end
  end.

(** [findChatPaneStructural]; the outer [None] is a scan that does not
    return. *)
Definition findChatPaneStructural (image : Image) (lowResource : bool)
    (region : option ScanRegion) : option (option ConfigManager.Rect) :=
  match findVerticalEdges image (chatEdgeOptions lowResource region) with
  | None => None
  | Some verticalEdges =>
      Some (chatPane (width image) (height image) region verticalEdges)
  end.

(** [image.clone().crop({ x, y, w, h })] of Jimp on a region inside the
    image. *)
Definition crop (image : Image) (cx cy : Q) (w h : Z) : Image :=
  {| width := w;
     height := h;
     getPixelColor := fun px py => getPixelColor image (px + cx)%Q (py + cy)%Q |}.

(** The options of the vertical scan inside the terminal slice. *)
Definition sliceEdgeOptions : EdgeOptions :=
  {| minEdgeScore := 40 # 100;
     edgeThreshold := 20;
     sampleStep := 5;
     marginX := 30;
     marginY := 5;
     fullWidth := true;
     scanRegion := None |}.

Definition rightCandidate (w : Z) (e : Edge) : bool :=
  Qlt_bool (pos e) (inject_Z w * (98 # 100))
  && Qgt_bool (pos e) (inject_Z w * (4 # 10)).

Definition leftCandidate (w : Z) (e : Edge) : bool :=
  Qgt_bool (pos e) (inject_Z w * (2 # 100))
  && Qlt_bool (pos e) (inject_Z w * (6 # 10)).

Definition firstPos (candidates : list Edge) (fallback : Q) : Q :=
  match candidates with
  | e :: _ => pos e
  | [] => fallback
  end.

(** Step 3 of [findTerminalPane] on the vertical edges of the slice. *)
Definition terminalPane (w : Z) (slice : Slice) (verticalEdges : list Edge)
    : ConfigManager.Rect :=
  let rightCandidates :=
    arraySort byScoreThenPos (List.filter (rightCandidate w) verticalEdges) in
  let leftCandidates :=
    arraySort byScoreThenPos (List.filter (leftCandidate w) verticalEdges) in
  let finalRightX := firstPos rightCandidates (inject_Z w) in
  let finalLeftX := firstPos leftCandidates 0 in
  {| ConfigManager.x := finalLeftX;
     ConfigManager.y := topSeparatorY slice;
     ConfigManager.width := (finalRightX - finalLeftX)%Q;
     ConfigManager.height := (bottomSeparatorY slice - topSeparatorY slice)%Q |}.

(** [findTerminalPane] called without a scan region, as the capture loop
    calls it.  The separators are then whole numbers of pixels (the scan
    starts at [height - 5] and moves by one), so that the height of the
    slice is its integer part. *)
Definition findTerminalPane (image : Image) (lowResource : bool)
    : option (option ConfigManager.Rect) :=
  match findHorizontalEdges image (terminalEdgeOptions lowResource None) with
  | None => None
  | Some horizontalEdges =>
      match terminalSlice (height image) horizontalEdges with
      | None => Some None
      | Some slice =>
          let sliceHeight := (bottomSeparatorY slice - topSeparatorY slice)%Q in
          if Qlt_bool sliceHeight 30 then Some None
          else
            let sliceImage :=
              crop image 0 (topSeparatorY slice) (width image)
                   (Qfloor sliceHeight) in
            match findVerticalEdges sliceImage sliceEdgeOptions with
            | None => None
            | Some verticalEdges =>
                Some (Some (terminalPane (width image) slice verticalEdges))
            end
      end
  end.

End Locators.

(** *** Images used in the statements *)

Definition black : Z := 255.
Definition white : Z := 4294967295.

(** An image that is black left of column [edge] and white from there
    on, and one that is black above row [edge]. *)
Definition splitImage (w h edge : Z) : Image :=
  {| width := w; height := h;
     getPixelColor := fun px _ => if Qlt_bool px (inject_Z edge) then black else white |}.

Definition layeredImage (w h edge : Z) : Image :=
  {| width := w; height := h;
     getPixelColor := fun _ py => if Qlt_bool py (inject_Z edge) then black else white |}.

End PaneLocator.

(** ** index.js: the focus handlers *)

Module Input.
Import JS.
Export Index.

(** What the handlers do to the desktop. *)
Inductive Action :=
| MoveMouse (target : Z * Z)      (* robot.moveMouse *)
| MouseClick                      (* robot.mouseClick *)
| LogError.                       (* console.error in a catch *)

(** *** input:threeFingerScrollStart *)

(** "Click on left-center of the visible pane". *)
Definition focusClick (config : EffectiveConfig) (pane : Rect) : Q * Q :=
  ((x pane + cropLeft config + 10)%Q,
   (y pane + cropTop config
    + inject_Z (Qfloor ((height pane - cropTop config - cropBottom config) / 2)))%Q).

Definition threeFingerScrollStart (store : Store) (env : ClickEnv) (now : Z)
    (s : ClientState) : ClientState * list Action :=
  let s0 := updateActivity now s in
  match lastCaptureArea s0 with
  | None => (s0, [])
  | Some pane =>
      match click_snapshot env with
      | None => (s0, [LogError])
      | Some (w, h) =>
          let scale := getDpiScale (fst (click_logicalScreen env))
                                   (snd (click_logicalScreen env)) w h in
          (s0, [MoveMouse (logicalPosition scale
                             (focusClick (getEffectiveConfigOf store s0) pane));
                MouseClick])
      end
  end.

(** *** input:checkFocus *)

(** What [getActiveFocus] resolves with. *)
Record OsFocus := {
  focus_found : bool;
  focus_x : Q;
  focus_y : Q;
  focus_name : option string
}.

Inductive JsNumber := Num (q : Q) | NaN.

(** The payload of [input:focusLocation]. *)
Record FocusLocation := {
  isInChat : bool;
  relativeY : option JsNumber;
  focusName : option string
}.

(** The region shown to the client, as the handler computes it. *)
Definition captureArea (config : EffectiveConfig) (area : Rect) : Rect :=
  {| x := x area + cropLeft config;
     y := y area + cropTop config;
     width := width area - cropLeft config - cropRight config;
     height := height area - cropTop config - cropBottom config |}.

Definition inside (px py : Q) (area : Rect) : bool :=
  Qge_bool px (x area) && Qle_bool px (x area + width area)
  && Qge_bool py (y area) && Qle_bool py (y area + height area).

(** [Math.max(0, Math.min(1, (clickY - area.y) / area.height))] for a
    click inside the area: with a height of 0 the quotient is [0 / 0]. *)
Definition validRelativeY (clickY : Q) (area : Rect) : JsNumber :=
  if Qeq_bool (height area) 0 then NaN
  else Num (Math_max 0 (Math_min 1 ((clickY - y area) / height area))).

(** The handler; [now1] and [now2] are the two readings of [Date.now()],
    [os] is what [getActiveFocus] resolves with ([None]: it rejects). *)
Definition checkFocus (store : Store) (now1 now2 : Z) (os : option OsFocus)
    (s : ClientState) : ClientState * option FocusLocation :=
  let s0 := updateActivity now1 s in
  match lastCaptureArea s0 with
  | None => (s0, None)
  | Some area =>
      let captureArea := captureArea (getEffectiveConfigOf store s0) area in
      let osDetection :=
        match os with
        | Some focus =>
            {| isInChat := focus_found focus
                           && inside (focus_x focus) (focus_y focus) captureArea;
               relativeY := Some (Num (1 # 2));
               focusName := focus_name focus |}
        | None => {| isInChat := false; relativeY := None; focusName := None |}
        end in
      match lastClickPos s0 with
      | Some click =>
          if (now2 - click_time click <? 30000)
             && inside (click_x click) (click_y click) captureArea
          then (s0, Some {| isInChat := true;
                            relativeY := Some (validRelativeY (click_y click)
                                                              captureArea);
                            focusName := Some "Last Click Priority" |})
          else (s0, Some osDetection)
      | None => (s0, Some osDetection)
      end
  end.

(** *** Notions used in the statements *)

(** The engine runs its timer exactly while it is streaming, and it is
    streaming whenever a client is connected. *)
Definition streamingWhileConnected (w : World) : Prop :=
  (isStreaming (engine w) = true <-> is_Some (streamInterval (engine w)))
  /\ (o_clients (out w) <> [] -> isStreaming (engine w) = true).

(** The region of the snapshot that a frame pixel shows. *)
Definition framePixel (f : Frame) (u v : Q) : Q * Q :=
  ((x (frame_area f) + u / frame_scale f)%Q,
   (y (frame_area f) + v / frame_scale f)%Q).

(** The configured margins fit into a captured region. *)
Definition marginsFit (config : EffectiveConfig) (area : Rect) : Prop :=
  (0 < width area - cropLeft config - cropRight config)%Q
  /\ (0 < height area - cropTop config - cropBottom config)%Q.

(** A client in chat mode whose window is 60 pixels high, less than the
    chat margins of 40 pixels above and below. *)
Definition slit : ClientState :=
  set_windows (Some {| x := 0; y := 0; width := 800; height := 60 |}) None
              (createDefaultClientState "a" 0).

End Input.

(** ** configManager.js: the updates *)

Module ConfigUpdate.
Import JS.
Export Index.

(** The numeric and boolean settings of [config.global] that
    [GlobalConfig] leaves out; the console settings are not modelled. *)
Record Settings := {
  fpsMin : Q;
  fpsMax : Q;
  qualityMin : Q;
  qualityMax : Q;
  scrollSensitivity : Q;
  threeFingerScrollSensitivity : Q;
  detectionInterval : Q;
  targetWindowTitles : string;
  showDebugLines : bool;
  autoActivateWindow : bool
}.

(** The configuration manager: [config.global], held in the store and
    in [settings], and [config.clients], held in the store. *)
Record Manager := {
  settings : Settings;
  mstore : Store
}.

(** The [updates] argument of [updateGlobalConfig]: every key may be
    missing ([None] is [undefined]); the values present are numbers,
    strings and booleans as the key asks for. *)
Record RectUpdate := {
  u_x : option Q; u_y : option Q; u_width : option Q; u_height : option Q
}.

Record CropUpdate := {
  u_top : option Q; u_bottom : option Q; u_left : option Q; u_right : option Q
}.

Record GlobalUpdates := {
  g_screenConfig : option RectUpdate;
  g_chatCrop : option CropUpdate;
  g_terminalCrop : option CropUpdate;
  g_fps : option Q;
  g_quality : option Q;
  g_scrollSensitivity : option Q;
  g_threeFingerScrollSensitivity : option Q;
  g_detectionInterval : option Q;
  g_targetWindowTitles : option string;
  g_detectionMode : option string;
  g_showDebugLines : option bool;
  g_autoActivateWindow : option bool
}.

(** [v || d] on a number that may be missing: 0 is falsy. *)
Definition orNumber (v : option Q) (d : Q) : Q :=
  match v with
  | Some q => if Qeq_bool q 0 then d else q
  | None => d
  end.

(** [Math.max(lo, Math.min(hi, v))]. *)
Definition clamp (lo hi v : Q) : Q := Math_max lo (Math_min hi v).

Definition sanitizeRect (u : RectUpdate) : Rect :=
  {| x := Math_max 0 (orNumber (u_x u) 0);
     y := Math_max 0 (orNumber (u_y u) 0);
     width := Math_max 100 (orNumber (u_width u) 800);
     height := Math_max 100 (orNumber (u_height u) 600) |}.

Definition sanitizeCrop (u : CropUpdate) : Crop :=
  {| top := Math_max 0 (orNumber (u_top u) 0);
     bottom := Math_max 0 (orNumber (u_bottom u) 0);
     left := Math_max 0 (orNumber (u_left u) 0);
     right := Math_max 0 (orNumber (u_right u) 0) |}.

(** [{ ...old, ...sanitized }] on one key. *)
Definition merged {A B : Type} (f : A -> B) (update : option A) (old : B) : B :=
  match update with
  | Some v => f v
  | None => old
  end.

(** [updateGlobalConfig]: each key present is sanitized against the
    bounds in force and replaces the old value. *)
Definition updateGlobalConfig (updates : GlobalUpdates) (m : Manager) : Manager :=
  let g := global (mstore m) in
  let s := settings m in
  {| settings :=
       {| fpsMin := fpsMin s;
          fpsMax := fpsMax s;
          qualityMin := qualityMin s;
          qualityMax := qualityMax s;
          scrollSensitivity :=
            merged (clamp (1 # 10) 5) (g_scrollSensitivity updates)
                   (scrollSensitivity s);
          threeFingerScrollSensitivity :=
            merged (clamp (3 # 10) 3) (g_threeFingerScrollSensitivity updates)
                   (threeFingerScrollSensitivity s);
          detectionInterval :=
            merged (clamp 500 10000) (g_detectionInterval updates)
                   (detectionInterval s);
          targetWindowTitles :=
            merged id (g_targetWindowTitles updates) (targetWindowTitles s);
          showDebugLines := merged id (g_showDebugLines updates) (showDebugLines s);
          autoActivateWindow :=
            merged id (g_autoActivateWindow updates) (autoActivateWindow s) |};
     mstore :=
       {| global :=
            {| screenConfig :=
                 merged sanitizeRect (g_screenConfig updates) (screenConfig g);
               chatCrop := merged sanitizeCrop (g_chatCrop updates) (chatCrop g);
               terminalCrop :=
                 merged sanitizeCrop (g_terminalCrop updates) (terminalCrop g);
               fps := merged (clamp (fpsMin s) (fpsMax s)) (g_fps updates) (fps g);
               quality :=
                 merged (clamp (qualityMin s) (qualityMax s)) (g_quality updates)
                        (quality g);
               detectionMode :=
                 merged id (g_detectionMode updates) (detectionMode g);
               lowResourceMode := lowResourceMode g;
               lowResourceFps := lowResourceFps g;
               lowResourceQuality := lowResourceQuality g;
               imageDownscale := imageDownscale g |};
          clients := clients (mstore m) |} |}.

(** The [updates] argument of [updateClientConfig], on the overrides
    that [ClientConfig] holds: a key is missing ([None]), [null]
    ([Some None]) or a value. *)
Record ClientUpdates := {
  cu_fps : option (option Q);
  cu_quality : option (option Q);
  cu_detectionMode : option (option string)
}.

Definition updateClientConfig (socketId : string) (updates : ClientUpdates)
    (m : Manager) : Manager :=
  let s := settings m in
  let clientConfig := getClientConfig (mstore m) socketId in
  let updated :=
    {| c_fps := merged (option_map (clamp (fpsMin s) (fpsMax s)))
                       (cu_fps updates) (c_fps clientConfig);
       c_quality := merged (option_map (clamp (qualityMin s) (qualityMax s)))
                           (cu_quality updates) (c_quality clientConfig);
       c_detectionMode := merged id (cu_detectionMode updates)
                                 (c_detectionMode clientConfig) |} in
  {| settings := s;
     mstore := {| global := global (mstore m);
                  clients := <[socketId := updated]> (clients (mstore m)) |} |}.

Definition removeClientConfigOf (socketId : string) (m : Manager) : Manager :=
  {| settings := settings m; mstore := removeClientConfig socketId (mstore m) |}.

(** The calls made on the manager. *)
Inductive Call :=
| UpdateGlobalConfig (updates : GlobalUpdates)
| UpdateClientConfig (socketId : string) (updates : ClientUpdates)
| RemoveClientConfig (socketId : string).

Definition perform (m : Manager) (c : Call) : Manager :=
  match c with
  | UpdateGlobalConfig updates => updateGlobalConfig updates m
  | UpdateClientConfig socketId updates => updateClientConfig socketId updates m
  | RemoveClientConfig socketId => removeClientConfigOf socketId m
  end.

Definition performAll (m : Manager) (cs : list Call) : Manager := fold_left perform cs m.

(** [this.defaults], with low-resource mode off. *)
Definition defaultSettings : Settings :=
  {| fpsMin := 10; fpsMax := 60; qualityMin := 30; qualityMax := 100;
     scrollSensitivity := 1; threeFingerScrollSensitivity := 1;
     detectionInterval := 2000;
     targetWindowTitles := "Cursor|Antigravity|Windsurf";
     showDebugLines := true; autoActivateWindow := true |}.

Definition defaultManager : Manager :=
  {| settings := defaultSettings; mstore := defaultStore |}.

(** *** Notions used in the statements *)

Definition within (lo hi v : Q) : Prop := (lo <= v)%Q /\ (v <= hi)%Q.

(** Every setting lies within its bounds. *)
Definition sane (m : Manager) : Prop :=
  let s := settings m in
  let g := global (mstore m) in
  within (fpsMin s) (fpsMax s) (fps g)
  /\ within (qualityMin s) (qualityMax s) (quality g)
  /\ within (1 # 10) 5 (scrollSensitivity s)
  /\ within (3 # 10) 3 (threeFingerScrollSensitivity s)
  /\ within 500 10000 (detectionInterval s)
  /\ ((0 <= x (screenConfig g))%Q /\ (0 <= y (screenConfig g))%Q
      /\ (100 <= width (screenConfig g))%Q /\ (100 <= height (screenConfig g))%Q)
  /\ (forall crop, crop = chatCrop g \/ crop = terminalCrop g ->
        (0 <= top crop)%Q /\ (0 <= bottom crop)%Q
        /\ (0 <= left crop)%Q /\ (0 <= right crop)%Q)
  /\ (forall socketId config, clients (mstore m) !! socketId = Some config ->
        (forall v, c_fps config = Some v -> within (fpsMin s) (fpsMax s) v)
        /\ (forall v, c_quality config = Some v ->
              within (qualityMin s) (qualityMax s) v)).

(** The bounds of the defaults, with low-resource mode off. *)
Definition bounded (m : Manager) : Prop :=
  fpsMin (settings m) = 10%Q /\ fpsMax (settings m) = 60%Q
  /\ qualityMin (settings m) = 30%Q /\ qualityMax (settings m) = 100%Q
  /\ lowResourceMode (global (mstore m)) = false.

Definition fpsOverride (v : option Q) : ClientUpdates :=
  {| cu_fps := Some v; cu_quality := None; cu_detectionMode := None |}.

End ConfigUpdate.

(** ** window-detector.js *)

Module WindowDetector.
Export WindowDetectorWorker.

Section Detector.

Variable parseInt : string -> option Z.

(** The ['close'] handler of [findWindowBounds] and of
    [findWindowBoundsByHandle]: what the promise resolves with, given
    the exit code of the PowerShell process ([None]: it was killed by a
    signal) and the text it wrote. *)
Definition onClose (code : option Z) (output : string) : option Bounds :=
  match code with
  | Some 0 =>
      if (trim output =? "")%string then None
      else match split "," (trim output) with
           | [p0; p1; p2; p3] =>
               Some {| x := parseInt p0; y := parseInt p1;
                       width := parseInt p2; height := parseInt p3 |}
           | _ => None
           end
  | _ => None
  end.

End Detector.

(** *** Notions used in the statements *)

(** [pieces.join(sep)]. *)
Fixpoint join (sep : ascii) (pieces : list string) : string :=
  match pieces with
  | [] => EmptyString
  | [piece] => piece
  | piece :: rest => (piece ++ String sep (join sep rest))%string
  end.

(** The text holds no [sep]. *)
Fixpoint free (sep : ascii) (s : string) : Prop :=
  match s with
  | EmptyString => True
  | String c rest => c <> sep /\ free sep rest
  end.

(** A [parseInt] that reads nothing. *)
Definition noInt : string -> option Z := fun _ => None.

(** The worker after its helper has reported ready at time 0. *)
Definition readyWorker : State :=
  run noInt (create 0) [Data (endLine "WORKER_READY")].

End WindowDetector.

(** ** index.js: the socket handlers around the event loop *)

Module Server.
Import JS.
Export ConfigUpdate.

(** *** config:update *)

(** The payload of [config:update].  A key of the region ([x], [y],
    [width], [height]) or of the crop is missing ([None]) or a number; any
    other key is missing or [null] ([None]) or holds a value of the type
    the key asks for.  The keys [console] and [lowResourceMode] are left
    out: the first changes the console settings only, the second is
    dropped by [updateGlobalConfig]. *)
Record NewConfig := {
  n_x : option Q;
  n_y : option Q;
  n_width : option Q;
  n_height : option Q;
  n_cropTop : option Q;
  n_cropBottom : option Q;
  n_cropLeft : option Q;
  n_cropRight : option Q;
  n_fps : option Q;
  n_quality : option Q;
  n_scrollSensitivity : option Q;
  n_threeFingerScrollSensitivity : option Q;
  n_showDebugLines : option bool;
  n_windowTitles : option string;
  n_autoActivateWindow : option bool;
  n_detectionMode : option string
}.

(** [v !== undefined], and the truth value of a number that may be
    missing. *)
Definition present {A : Type} (v : option A) : bool :=
  match v with Some _ => true | None => false end.

Definition truthyNumber (v : option Q) : bool :=
  match v with Some q => negb (Qeq_bool q 0) | None => false end.

Definition regionKeys (n : NewConfig) : bool :=
  present (n_x n) || present (n_y n) || present (n_width n) || present (n_height n).

Definition cropKeys (n : NewConfig) : bool :=
  present (n_cropTop n) || present (n_cropBottom n) || present (n_cropLeft n)
  || present (n_cropRight n).

Definition simpleKeys (n : NewConfig) : bool :=
  present (n_fps n) || present (n_quality n) || present (n_scrollSensitivity n)
  || present (n_threeFingerScrollSensitivity n) || present (n_showDebugLines n)
  || present (n_windowTitles n) || present (n_autoActivateWindow n)
  || present (n_detectionMode n).

(** [{ ...screenConfig, ...newConfig }] on the four keys that count. *)
Definition regionUpdate (screenConfig : Rect) (n : NewConfig) : RectUpdate :=
  {| u_x := Some (default (x screenConfig) (n_x n));
     u_y := Some (default (y screenConfig) (n_y n));
     u_width := Some (default (width screenConfig) (n_width n));
     u_height := Some (default (height screenConfig) (n_height n)) |}.

Definition cropUpdate (activeCrop : Crop) (n : NewConfig) : CropUpdate :=
  {| u_top := Some (default (top activeCrop) (n_cropTop n));
     u_bottom := Some (default (bottom activeCrop) (n_cropBottom n));
     u_left := Some (default (left activeCrop) (n_cropLeft n));
     u_right := Some (default (right activeCrop) (n_cropRight n)) |}.

(** The object [globalUpdates] that the handler builds for the client in
    view mode [viewMode]. *)
Definition globalUpdates (g : GlobalConfig) (viewMode : string) (n : NewConfig)
    : GlobalUpdates :=
  let chat := (viewMode =? "chat")%string in
  {| g_screenConfig :=
       if regionKeys n then Some (regionUpdate (screenConfig g) n) else None;
     g_chatCrop :=
       if cropKeys n && chat then Some (cropUpdate (chatCrop g) n) else None;
     g_terminalCrop :=
       if cropKeys n && negb chat then Some (cropUpdate (terminalCrop g) n)
       else None;
     g_fps := n_fps n;
     g_quality := n_quality n;
     g_scrollSensitivity := n_scrollSensitivity n;
     g_threeFingerScrollSensitivity := n_threeFingerScrollSensitivity n;
     g_detectionInterval := None;
     g_targetWindowTitles := n_windowTitles n;
     g_detectionMode := n_detectionMode n;
     g_showDebugLines := n_showDebugLines n;
     g_autoActivateWindow := n_autoActivateWindow n |}.

(** *** The server *)

(** The event loop of [StreamEngine] together with the configuration
    manager.  [saving] holds the [config:update] handlers that wait at
    [await configManager.updateGlobalConfig(...)], each with the value of
    [newConfig.fps || newConfig.quality]. *)
Record State := {
  world : World;
  limits : Settings;
  saving : list bool
}.

Definition set_world (w : World) (sv : State) : State :=
  {| world := w; limits := limits sv; saving := saving sv |}.

Definition set_store (st : Store) (w : World) : World :=
  {| engine := engine w; store := st; out := out w;
     suspended := suspended w; captures := captures w |}.

Definition set_scrollAccumulatorY (acc : Q) (s : ClientState) : ClientState :=
  {| socketId := socketId s; viewMode := viewMode s; lastActivity := lastActivity s;
     isActive := isActive s; calibrationMode := calibrationMode s;
     calibrationStartTime := calibrationStartTime s; frameCount := frameCount s;
     lastPaneX := lastPaneX s; stablePaneX := stablePaneX s;
     lastPaneY := lastPaneY s; stablePaneY := stablePaneY s;
     stablePaneW := stablePaneW s; stablePaneH := stablePaneH s;
     stabilityCount := stabilityCount s; detectedWindow := detectedWindow s;
     lastCaptureArea := lastCaptureArea s; fixedChatZone := fixedChatZone s;
     fixedTerminalZone := fixedTerminalZone s; lastClickPos := lastClickPos s;
     scrollAccumulatorY := acc;
     streamSource := streamSource s |}.

(** What [input:scroll] does to the state of its client.  The handler
    adds and subtracts in IEEE doubles, which are not modelled: the event
    brings the value that the handler leaves in [state.scrollAccumulatorY]
    when it accumulates ([None]: a payload without numeric [deltaY], or a
    direct scroll, which leaves the accumulator alone). *)
Definition inputScrollState (now : Z) (accumulator : option Q) (s : ClientState)
    : ClientState :=
  let s0 := updateActivity now s in
  match accumulator, lastCaptureArea s0 with
  | Some acc, Some _ => set_scrollAccumulatorY acc s0
  | _, _ => s0
  end.

Inductive Event :=
| Loop (ev : StreamEngine.Event)   (* the timers and the handlers of [Index] *)
| Activity (id : string) (now : Z) (* a handler that only calls updateActivity *)
| InputClick (id : string) (env : ClickEnv) (now : Z) (pos : option (Q * Q))
| InputScroll (id : string) (now : Z) (accumulator : option Q)
| UpdateConfig (id : string) (now : Z) (newConfig : NewConfig) (* config:update *)
| ConfigSaved.                     (* a waiting config:update handler goes on *)

(** The [config:update] handler up to its [await]: the global
    configuration is replaced before [saveConfig] is awaited. *)
Definition configUpdate (id : string) (now : Z) (n : NewConfig) (sv : State)
    : State :=
  let w0 := onClient id (updateActivity now) (world sv) in
  match getClientState (o_clients (out w0)) id with
  | None => set_world w0 sv
  | Some state =>
      let w1 := if regionKeys n
                then onClient id (fun s => set_windows None (lastCaptureArea s) s) w0
                else w0 in
      if regionKeys n || cropKeys n || simpleKeys n
      then
        let m := updateGlobalConfig
                   (globalUpdates (global (store w1)) (viewMode state) n)
                   {| settings := limits sv; mstore := store w1 |} in
        {| world := set_store (mstore m) w1;
           limits := settings m;
           saving := saving sv ++ [truthyNumber (n_fps n) || truthyNumber (n_quality n)] |}
      else set_world w1 sv
  end.

(** The rest of the handler: [streamEngine.updateInterval()] when the
    payload had a frame rate or a quality. *)
Definition configSaved (sv : State) : State :=
  match saving sv with
  | [] => sv
  | refresh :: rest =>
      {| world := if refresh then refreshInterval (world sv) else world sv;
         limits := limits sv;
         saving := rest |}
  end.

Definition step (sv : State) (ev : Event) : State :=
  match ev with
  | Loop ev => set_world (Index.step (world sv) ev) sv
  | Activity id now => set_world (onClient id (updateActivity now) (world sv)) sv
  | InputClick id env now pos =>
      set_world
        (onClient id (fun s => fst (inputClick (store (world sv)) env now pos s))
                  (world sv)) sv
  | InputScroll id now accumulator =>
      set_world (onClient id (inputScrollState now accumulator) (world sv)) sv
  | UpdateConfig id now newConfig => configUpdate id now newConfig sv
  | ConfigSaved => configSaved sv
  end.

Definition run (sv : State) (events : list Event) : State :=
  fold_left step events sv.

(** *** Notions used in the statements *)



(** The server in which client "a" is locked. *)
Definition lockedServer : State :=
  {| world := lockedWorld; limits := defaultSettings; saving := [] |}.

Definition noConfig : NewConfig :=
  {| n_x := None; n_y := None; n_width := None; n_height := None;
     n_cropTop := None; n_cropBottom := None; n_cropLeft := None;
     n_cropRight := None; n_fps := None; n_quality := None;
     n_scrollSensitivity := None; n_threeFingerScrollSensitivity := None;
     n_showDebugLines := None; n_windowTitles := None;
     n_autoActivateWindow := None; n_detectionMode := None |}.


Definition goDynamic : NewConfig :=
  {| n_x := None; n_y := None; n_width := None; n_height := None;
     n_cropTop := None; n_cropBottom := None; n_cropLeft := None;
     n_cropRight := None; n_fps := None; n_quality := None;
     n_scrollSensitivity := None; n_threeFingerScrollSensitivity := None;
     n_showDebugLines := None; n_windowTitles := None;
     n_autoActivateWindow := None; n_detectionMode := Some "dynamic"%string |}.

Definition tick (px : Q) : list Event :=
  [Loop TimerFire; Loop (TickResume (tickSeeing px))].



(** A second client connects and asks for dynamic detection, and six
    ticks follow. *)
Definition modeChange : list Event :=
  Loop (Connect "b" 5000) :: UpdateConfig "b" 5100 goDynamic
  :: tick 300 ++ tick 300 ++ tick 300 ++ tick 300 ++ tick 300 ++ tick 300.

End Server.

(** * Properties *)

Module JSFacts.
Import JS.

Lemma Qlt_bool_iff (a b : Q) : Qlt_bool a b = true <-> (a < b)%Q.
Proof.
  unfold Qlt_bool. rewrite negb_true_iff.
  split.
  - intros H. apply Qnot_le_lt. intros Hle.
    apply Qle_bool_iff in Hle. congruence.
  - intros H. destruct (Qle_bool b a) eqn:E; [|reflexivity].
    apply Qle_bool_iff in E. exfalso. apply (Qlt_not_le _ _ H E).
Qed.

Lemma Qlt_bool_false (a b : Q) : Qlt_bool a b = false <-> (b <= a)%Q.
Proof.
  unfold Qlt_bool. rewrite negb_false_iff. apply Qle_bool_iff.
Qed.

Lemma Qgt_bool_iff (a b : Q) : Qgt_bool a b = true <-> (b < a)%Q.
Proof. apply Qlt_bool_iff. Qed.

Lemma Qgt_bool_false (a b : Q) : Qgt_bool a b = false <-> (a <= b)%Q.
Proof. apply Qlt_bool_false. Qed.

Lemma Qge_bool_false (a b : Q) : Qge_bool a b = false <-> (a < b)%Q.
Proof.
  unfold Qge_bool. split.
  - intros H. apply Qnot_le_lt. intros Hle. apply Qle_bool_iff in Hle. congruence.
  - intros H. destruct (Qle_bool b a) eqn:E; [|reflexivity].
    apply Qle_bool_iff in E. exfalso. apply (Qlt_not_le _ _ H E).
Qed.
End JSFacts.

Module PaneDetectorFacts.
Import JS JSFacts PaneDetector.

(** *** The loops of the edge scan *)

(** The position after the last one visited fails the loop test: the
    scan stops because it is over, not for lack of fuel. *)
Lemma countDown_complete (fuel : nat) :
  forall p stop,
    (p - stop <= inject_Z (Z.of_nat fuel))%Q ->
    (p - inject_Z (Z.of_nat (List.length (countDown fuel p stop))) <= stop)%Q.
Proof.
  induction fuel as [|fuel IH]; intros p stop Hfuel.
  - cbn [countDown List.length]. change (inject_Z (Z.of_nat 0)) with 0%Q in *. lra.
  - cbn [countDown]. destruct (Qgt_bool p stop) eqn:E.
    + cbn [List.length]. rewrite Nat2Z.inj_succ in *. unfold Z.succ in *.
      rewrite inject_Z_plus in *. change (inject_Z 1) with 1%Q in *.
      assert (H : (p - 1 - stop <= inject_Z (Z.of_nat fuel))%Q) by lra.
      specialize (IH (p - 1)%Q stop H). lra.
    + apply Qgt_bool_false in E. cbn [List.length].
      change (inject_Z (Z.of_nat 0)) with 0%Q. lra.
Qed.

Lemma scanPositions_complete (start stop : Q) :
  (start - inject_Z (Z.of_nat (List.length (scanPositions start stop))) <= stop)%Q.
Proof.
  unfold scanPositions. apply countDown_complete.
  eapply Qle_trans; [apply Qle_ceiling|].
  rewrite <- Zle_Qle. lia.
Qed.

Lemma sampleLoop_no_hit (hit : Q -> bool) (Hhit : forall q, hit q = false) :
  forall fuel q limit step c t r,
    sampleLoop hit fuel q limit step c t = Some r -> fst r = c.
Proof.
  induction fuel as [|fuel IH]; intros q limit step c t r; simpl.
  - destruct (Qlt_bool q limit); [discriminate|].
    intros [= <-]. reflexivity.
  - destruct (Qlt_bool q limit).
    + rewrite Hhit. apply IH.
    + intros [= <-]. reflexivity.
Qed.

Lemma sampleLoop_returns (hit : Q -> bool) :
  forall fuel q limit step c t,
    (0 < step)%Q ->
    (limit - q <= inject_Z (Z.of_nat fuel) * step)%Q ->
    exists r, sampleLoop hit fuel q limit step c t = Some r.
Proof.
  induction fuel as [|fuel IH]; intros q limit step c t Hstep Hfuel; simpl.
  - destruct (Qlt_bool q limit) eqn:E; [|eauto].
    apply Qlt_bool_iff in E. change (inject_Z (Z.of_nat 0)) with 0%Q in Hfuel.
    exfalso. lra.
  - destruct (Qlt_bool q limit) eqn:E; [|eauto].
    apply IH; [assumption|].
    rewrite Nat2Z.inj_succ in Hfuel. unfold Z.succ in Hfuel.
    rewrite inject_Z_plus in Hfuel.
    change (inject_Z 1) with 1%Q in Hfuel.
    set (n := inject_Z (Z.of_nat fuel)) in *.
    assert (Hd : ((n + 1) * step == n * step + step)%Q) by ring.
    rewrite Hd in Hfuel. lra.
Qed.

Lemma sampleFuel_enough (from limit step : Q) :
  (0 < step)%Q ->
  (limit - from <= inject_Z (Z.of_nat (sampleFuel from limit step)) * step)%Q.
Proof.
  intros Hstep. unfold sampleFuel.
  assert (E : Qlt_bool 0 step = true) by (apply Qlt_bool_iff; assumption).
  rewrite E.
  set (d := ((limit - from) / step)%Q).
  assert (Hd : (d * step == limit - from)%Q).
  { unfold d. field. intros H0. rewrite H0 in Hstep. apply (Qlt_irrefl 0 Hstep). }
  assert (Hc : (d <= inject_Z (Z.of_nat (Z.to_nat (Qceiling d))))%Q).
  { eapply Qle_trans; [apply Qle_ceiling|].
    rewrite <- Zle_Qle. lia. }
  rewrite <- Hd. apply Qmult_le_compat_r; [assumption|]. apply Qlt_le_weak. assumption.
Qed.

Lemma samples_no_hit (hit : Q -> bool) (from limit step : Q) :
  (forall q, hit q = false) -> (0 < step)%Q ->
  exists t, samples hit from limit step = Some (0, t).
Proof.
  intros Hhit Hstep. unfold samples.
  destruct (sampleLoop_returns hit (sampleFuel from limit step) from limit step 0 0
              Hstep (sampleFuel_enough from limit step Hstep)) as [[c t] Hr].
  pose proof (sampleLoop_no_hit hit Hhit _ _ _ _ _ _ _ Hr) as Hc.
  simpl in Hc. subst c. eauto.
Qed.

Lemma scoreOf_no_hit (t : Z) (minScore : Q) :
  (0 < minScore)%Q -> Qge_bool (scoreOf (0, t)) minScore = false.
Proof.
  intros Hmin. apply Qge_bool_false. unfold scoreOf. simpl.
  destruct (0 <? t); [|assumption].
  assert (E : (inject_Z 0 / inject_Z t == 0)%Q) by (unfold Qdiv; apply Qmult_0_l).
  rewrite E. assumption.
Qed.

Lemma scan_no_hit (sampleAt : Q -> option (Z * Z)) (minScore : Q) :
  (0 < minScore)%Q ->
  (forall p, exists t, sampleAt p = Some (0, t)) ->
  forall positions, scan sampleAt minScore positions = Some [].
Proof.
  intros Hmin Hs. induction positions as [|p rest IH]; simpl; [reflexivity|].
  destruct (Hs p) as [t ->]. rewrite IH.
  rewrite scoreOf_no_hit by assumption. reflexivity.
Qed.

Lemma verticalHit_no_contrast image threshold x y :
  noContrast image threshold -> verticalHit image threshold x y = false.
Proof.
  intros H. unfold verticalHit. apply Qgt_bool_false. apply H.
Qed.

Lemma horizontalHit_no_contrast image threshold y x :
  noContrast image threshold -> horizontalHit image threshold y x = false.
Proof.
  intros H. unfold horizontalHit. apply Qgt_bool_false. apply H.
Qed.




(** *** The stable sort *)

Lemma insert_sorted_perm {A} (cmp : A -> A -> Q) (a : A) (l : list A) :
  Permutation (insert_sorted cmp a l) (a :: l).
Proof.
  induction l as [|b l IH]; simpl; [reflexivity|].
  destruct (Qlt_bool 0 (cmp a b)); [|reflexivity].
  rewrite IH. apply perm_swap.
Qed.

Lemma sort_perm {A} (cmp : A -> A -> Q) (l : list A) :
  Permutation (sort cmp l) l.
Proof.
  induction l as [|a l IH]; simpl; [reflexivity|].
  unfold sort in IH. rewrite insert_sorted_perm. rewrite IH. reflexivity.
Qed.

Lemma lowerFirst_trans (e1 e2 e3 : Edge) :
  lowerFirst e1 e2 -> lowerFirst e2 e3 -> lowerFirst e1 e3.
Proof. unfold lowerFirst. intros H1 H2. eapply Qle_trans; eassumption. Qed.

Lemma insert_sorted_lowerFirst (a : Edge) (l : list Edge) :
  StronglySorted lowerFirst l ->
  StronglySorted lowerFirst (insert_sorted byPosDescending a l).
Proof.
  induction l as [|b l IH]; intros Hs; simpl.
  - constructor; constructor.
  - inversion Hs as [|? ? Hl Hb]; subst.
    destruct (Qlt_bool 0 (byPosDescending a b)) eqn:E.
    + apply Qlt_bool_iff in E. unfold byPosDescending in E.
      constructor; [apply IH; assumption|].
      rewrite List.Forall_forall. intros e He.
      apply (Permutation_in _ (insert_sorted_perm byPosDescending a l)) in He.
      destruct He as [<-|He].
      * unfold lowerFirst. lra.
      * rewrite List.Forall_forall in Hb. apply Hb. assumption.
    + apply Qlt_bool_false in E. unfold byPosDescending in E.
      assert (Hab : lowerFirst a b) by (unfold lowerFirst; lra).
      constructor; [assumption|].
      constructor; [assumption|].
      rewrite List.Forall_forall in Hb |- *. intros e He.
      eapply lowerFirst_trans; [exact Hab|]. apply Hb. assumption.
Qed.

Lemma sort_lowerFirst (l : list Edge) :
  StronglySorted lowerFirst (sort byPosDescending l).
Proof.
  induction l as [|a l IH]; simpl; [constructor|].
  apply insert_sorted_lowerFirst. exact IH.
Qed.

Lemma Qabs_below (p q bound : Q) :
  (q <= p)%Q -> (Qabs (q - p) < bound)%Q <-> (p - q < bound)%Q.
Proof.
  intros Hle. rewrite Qabs_Qlt_condition. split.
  - intros [H1 H2]. lra.
  - intros H. split; lra.
Qed.

Lemma walkUp_In (first : Edge) (rest : list Edge) :
  forall prev top, In (walkUp first prev top rest) (top :: rest).
Proof.
  induction rest as [|c rest IH]; intros prev top; cbn [walkUp].
  - left. reflexivity.
  - destruct (Qlt_bool (Qabs (pos c - pos prev)) 100).
    + right. apply IH.
    + destruct (Qgt_bool (pos first - pos prev) 80); [left; reflexivity|].
      right. apply IH.
Qed.

(** The top separator lies below 30% of the height: a pane found in an
    image of positive height has a positive [y]. *)
Lemma terminalSlice_top (h : Z) (horizontalEdges : list Edge) (s : Slice) :
  terminalSlice h horizontalEdges = Some s ->
  (inject_Z h * (30 # 100) < topSeparatorY s)%Q.
Proof.
  unfold terminalSlice. destruct horizontalEdges as [|e0 es]; [discriminate|].
  set (hs := e0 :: es).
  destruct (selectTop (topCandidates h hs)) as [topSeparator|] eqn:Et; [|discriminate].
  destruct (Qlt_bool _ 120); [discriminate|].
  intros [= <-]. cbn [topSeparatorY].
  unfold selectTop in Et. destruct (topCandidates h hs) as [|c0 rest] eqn:Ec;
    [discriminate|].
  injection Et as <-.
  pose proof (walkUp_In c0 rest c0 c0) as Hin. rewrite <- Ec in Hin.
  unfold topCandidates in Hin.
  apply (Permutation_in _ (sort_perm byPosDescending _)) in Hin.
  apply filter_In in Hin. destruct Hin as (_ & Hrange).
  apply andb_true_iff in Hrange. destruct Hrange as (Hlow & _).
  apply Qgt_bool_iff in Hlow. exact Hlow.
Qed.

(** C4, as the code has it. When [findTerminalPane] keeps a slice, its
    bottom separator is chosen among the candidates more than 100px below
    the top separator and more than 5px above the image bottom, taken from
    the bottom up: the lowest one, unless it lies less than 25px above the
    image bottom and the next one up is less than 45px above it, in which
    case the next one up; without such a candidate it is 25px above the
    image bottom.  The slice is at least 120px high. *)
Theorem terminalSlice_bottom (h : Z) (horizontalEdges : list Edge) (s : Slice) :
  terminalSlice h horizontalEdges = Some s ->
  exists below : list Edge,
    Permutation below
      (List.filter (inBottomRange h (topSeparatorY s)) horizontalEdges)
    /\ StronglySorted lowerFirst below
    /\ (below = [] -> bottomSeparatorY s = (inject_Z h - 25)%Q)
    /\ (forall b0 rest, below = b0 :: rest ->
          (25 <= inject_Z h - pos b0)%Q \/ rest = []
          \/ (exists b1 rest', rest = b1 :: rest' /\ (45 <= pos b0 - pos b1)%Q) ->
          bottomSeparatorY s = pos b0)
    /\ (forall b0 b1 rest, below = b0 :: b1 :: rest ->
          (inject_Z h - pos b0 < 25)%Q -> (pos b0 - pos b1 < 45)%Q ->
          bottomSeparatorY s = pos b1)
    /\ (120 <= bottomSeparatorY s - topSeparatorY s)%Q.
Proof.
  unfold terminalSlice. destruct horizontalEdges as [|e0 es]; [discriminate|].
  set (hs := e0 :: es).
  destruct (selectTop (topCandidates h hs)) as [topSeparator|]; [|discriminate].
  set (below := bottomCandidates h (pos topSeparator) hs).
  destruct (Qlt_bool (selectBottomY h below - pos topSeparator) 120) eqn:Eh;
    [discriminate|].
  intros [= <-]. cbn [bottomSeparatorY topSeparatorY].
  apply Qlt_bool_false in Eh.
  assert (Hsorted : StronglySorted lowerFirst below) by apply sort_lowerFirst.
  assert (Hperm : Permutation below
                    (List.filter (inBottomRange h (pos topSeparator)) hs))
    by apply sort_perm.
  clearbody below.
  exists below. repeat split.
  - exact Hperm.
  - exact Hsorted.
  - intros ->. reflexivity.
  - intros b0 rest -> Hcase. cbn [selectBottomY].
    destruct rest as [|b1 rest']; [reflexivity|].
    assert (Hle : (pos b1 <= pos b0)%Q).
    { inversion Hsorted as [|? ? _ Hall]; subst.
      inversion Hall; subst. assumption. }
    destruct Hcase as [Hfar|[Hnil|(b1' & r' & Heq & Hgap)]].
    + assert (E : Qlt_bool (inject_Z h - pos b0) 25 = false)
        by (apply Qlt_bool_false; assumption).
      rewrite E. reflexivity.
    + discriminate.
    + injection Heq as <- <-.
      assert (E : Qlt_bool (Qabs (pos b1 - pos b0)) 45 = false).
      { apply Qlt_bool_false. apply Qnot_lt_le. intros Habs.
        apply (Qabs_below _ _ _ Hle) in Habs. lra. }
      rewrite E, andb_false_r. reflexivity.
  - intros b0 b1 rest -> Hnear Hgap. cbn [selectBottomY].
    assert (Hle : (pos b1 <= pos b0)%Q).
    { inversion Hsorted as [|? ? _ Hall]; subst.
      inversion Hall; subst. assumption. }
    assert (E1 : Qlt_bool (inject_Z h - pos b0) 25 = true)
      by (apply Qlt_bool_iff; assumption).
    assert (E2 : Qlt_bool (Qabs (pos b1 - pos b0)) 45 = true).
    { apply Qlt_bool_iff. apply (Qabs_below _ _ _ Hle). assumption. }
    rewrite E1, E2. reflexivity.
  - exact Eh.
Qed.

(** The witness of C4: with the image bottom at 870 the candidate at 850
    is 20px above it and the one at 820 is chosen. *)
Lemma terminalSlice_bottom_witness :
  exists below : list Edge,
    Permutation below
      (List.filter (inBottomRange 870 700) scenarioEdges)
    /\ StronglySorted lowerFirst below
    /\ (below = [] -> (820 : Q) = (inject_Z 870 - 25)%Q)
    /\ (forall b0 rest, below = b0 :: rest ->
          (25 <= inject_Z 870 - pos b0)%Q \/ rest = []
          \/ (exists b1 rest', rest = b1 :: rest' /\ (45 <= pos b0 - pos b1)%Q) ->
          (820 : Q) = pos b0)
    /\ (forall b0 b1 rest, below = b0 :: b1 :: rest ->
          (inject_Z 870 - pos b0 < 25)%Q -> (pos b0 - pos b1 < 45)%Q ->
          (820 : Q) = pos b1)
    /\ (120 <= 820 - 700)%Q.
Proof.
  apply (terminalSlice_bottom 870 scenarioEdges
           {| topSeparatorY := 700; bottomSeparatorY := 820 |}).
  vm_compute. reflexivity.
Defined.

(** C4, the scenario of the claim: on a 1200x900 snapshot the candidate at
    y=850 is 50px above the image bottom, and the bottom separator is
    y=850, not y=820. *)
Lemma terminalSlice_scenario_900 :
  exists s, terminalSlice 900 scenarioEdges = Some s
            /\ (bottomSeparatorY s == 850)%Q
            /\ ~ (bottomSeparatorY s == 820)%Q.
Proof.
  exists {| topSeparatorY := 700; bottomSeparatorY := 850 |}.
  split; [vm_compute; reflexivity|].
  split; [reflexivity|]. simpl. intros H. discriminate H.
Qed.
End PaneDetectorFacts.

Module StreamEngineFacts.
Import JS JSFacts StreamEngine.

(** *** The clip step *)

(** C10, at a window beyond the right edge of the snapshot: the rectangle
    handed to the crop has a negative width. *)
Lemma cropRectangle_beyond_right_edge :
  cropRectangle (Some {| x := 2000; y := 0; width := 800; height := 600 |})
                (screenConfig defaultGlobal) 1920 1080 1920 1080
  = {| baseX := 2000; baseY := 0; baseW := -80; baseH := 600 |}.
Proof. vm_compute. reflexivity. Qed.

(** When the base rectangle starts inside the snapshot (or left of it, or
    above it) and has a positive size, the clipped rectangle lies within
    the snapshot. *)
Lemma clip_within (screenWidth screenHeight : Z) (b : Base) :
  baseX b < screenWidth -> baseY b < screenHeight ->
  0 < screenWidth -> 0 < screenHeight ->
  0 < baseW b -> 0 < baseH b ->
  let c := clip screenWidth screenHeight b in
  0 <= baseX c /\ 0 <= baseY c /\ 0 < baseW c /\ 0 < baseH c
  /\ baseX c + baseW c <= screenWidth /\ baseY c + baseH c <= screenHeight.
Proof.
  intros Hx Hy Hw Hh Hbw Hbh. unfold clip. simpl.
  destruct (baseX b <? 0) eqn:Ex; destruct (baseY b <? 0) eqn:Ey;
    repeat match goal with
           | |- context [?a <? ?b] => destruct (Z.ltb_spec a b)
           end;
    try apply Z.ltb_lt in Ex; try apply Z.ltb_ge in Ex;
    try apply Z.ltb_lt in Ey; try apply Z.ltb_ge in Ey; lia.
Qed.

(** *** updateInterval *)

Lemma Math_max_cases (a b : Q) :
  (Math_max a b = a /\ (b <= a)%Q) \/ (Math_max a b = b /\ (a < b)%Q).
Proof.
  unfold Math_max. destruct (Qlt_bool a b) eqn:E.
  - right. split; [reflexivity|]. apply Qlt_bool_iff. assumption.
  - left. split; [reflexivity|]. apply Qlt_bool_false. assumption.
Qed.

Lemma maxOf_bounds (others : list Q) :
  forall first,
    (first <= maxOf first others)%Q
    /\ (forall v, In v others -> (v <= maxOf first others)%Q)
    /\ (maxOf first others = first \/ In (maxOf first others) others).
Proof.
  unfold maxOf. induction others as [|v others IH]; intros first; simpl.
  - split; [apply Qle_refl|]. split; [intros v []|]. left. reflexivity.
  - destruct (IH (Math_max first v)) as (H1 & H2 & H3).
    destruct (Math_max_cases first v) as [[E Hle]|[E Hlt]]; rewrite E in *.
    + split; [assumption|]. split.
      * intros u [<-|Hu]; [eapply Qle_trans; eassumption|]. apply H2. assumption.
      * destruct H3 as [H3|H3]; [left; assumption|right; right; assumption].
    + split; [eapply Qle_trans; [apply Qlt_le_weak; eassumption|assumption]|].
      split.
      * intros u [<-|Hu]; [assumption|]. apply H2. assumption.
      * destruct H3 as [H3|H3]; [right; left; symmetry; assumption
                                |right; right; assumption].
Qed.


End StreamEngineFacts.

Module DetectionFacts.
Import JS JSFacts StreamEngine.

(** *** The prologue of performPaneDetection *)

Lemma beginDetection_keeps (cenv : ClientEnv) (s : ClientState) :
  let s1 := beginDetection cenv s in
  socketId s1 = socketId s /\ viewMode s1 = viewMode s
  /\ lastPaneX s1 = lastPaneX s /\ stablePaneX s1 = stablePaneX s
  /\ lastPaneY s1 = lastPaneY s /\ stablePaneY s1 = stablePaneY s
  /\ stabilityCount s1 = stabilityCount s
  /\ fixedChatZone s1 = fixedChatZone s
  /\ fixedTerminalZone s1 = fixedTerminalZone s
  /\ (calibrationMode s = false -> calibrationMode s1 = false).
Proof.
  unfold beginDetection.
  destruct (calibrationMode s && isNull (calibrationStartTime s)) eqn:E1; cbn;
    match goal with
    | |- context [if ?c then _ else _] => destruct c eqn:E2
    end; cbn; repeat split; try reflexivity; intros Hc; rewrite Hc in *;
    try discriminate; try reflexivity.
Qed.

Lemma fixedMode_same (store : Store) (s s' : ClientState) :
  socketId s' = socketId s -> fixedMode store s' = fixedMode store s.
Proof.
  intros H. unfold fixedMode, getEffectiveConfigOf, getEffectiveConfig. cbn.
  rewrite H. reflexivity.
Qed.

(** *** The chat branch *)

Lemma detection_chat_runs (store : Store) (p : Rect) (t1 t2 : Z) (s : ClientState) :
  viewMode s = "chat" -> (stablePaneX s == -1)%Q ->
  performPaneDetection store (seeing p t1 t2) s
  = returned (observeChat (fixedMode store s) p
                          (beginDetection (seeing p t1 t2) s)) 1.
Proof.
  intros Hmode Hstable. unfold performPaneDetection.
  destruct (beginDetection_keeps (seeing p t1 t2) s)
    as (Hid & Hv & _ & Hsx & _ & _ & _ & _ & _ & _).
  set (s1 := beginDetection (seeing p t1 t2) s) in *.
  rewrite (fixedMode_same store s s1 Hid).
  assert (Hchat : isChat s1 = true) by (unfold isChat; rewrite Hv, Hmode; reflexivity).
  assert (Hterm : isTerminal s1 = false)
    by (unfold isTerminal; rewrite Hv, Hmode; reflexivity).
  assert (Hgt : Qgt_bool (stablePaneX s1) 0 = false).
  { apply Qgt_bool_false. rewrite Hsx, Hstable. discriminate. }
  assert (Heq : Qeq_bool (stablePaneX s1) (-1) = true).
  { apply Qeq_bool_iff. rewrite Hsx. assumption. }
  unfold fastExit, shouldRunDetection.
  rewrite Hchat, Hterm, Hgt, Heq. cbn [andb orb negb].
  rewrite !andb_false_r. rewrite !orb_true_r. cbn [negb seeing throws located].
  reflexivity.
Qed.

Lemma observeChat_outlier (f : bool) (p : Rect) (s : ClientState) :
  (5 <= Qabs (x p - lastPaneX s))%Q ->
  observeChat f p s = set_last (x p) (lastPaneY s) 0 s.
Proof.
  intros H. unfold observeChat.
  apply Qlt_bool_false in H. rewrite H. reflexivity.
Qed.

Lemma observeChat_agree (f : bool) (p : Rect) (s : ClientState) :
  (Qabs (x p - lastPaneX s) < 5)%Q -> stabilityCount s + 1 < 3 ->
  observeChat f p s = set_last (lastPaneX s) (lastPaneY s) (stabilityCount s + 1) s.
Proof.
  intros H Hn. unfold observeChat.
  apply Qlt_bool_iff in H. rewrite H. cbn [stabilityCount set_last].
  apply Z.leb_gt in Hn. rewrite Hn. reflexivity.
Qed.

Lemma observeChat_commit (f : bool) (p : Rect) (s : ClientState) :
  (Qabs (x p - lastPaneX s) < 5)%Q -> 3 <= stabilityCount s + 1 ->
  let s' := observeChat f p s in
  stablePaneX s' = lastPaneX s /\ lastPaneX s' = lastPaneX s
  /\ stabilityCount s' = stabilityCount s + 1
  /\ viewMode s' = viewMode s
  /\ (f = true -> fixedChatZone s' = Some (lastPaneX s)
                  /\ calibrationMode s' = false).
Proof.
  intros H Hn. unfold observeChat.
  apply Qlt_bool_iff in H. rewrite H. cbn [stabilityCount set_last].
  apply Z.leb_le in Hn. rewrite Hn.
  destruct f; cbn; repeat split; try reflexivity; intros; discriminate.
Qed.

(** What one call does to an uncommitted chat client. *)
Lemma chat_step_outlier (store : Store) (p : Rect) (t1 t2 : Z) (s : ClientState) :
  viewMode s = "chat" -> (stablePaneX s == -1)%Q ->
  (5 <= Qabs (x p - lastPaneX s))%Q ->
  let s' := d_state (performPaneDetection store (seeing p t1 t2) s) in
  socketId s' = socketId s /\ viewMode s' = "chat"
  /\ stablePaneX s' = stablePaneX s
  /\ lastPaneX s' = x p /\ stabilityCount s' = 0.
Proof.
  intros Hmode Hstable Hfar.
  rewrite detection_chat_runs by assumption. cbn [d_state returned].
  destruct (beginDetection_keeps (seeing p t1 t2) s)
    as (Hid & Hv & Hlx & Hsx & _ & _ & Hn & _ & _ & _).
  rewrite observeChat_outlier by (rewrite Hlx; assumption).
  cbn. rewrite Hv. repeat split; assumption.
Qed.

Lemma chat_step_agree (store : Store) (p : Rect) (t1 t2 : Z) (s : ClientState) :
  viewMode s = "chat" -> (stablePaneX s == -1)%Q ->
  (Qabs (x p - lastPaneX s) < 5)%Q -> stabilityCount s + 1 < 3 ->
  let s' := d_state (performPaneDetection store (seeing p t1 t2) s) in
  socketId s' = socketId s /\ viewMode s' = "chat"
  /\ stablePaneX s' = stablePaneX s
  /\ lastPaneX s' = lastPaneX s /\ stabilityCount s' = stabilityCount s + 1.
Proof.
  intros Hmode Hstable Hnear Hcount.
  rewrite detection_chat_runs by assumption. cbn [d_state returned].
  destruct (beginDetection_keeps (seeing p t1 t2) s)
    as (Hid & Hv & Hlx & Hsx & _ & _ & Hn & _ & _ & _).
  rewrite observeChat_agree by (rewrite ?Hlx, ?Hn; assumption).
  cbn. rewrite Hv, Hn. repeat split; assumption.
Qed.

Lemma chat_step_commit (store : Store) (p : Rect) (t1 t2 : Z) (s : ClientState) :
  viewMode s = "chat" -> (stablePaneX s == -1)%Q ->
  (Qabs (x p - lastPaneX s) < 5)%Q -> 3 <= stabilityCount s + 1 ->
  let s' := d_state (performPaneDetection store (seeing p t1 t2) s) in
  viewMode s' = "chat"
  /\ stablePaneX s' = lastPaneX s
  /\ lastPaneX s' = lastPaneX s /\ stabilityCount s' = stabilityCount s + 1
  /\ (fixedMode store s = true ->
      fixedChatZone s' = Some (lastPaneX s) /\ calibrationMode s' = false).
Proof.
  intros Hmode Hstable Hnear Hcount.
  rewrite detection_chat_runs by assumption. cbn [d_state returned].
  destruct (beginDetection_keeps (seeing p t1 t2) s)
    as (Hid & Hv & Hlx & Hsx & _ & _ & Hn & _ & _ & _).
  destruct (observeChat_commit (fixedMode store s) p
              (beginDetection (seeing p t1 t2) s))
    as (H1 & H2 & H3 & H4 & H5); [rewrite ?Hlx, ?Hn; assumption..|].
  rewrite H1, H2, H3, H4, Hlx, Hn, Hv.
  split; [assumption|]. split; [reflexivity|]. split; [reflexivity|].
  split; [reflexivity|]. intros Hf. rewrite <- Hlx. apply H5. assumption.
Qed.

(** C2, as the code has it. On a chat client whose stable pane is unset
    and whose stability counter is 0, the first result that is 5px or more
    away from [lastPaneX] becomes the reference; three further results
    within 5px of it are needed before the pane is committed.  After three
    results in all the pane is still unset, with the counter at 2; after
    the fourth [stablePaneX] is the first result of the run, and in fixed
    mode that value is stored as the fixed chat zone and calibration is
    switched off.  A result 5px or more away from the reference sets the
    counter back to 0 and becomes the new reference. *)
Theorem chat_commit_after_four (store : Store) (s : ClientState)
    (p0 p1 p2 p3 outlier : Rect) (t0 t0' t1 t1' t2 t2' t3 t3' : Z) :
  viewMode s = "chat" ->
  (stablePaneX s == -1)%Q ->
  stabilityCount s = 0 ->
  (5 <= Qabs (x p0 - lastPaneX s))%Q ->
  (Qabs (x p1 - x p0) < 5)%Q ->
  (Qabs (x p2 - x p0) < 5)%Q ->
  (Qabs (x p3 - x p0) < 5)%Q ->
  (5 <= Qabs (x outlier - x p0))%Q ->
  let three := detections store [seeing p0 t0 t0'; seeing p1 t1 t1';
                                 seeing p2 t2 t2'] s in
  let four := detections store [seeing p3 t3 t3'] three in
  let upset := detections store [seeing outlier t3 t3'] three in
  ((stablePaneX three == -1)%Q /\ stabilityCount three = 2
   /\ lastPaneX three = x p0)
  /\ (stablePaneX four = x p0 /\ stabilityCount four = 3)
  /\ (fixedMode store s = true ->
      fixedChatZone four = Some (x p0) /\ calibrationMode four = false)
  /\ (stabilityCount upset = 0 /\ lastPaneX upset = x outlier
      /\ (stablePaneX upset == -1)%Q).
Proof.
  intros Hmode Hstable Hcount H0 H1 H2 H3 Hout. cbn [detections fold_left].
  destruct (chat_step_outlier store p0 t0 t0' s Hmode Hstable H0)
    as (Ia & Va & Sa & La & Na).
  set (a := d_state (performPaneDetection store (seeing p0 t0 t0') s)) in *.
  assert (Sa' : (stablePaneX a == -1)%Q) by (rewrite Sa; assumption).
  destruct (chat_step_agree store p1 t1 t1' a Va Sa')
    as (Ib & Vb & Sb & Lb & Nb); [rewrite La; assumption|lia|].
  set (b := d_state (performPaneDetection store (seeing p1 t1 t1') a)) in *.
  assert (Sb' : (stablePaneX b == -1)%Q) by (rewrite Sb; assumption).
  destruct (chat_step_agree store p2 t2 t2' b Vb Sb')
    as (Ic & Vc & Sc & Lc & Nc); [rewrite Lb, La; assumption|lia|].
  set (c := d_state (performPaneDetection store (seeing p2 t2 t2') b)) in *.
  assert (Sc' : (stablePaneX c == -1)%Q) by (rewrite Sc; assumption).
  assert (Lc' : lastPaneX c = x p0) by (rewrite Lc, Lb, La; reflexivity).
  assert (Nc' : stabilityCount c = 2) by lia.
  destruct (chat_step_commit store p3 t3 t3' c Vc Sc')
    as (Vd & Sd & Ld & Nd & Fd); [rewrite Lc'; assumption|lia|].
  destruct (chat_step_outlier store outlier t3 t3' c Vc Sc')
    as (Iu & Vu & Su & Lu & Nu); [rewrite Lc'; assumption|].
  split; [repeat split; assumption|].
  split; [split; [rewrite Sd; assumption|lia]|].
  split.
  - intros Hfixed. rewrite <- Lc'. apply Fd.
    rewrite (fixedMode_same store s c); [assumption|]. congruence.
  - repeat split; [assumption|assumption|rewrite Su; assumption].
Qed.

(** The witness of C2: the results 620, 622, 619 and 621 on a new client
    in fixed mode, and 700 as the result that disagrees. *)
Lemma chat_commit_after_four_witness :
  let s := createDefaultClientState "a" 0 in
  let three := detections fixedStore
                 [seeing (paneAt 620) 1000 1000; seeing (paneAt 622) 1100 1100;
                  seeing (paneAt 619) 1200 1200] s in
  let four := detections fixedStore [seeing (paneAt 621) 1300 1300] three in
  let upset := detections fixedStore [seeing (paneAt 700) 1300 1300] three in
  ((stablePaneX three == -1)%Q /\ stabilityCount three = 2
   /\ lastPaneX three = x (paneAt 620))
  /\ (stablePaneX four = x (paneAt 620) /\ stabilityCount four = 3)
  /\ (fixedMode fixedStore s = true ->
      fixedChatZone four = Some (x (paneAt 620)) /\ calibrationMode four = false)
  /\ (stabilityCount upset = 0 /\ lastPaneX upset = x (paneAt 700)
      /\ (stablePaneX upset == -1)%Q).
Proof.
  apply (chat_commit_after_four fixedStore (createDefaultClientState "a" 0)
           (paneAt 620) (paneAt 622) (paneAt 619) (paneAt 621) (paneAt 700)
           1000 1000 1100 1100 1200 1200 1300 1300);
    [ reflexivity | reflexivity | reflexivity | vm_compute; discriminate
    | reflexivity | reflexivity | reflexivity | vm_compute; discriminate ].
Defined.

(** C2, the scenario of the claim: after the three results 620, 622 and
    619 on a new client the stable pane is still unset. *)
Lemma chat_three_results_do_not_commit :
  let s := detections defaultStore
             [seeing (paneAt 620) 1000 1000; seeing (paneAt 622) 1100 1100;
              seeing (paneAt 619) 1200 1200]
             (createDefaultClientState "a" 0) in
  (stablePaneX s == -1)%Q /\ ~ (stablePaneX s == 619)%Q
  /\ stabilityCount s = 2 /\ (lastPaneX s == 620)%Q.
Proof.
  vm_compute. repeat split; try reflexivity. intros H. discriminate H.
Qed.
End DetectionFacts.

Module IndexFacts.
Import JS JSFacts Index.

Lemma Math_round_nearest (q : Q) :
  (inject_Z (Math_round q) <= q + (1 # 2))%Q
  /\ (q + (1 # 2) < inject_Z (Math_round q) + 1)%Q.
Proof.
  unfold Math_round. split.
  - apply Qfloor_le.
  - pose proof (Qlt_floor (q + (1 # 2))) as H.
    rewrite inject_Z_plus in H. exact H.
Qed.

Lemma Math_round_comp (q q' : Q) : (q == q')%Q -> Math_round q = Math_round q'.
Proof.
  intros H. unfold Math_round. apply Qfloor_comp. rewrite H. reflexivity.
Qed.

Lemma Math_round_integer (n : Z) (q : Q) : (q == inject_Z n)%Q -> Math_round q = n.
Proof.
  intros H. unfold Math_round.
  assert (H1 : (inject_Z n <= q + (1 # 2))%Q) by (rewrite H; lra).
  assert (H2 : (q + (1 # 2) < inject_Z (n + 1))%Q)
    by (rewrite inject_Z_plus, H; change (inject_Z 1) with 1%Q; lra).
  pose proof (Qfloor_le (q + (1 # 2))) as H3.
  pose proof (Qlt_floor (q + (1 # 2))) as H4.
  assert (H5 : (inject_Z n < inject_Z (Qfloor (q + (1 # 2)) + 1))%Q)
    by (eapply Qle_lt_trans; eassumption).
  assert (H6 : (inject_Z (Qfloor (q + (1 # 2))) < inject_Z (n + 1))%Q)
    by (eapply Qle_lt_trans; eassumption).
  rewrite <- Zlt_Qlt in H5, H6. lia.
Qed.

(** C3, as the code has it. For a click with numeric coordinates on a
    client with a capture area, the mouse is moved to the integers nearest
    to ((x + cx/d + cropLeft)/sx, (y + cy/d + cropTop)/sy), halves rounded
    up, where d is the low-resource downscale (1 otherwise) and cropLeft,
    cropTop are the configured margins of the client's view mode.  With
    zero margins and d = 1 these are the roundings of ((x+cx)/sx,
    (y+cy)/sy), and equal to them when they are integers. *)
Theorem inputClick_target (store : Store) (env : ClickEnv) (now : Z)
    (cx cy : Q) (s : ClientState) (area : Rect) (w h : Z) :
  lastCaptureArea s = Some area ->
  click_snapshot env = Some (w, h) ->
  let scale := getDpiScale (fst (click_logicalScreen env))
                           (snd (click_logicalScreen env)) w h in
  let config := getEffectiveConfigOf store s in
  let d := clickDownscale store in
  let ax := ((x area + cx / d + cropLeft config) / scale_x scale)%Q in
  let ay := ((y area + cy / d + cropTop config) / scale_y scale)%Q in
  exists X Y : Z,
    snd (inputClick store env now (Some (cx, cy)) s) = Some (X, Y)
    /\ (inject_Z X <= ax + (1 # 2) /\ ax + (1 # 2) < inject_Z X + 1)%Q
    /\ (inject_Z Y <= ay + (1 # 2) /\ ay + (1 # 2) < inject_Z Y + 1)%Q
    /\ ((cropLeft config == 0)%Q -> (cropTop config == 0)%Q -> (d == 1)%Q ->
        X = Math_round (fst (specClickTarget area scale (cx, cy)))
        /\ Y = Math_round (snd (specClickTarget area scale (cx, cy)))
        /\ forall n m : Z,
             (fst (specClickTarget area scale (cx, cy)) == inject_Z n)%Q ->
             (snd (specClickTarget area scale (cx, cy)) == inject_Z m)%Q ->
             X = n /\ Y = m).
Proof.
  intros Harea Hsnap scale config d ax ay.
  exists (Math_round ax), (Math_round ay).
  split.
  - unfold inputClick. cbn [lastCaptureArea updateActivity set_activity].
    rewrite Harea, Hsnap. reflexivity.
  - split; [apply Math_round_nearest|]. split; [apply Math_round_nearest|].
    intros Hl Ht Hd.
    assert (Ex : (ax == fst (specClickTarget area scale (cx, cy)))%Q).
    { unfold ax, specClickTarget. cbn [fst]. rewrite Hl, Hd.
      unfold Qdiv. change (/ 1)%Q with 1%Q. ring. }
    assert (Ey : (ay == snd (specClickTarget area scale (cx, cy)))%Q).
    { unfold ay, specClickTarget. cbn [snd]. rewrite Ht, Hd.
      unfold Qdiv. change (/ 1)%Q with 1%Q. ring. }
    split; [apply Math_round_comp; assumption|].
    split; [apply Math_round_comp; assumption|].
    intros n m Hn Hm. split; apply Math_round_integer.
    + rewrite Ex. assumption.
    + rewrite Ey. assumption.
Qed.

(** The witness of C3. *)
Lemma inputClick_target_witness :
  exists X Y : Z,
    snd (inputClick defaultStore sameScale 5 (Some (10, 20)%Q) clicker) = Some (X, Y).
Proof.
  destruct (inputClick_target defaultStore sameScale 5 10 20 clicker
              {| x := 100; y := 200; width := 500; height := 400 |} 1920 1080)
    as (X & Y & H & _); [reflexivity | reflexivity |].
  exists X, Y. exact H.
Defined.

(** C3, with the default margins of the chat view (cropTop = 40) and a DPI
    scale of 1: a click at (10, 20) on the area at (100, 200) moves the
    mouse to (110, 260), where ((x+cx)/sx, (y+cy)/sy) is (110, 220). *)
Lemma inputClick_adds_margins :
  snd (inputClick defaultStore sameScale 5 (Some (10, 20)%Q) clicker)
  = Some (110, 260)
  /\ (snd (specClickTarget {| x := 100; y := 200; width := 500; height := 400 |}
                           (getDpiScale 1920 1080 1920 1080) (10, 20)%Q)
      == 220)%Q
  /\ ~ (inject_Z 260 == 220)%Q.
Proof.
  split; [vm_compute; reflexivity|].
  split; [vm_compute; reflexivity|].
  intros H. discriminate H.
Qed.
End IndexFacts.

Module SchedulerFacts.
Import JS JSFacts Index DetectionFacts.

(** *** The capture guard *)

Lemma updateInterval_isCapturing (st : Store) (cs : Clients) (e : Engine) :
  isCapturing (updateInterval st cs e) = isCapturing e.
Proof. unfold updateInterval. destruct (isStreaming e); reflexivity. Qed.

Lemma start_isCapturing (st : Store) (cs : Clients) (e : Engine) :
  isCapturing (start st cs e) = isCapturing e.
Proof.
  unfold start. destruct (isStreaming e); [reflexivity|].
  rewrite updateInterval_isCapturing. reflexivity.
Qed.

Lemma stop_isCapturing (e : Engine) : isCapturing (stop e) = isCapturing e.
Proof. unfold stop. destruct (isStreaming e); reflexivity. Qed.

Lemma boot_guarded (st : Store) : guarded (boot st).
Proof. unfold guarded, boot. cbn. reflexivity. Qed.

Lemma timerFire_guarded (w : World) : guarded w -> guarded (timerFire w).
Proof.
  unfold guarded, timerFire. intros H.
  destruct (streamInterval (engine w)); [|exact H].
  destruct (isCapturing (engine w)) eqn:E; [rewrite E; exact H|].
  destruct (suspended w) as [|ids [|ids' rest]] eqn:Es; try discriminate; try contradiction.
  destruct (activeLinkClients (o_clients (out w))); cbn; rewrite ?Es; reflexivity.
Qed.

Lemma tickResume_guarded (env : TickEnv) (w : World) :
  guarded w -> guarded (tickResume env w).
Proof.
  unfold guarded, tickResume. intros H.
  destruct (suspended w) as [|ids [|ids' rest]] eqn:Es; cbn; rewrite ?Es;
    try assumption; try reflexivity; contradiction.
Qed.

Lemma step_guarded (w : World) (ev : Event) : guarded w -> guarded (step w ev).
Proof.
  intros H. destruct ev; cbn [step].
  - apply timerFire_guarded. assumption.
  - apply tickResume_guarded. assumption.
  - unfold guarded in *. cbn. rewrite start_isCapturing. exact H.
  - unfold guarded in *.
    destruct (removeClient (o_clients (out w)) id); cbn;
      rewrite ?stop_isCapturing, ?updateInterval_isCapturing; exact H.
  - unfold guarded in *. cbn. rewrite updateInterval_isCapturing. exact H.
  - exact H.
  - exact H.
  - unfold guarded in *. cbn. rewrite updateInterval_isCapturing. exact H.
  - unfold guarded in *. cbn. destruct (globalFound lookups); exact H.
  - exact H.
Qed.

Lemma run_guarded (events : list Event) :
  forall w, guarded w -> guarded (run w events).
Proof.
  induction events as [|ev events IH]; intros w H; cbn; [assumption|].
  apply IH. apply step_guarded. assumption.
Qed.

(** C7. In every state the server reaches, at most one call of
    captureAndEmit is in flight, and isCapturing is set exactly while one
    is; a timer tick that finds the flag set, or no client that is active
    and in a streaming view mode, takes no snapshot, emits no frame and
    starts no work; and when the work of a tick ends, with or without an
    error, the flag is cleared. *)
Theorem capture_guard (st : Store) (events : list Event) (env : TickEnv) :
  let w := run (boot st) events in
  (List.length (suspended w) <= 1)%nat
  /\ (isCapturing (engine w) = true <-> suspended w <> [])
  /\ (isCapturing (engine w) = true
      \/ activeLinkClients (o_clients (out w)) = [] ->
      captures (step w TimerFire) = captures w
      /\ o_emitted (out (step w TimerFire)) = o_emitted (out w)
      /\ suspended (step w TimerFire) = suspended w
      /\ isCapturing (engine (step w TimerFire)) = isCapturing (engine w))
  /\ isCapturing (engine (step w (TickResume env))) = false.
Proof.
  intros w.
  assert (Hg : guarded w) by (apply run_guarded, boot_guarded).
  clearbody w. unfold guarded in Hg.
  split; [|split; [|split]].
  - destruct (suspended w) as [|ids [|ids' rest]]; cbn; [lia|lia|contradiction].
  - destruct (suspended w) as [|ids [|ids' rest]]; [| |contradiction].
    + rewrite Hg. split; [discriminate|]. intros H. contradiction H. reflexivity.
    + rewrite Hg. split; [discriminate|reflexivity].
  - intros Hcase. cbn [step]. unfold timerFire.
    destruct (streamInterval (engine w)); [|repeat split].
    destruct (isCapturing (engine w)) eqn:E.
    + repeat split. assumption.
    + destruct Hcase as [Hc|Hnone]; [congruence|].
      cbv zeta. rewrite Hnone. cbn. repeat split.
  - cbn [step]. unfold tickResume.
    destruct (suspended w) as [|ids [|ids' rest]]; [assumption|reflexivity|contradiction].
Qed.

(** C1, the scenario that fails: clients "a" and "b" are both eligible,
    the encoder fails for "a"; "b" gets no frame in that tick, although it
    gets one when nothing fails. *)
Lemma failing_client_starves_next :
  List.map fst (o_emitted (out (run (boot defaultStore)
                  [Connect "a" 0; Connect "b" 0; TimerFire; TickResume faultyTick])))
  = []
  /\ List.map fst (o_emitted (out (run (boot defaultStore)
                  [Connect "a" 0; Connect "b" 0; TimerFire; TickResume calmTick])))
     = ["a"; "b"].
Proof. split; vm_compute; reflexivity. Qed.
End SchedulerFacts.

Module TickFacts.
Import JS JSFacts Index DetectionFacts SchedulerFacts.

(** *** Socket ids are never rewritten *)

Lemma observeChat_socketId (f : bool) (p : Rect) (s : ClientState) :
  socketId (observeChat f p s) = socketId s.
Proof.
  unfold observeChat.
  repeat (match goal with
          | |- context [if ?c then _ else _] => destruct c
          end; cbn); reflexivity.
Qed.

Lemma observeTerminal_socketId (f : bool) (p : Rect) (s : ClientState) :
  socketId (observeTerminal f p s) = socketId s.
Proof.
  unfold observeTerminal.
  repeat (match goal with
          | |- context [if ?c then _ else _] => destruct c
          end; cbn); reflexivity.
Qed.

Lemma performPaneDetection_socketId (st : Store) (cenv : ClientEnv) (s : ClientState) :
  socketId (d_state (performPaneDetection st cenv s)) = socketId s.
Proof.
  destruct (beginDetection_keeps cenv s) as (Hid & _).
  unfold performPaneDetection.
  set (s1 := beginDetection cenv s) in *.
  destruct (fastExit (fixedMode st s1) s1); [exact Hid|].
  destruct (negb (shouldRunDetection s1)); [exact Hid|].
  destruct (isChat s1 || isTerminal s1); [|exact Hid].
  destruct (throws cenv DetectionFault); [exact Hid|].
  destruct (located cenv) as [p|]; [|exact Hid].
  cbn [d_state returned].
  destruct (isChat s1);
    rewrite ?observeChat_socketId, ?observeTerminal_socketId; exact Hid.
Qed.

Lemma processClient_socketId (st : Store) (e : Engine) (sw sh : Z) (dpi : Scale)
    (cenv : ClientEnv) (s : ClientState) :
  socketId (p_state (processClient st e sw sh dpi cenv s)) = socketId s.
Proof.
  unfold processClient.
  destruct (throws cenv BaseCropFault); [reflexivity|].
  set (d := if bool_decide (is_Some (detectedWindow s)) && isPaneMode (viewMode s)
            then performPaneDetection st cenv s else returned s 0).
  assert (Hd : socketId (d_state d) = socketId s).
  { unfold d. destruct (bool_decide (is_Some (detectedWindow s))
                        && isPaneMode (viewMode s));
      [apply performPaneDetection_socketId|reflexivity]. }
  clearbody d.
  destruct (d_threw d); [exact Hd|].
  destruct (stableCrop _ (d_state d)) as [cropped final].
  destruct (cropped && throws cenv PaneCropFault); [exact Hd|].
  destruct (manualCrop _ final) as [cut shown].
  destruct (cut && throws cenv ManualCropFault); [exact Hd|].
  destruct (throws cenv EncodeFault); exact Hd.
Qed.

(** A completed turn threw only if one of its operations was set to
    throw. *)
Lemma processClient_threw (st : Store) (e : Engine) (sw sh : Z) (dpi : Scale)
    (cenv : ClientEnv) (s : ClientState) (f : Fault) :
  p_result (processClient st e sw sh dpi cenv s) = Threw f ->
  throws cenv f = true.
Proof.
  unfold processClient.
  destruct (throws cenv BaseCropFault) eqn:E0; [intros [= <-]; exact E0|].
  set (d := if bool_decide (is_Some (detectedWindow s)) && isPaneMode (viewMode s)
            then performPaneDetection st cenv s else returned s 0).
  assert (Hd : d_threw d = true -> throws cenv DetectionFault = true).
  { unfold d. destruct (bool_decide (is_Some (detectedWindow s))
                        && isPaneMode (viewMode s)); [|discriminate].
    unfold performPaneDetection.
    destruct (fastExit _ _); [discriminate|].
    destruct (negb _); [discriminate|].
    destruct (isChat _ || isTerminal _); [|discriminate].
    destruct (throws cenv DetectionFault); [reflexivity|].
    destruct (located cenv); discriminate. }
  clearbody d.
  destruct (d_threw d); [intros [= <-]; apply Hd; reflexivity|].
  destruct (stableCrop _ (d_state d)) as [cropped final].
  destruct (cropped && throws cenv PaneCropFault) eqn:E1.
  { intros [= <-]. apply andb_true_iff in E1. apply E1. }
  destruct (manualCrop _ final) as [cut shown].
  destruct (cut && throws cenv ManualCropFault) eqn:E2.
  { intros [= <-]. apply andb_true_iff in E2. apply E2. }
  destruct (throws cenv EncodeFault) eqn:E3; [intros [= <-]; exact E3|].
  discriminate.
Qed.

(** *** The client map *)

Lemma hasId_true (id : string) (s : ClientState) :
  hasId id s = true <-> socketId s = id.
Proof. unfold hasId. apply String.eqb_eq. Qed.

Lemma hasId_false (id : string) (s : ClientState) :
  hasId id s = false <-> socketId s <> id.
Proof. unfold hasId. apply String.eqb_neq. Qed.

Lemma getClientState_socketId (cs : Clients) (id : string) (s : ClientState) :
  getClientState cs id = Some s -> socketId s = id.
Proof.
  unfold getClientState. intros H. apply find_some in H.
  apply hasId_true. apply H.
Qed.

Lemma update_const_ids (id : string) (s' : ClientState) (cs : Clients) :
  socketId s' = id ->
  List.map socketId (update id (fun _ => s') cs) = List.map socketId cs.
Proof.
  intros Hs. induction cs as [|s cs IH]; cbn; [reflexivity|].
  destruct (hasId id s) eqn:E; cbn.
  - apply hasId_true in E. congruence.
  - rewrite IH. reflexivity.
Qed.

Lemma getClientState_is_Some (cs : Clients) (id : string) :
  is_Some (getClientState cs id) <-> In id (List.map socketId cs).
Proof.
  unfold getClientState. induction cs as [|s cs IH]; cbn.
  - split; [intros [? [=]]|intros []].
  - destruct (hasId id s) eqn:E.
    + apply hasId_true in E. split; [intros _; left; assumption|eauto].
    + apply hasId_false in E. rewrite IH. split; [auto|intros [H|H]; [contradiction|assumption]].
Qed.

Lemma servable_ext (env : TickEnv) (o o' : Output) (id : string) :
  List.map socketId (o_clients o') = List.map socketId (o_clients o) ->
  servable env o' id = servable env o id.
Proof.
  intros H. unfold servable. f_equal.
  apply bool_decide_ext. rewrite !getClientState_is_Some, H. reflexivity.
Qed.

Lemma getClientState_update_other (id id' : string)
    (f : ClientState -> ClientState) (cs : Clients) :
  id' <> id -> (forall s, socketId s = id' -> socketId (f s) = id') ->
  getClientState (update id' f cs) id = getClientState cs id.
Proof.
  intros Hne Hf. unfold getClientState.
  induction cs as [|s cs IH]; cbn; [reflexivity|].
  destruct (hasId id' s) eqn:E'; cbn.
  - apply hasId_true in E'.
    assert (E1 : hasId id (f s) = false)
      by (apply hasId_false; rewrite (Hf s E'); assumption).
    assert (E2 : hasId id s = false) by (apply hasId_false; congruence).
    rewrite E1, E2. reflexivity.
  - destruct (hasId id s); [reflexivity|apply IH].
Qed.

Lemma getClientState_update_same (id : string)
    (f : ClientState -> ClientState) (cs : Clients) (s : ClientState) :
  getClientState cs id = Some s -> socketId (f s) = id ->
  getClientState (update id f cs) id = Some (f s).
Proof.
  unfold getClientState. intros H Hf.
  induction cs as [|s0 cs IH]; cbn in *; [discriminate|].
  destruct (hasId id s0) eqn:E; cbn.
  - injection H as <-. apply hasId_true in Hf. rewrite Hf. reflexivity.
  - rewrite E. apply IH. assumption.
Qed.

(** *** The loop over the clients of a tick *)

Lemma clientLoop_frames (st : Store) (e : Engine) (env : TickEnv) (sw sh : Z)
    (dpi : Scale) (ids : list string) :
  forall (o o' : Output) (r : option (string * Fault)),
    clientLoop st e env sw sh dpi ids o = (o', r) ->
    List.map socketId (o_clients o') = List.map socketId (o_clients o)
    /\ o_log o' = o_log o
    /\ exists frames,
        o_emitted o' = o_emitted o ++ frames
        /\ match r with
           | None => List.map fst frames = List.filter (servable env o) ids
           | Some (id, f) =>
               exists before after,
                 ids = before ++ id :: after
                 /\ List.map fst frames = List.filter (servable env o) before
                 /\ servable env o id = true
                 /\ throws (clientEnv env id) f = true
           end.
Proof.
  induction ids as [|id ids IH]; intros o o' r; cbn [clientLoop].
  - intros [= <- <-]. split; [reflexivity|]. split; [reflexivity|].
    exists []. rewrite app_nil_r. split; reflexivity.
  - destruct (getClientState (o_clients o) id) as [s|] eqn:Es.
    2:{ intros H. destruct (IH _ _ _ H) as (Hids & Hlog & frames & Hem & Hr).
        split; [assumption|]. split; [assumption|].
        exists frames. split; [assumption|].
        assert (Hno : servable env o id = false).
        { unfold servable. rewrite Es. reflexivity. }
        destruct r as [[id' f]|].
        - destruct Hr as (before & after & -> & Hb & Hs & Ht).
          exists (id :: before), after. cbn. rewrite Hno. auto.
        - cbn. rewrite Hno. assumption. }
    destruct (hasSocket env id) eqn:Eh; cbn [negb].
    2:{ intros H. destruct (IH _ _ _ H) as (Hids & Hlog & frames & Hem & Hr).
        split; [assumption|]. split; [assumption|].
        exists frames. split; [assumption|].
        assert (Hno : servable env o id = false).
        { unfold servable. rewrite Eh. apply andb_false_r. }
        destruct r as [[id' f]|].
        - destruct Hr as (before & after & -> & Hb & Hs & Ht).
          exists (id :: before), after. cbn. rewrite Hno. auto.
        - cbn. rewrite Hno. assumption. }
    assert (Hyes : servable env o id = true).
    { unfold servable. rewrite Es, Eh. reflexivity. }
    pose proof (getClientState_socketId _ _ _ Es) as Hsid.
    set (p := processClient st e sw sh dpi (clientEnv env id) s).
    assert (Hp : socketId (p_state p) = id)
      by (unfold p; rewrite processClient_socketId; assumption).
    pose proof (update_const_ids id (p_state p) (o_clients o) Hp) as Hupd.
    destruct (p_result p) as [frame|f] eqn:Er.
    + intros H. destruct (IH _ _ _ H) as (Hids & Hlog & frames & Hem & Hr).
      cbn [o_clients o_log o_emitted] in Hids, Hlog, Hem.
      split; [congruence|]. split; [assumption|].
      exists ((id, frame) :: frames).
      split; [rewrite Hem, <- app_assoc; reflexivity|].
      set (o1 := {| o_clients := _ |}) in *.
      assert (Hext : forall i, servable env o1 i = servable env o i)
        by (intros i; apply servable_ext; exact Hupd).
      destruct r as [[id' f]|].
      * destruct Hr as (before & after & -> & Hb & Hs & Ht).
        exists (id :: before), after. cbn. rewrite Hyes. cbn.
        rewrite Hb. rewrite Hext in Hs.
        repeat split; try assumption.
        f_equal. apply filter_ext. assumption.
      * cbn. rewrite Hyes. cbn. rewrite Hr. f_equal. apply filter_ext. assumption.
    + intros [= <- <-]. cbn [o_clients o_log o_emitted].
      split; [assumption|]. split; [reflexivity|].
      exists []. rewrite app_nil_r. split; [reflexivity|].
      exists [], ids. cbn. repeat split; try assumption.
      apply (processClient_threw _ _ _ _ _ _ _ _ Er).
Qed.

(** C1, as the code has it. When the work of a tick ends, the in-flight
    flag is cleared and the timer keeps its period, whatever failed.  The
    clients are served in order; a failure in one client's turn is caught
    and logged, the clients before it have received their frames, and the
    failing client and the clients after it receive none in this tick.
    Without a failure every client whose state and socket exist receives a
    frame. *)
Theorem tick_failure_contained (w : World) (env : TickEnv) (ids : list string)
    (rest : list (list string)) :
  suspended w = ids :: rest ->
  let w' := step w (TickResume env) in
  isCapturing (engine w') = false
  /\ streamInterval (engine w') = streamInterval (engine w)
  /\ isStreaming (engine w') = isStreaming (engine w)
  /\ exists frames,
      o_emitted (out w') = o_emitted (out w) ++ frames
      /\ ((o_log (out w') = o_log (out w)
           /\ List.map fst frames = List.filter (servable env (out w)) ids)
          \/ (exists before id after f,
                ids = before ++ id :: after
                /\ servable env (out w) id = true
                /\ throws (clientEnv env id) f = true
                /\ o_log (out w')
                   = o_log (out w) ++ [StreamEngineError (Some id) (Some f)]
                /\ List.map fst frames
                   = List.filter (servable env (out w)) before)
          \/ (snapshot env = None /\ frames = []
              /\ o_log (out w')
                 = o_log (out w) ++ [StreamEngineError None None])).
Proof.
  intros Hs. cbn [step]. unfold tickResume. rewrite Hs. cbn.
  split; [reflexivity|]. split; [reflexivity|]. split; [reflexivity|].
  unfold tickBody. destruct (snapshot env) as [[sw sh]|].
  - destruct (clientLoop _ _ _ _ _ _ ids (out w)) as [o1 r] eqn:El.
    destruct (clientLoop_frames _ _ _ _ _ _ _ _ _ _ El)
      as (_ & Hlog & frames & Hem & Hr).
    exists frames. destruct r as [[id f]|].
    + cbn. split; [assumption|]. right. left.
      destruct Hr as (before & after & Hids & Hb & Hsv & Ht).
      exists before, id, after, f. rewrite Hlog. auto.
    + split; [assumption|]. left. auto.
  - exists []. cbn. rewrite app_nil_r. split; [reflexivity|]. right. right. auto.
Qed.
End TickFacts.

Module LockFacts.
Import JS JSFacts Index DetectionFacts SchedulerFacts TickFacts.

Lemma settled_begin (st : Store) (cenv : ClientEnv) (s0 s : ClientState) :
  settled st s0 s -> settled st s0 (beginDetection cenv s).
Proof.
  intros (Hf & Hc & Hx & Hy & Hv).
  destruct (beginDetection_keeps cenv s)
    as (Hid & Hv' & _ & Hsx & _ & Hsy & _ & _ & _ & Hcal).
  unfold settled. rewrite (fixedMode_same st s _ Hid), Hsx, Hsy, Hv'.
  repeat split; auto.
Qed.

(** The fast exit: on a locked client the call returns before the locator. *)
Lemma performPaneDetection_locked (st : Store) (cenv : ClientEnv)
    (s0 s : ClientState) :
  locked st s0 -> settled st s0 s -> isPaneMode (viewMode s) = true ->
  performPaneDetection st cenv s = returned (beginDetection cenv s) 0.
Proof.
  intros (_ & _ & Hzone) Hs Hpane.
  pose proof (settled_begin st cenv s0 s Hs) as (Hf & Hc & Hx & Hy & Hv).
  destruct (beginDetection_keeps cenv s) as (_ & Hv' & _).
  unfold performPaneDetection.
  set (s1 := beginDetection cenv s) in *.
  assert (Hmode : viewMode s1 = viewMode s0).
  { destruct Hv as [Hv|Hv]; [assumption|].
    rewrite <- Hv', Hv in Hpane. discriminate. }
  assert (Hexit : fastExit (fixedMode st s1) s1 = true).
  { unfold fastExit, isChat, isTerminal. rewrite Hf, Hc, Hmode, Hx, Hy. cbn.
    destruct Hzone as [[Hm Hpos]|[Hm Hpos]]; rewrite Hm; cbn;
      apply Qgt_bool_iff in Hpos; rewrite Hpos; reflexivity. }
  rewrite Hexit. reflexivity.
Qed.

Lemma processClient_settled (st : Store) (e : Engine) (sw sh : Z) (dpi : Scale)
    (cenv : ClientEnv) (s0 s : ClientState) :
  locked st s0 -> settled st s0 s ->
  let p := processClient st e sw sh dpi cenv s in
  p_locatorCalls p = O /\ settled st s0 (p_state p).
Proof.
  intros Hl Hs. unfold processClient.
  destruct (throws cenv BaseCropFault); [split; [reflexivity|assumption]|].
  set (d := if bool_decide (is_Some (detectedWindow s)) && isPaneMode (viewMode s)
            then performPaneDetection st cenv s else returned s 0).
  assert (Hd : d_locatorCalls d = O /\ settled st s0 (d_state d)
               /\ d_threw d = false).
  { unfold d. destruct (bool_decide (is_Some (detectedWindow s))); cbn [andb].
    - destruct (isPaneMode (viewMode s)) eqn:Ep.
      + rewrite (performPaneDetection_locked st cenv s0 s Hl Hs Ep). cbn.
        split; [reflexivity|]. split; [apply settled_begin; assumption|reflexivity].
      + cbn. auto.
    - cbn. auto. }
  clearbody d. destruct Hd as (Hcalls & Hset & Hthrew).
  rewrite Hthrew.
  destruct (stableCrop _ (d_state d)) as [cropped final].
  destruct (cropped && throws cenv PaneCropFault); [split; assumption|].
  destruct (manualCrop _ final) as [cut shown].
  destruct (cut && throws cenv ManualCropFault); [split; assumption|].
  destruct (throws cenv EncodeFault); split; assumption.
Qed.

Lemma locatorCallsOf_app (id : string) (o : Output) (more : list string)
    (cs : Clients) (em : list (string * Frame)) (lg : list LogEntry) :
  locatorCallsOf id {| o_clients := cs; o_locatorCalls := o_locatorCalls o ++ more;
                       o_emitted := em; o_log := lg |}
  = (locatorCallsOf id o + List.length (List.filter (String.eqb id) more))%nat.
Proof.
  unfold locatorCallsOf. cbn. rewrite List.filter_app, List.length_app. reflexivity.
Qed.

Lemma calls_other (id id' : string) (n : nat) :
  id' <> id -> List.filter (String.eqb id) (calls id' n) = [].
Proof.
  intros Hne. unfold calls. induction n as [|n IH]; cbn; [reflexivity|].
  assert (E : (id =? id')%string = false) by (apply String.eqb_neq; congruence).
  rewrite E. exact IH.
Qed.

Lemma clientLoop_settled (st : Store) (e : Engine) (env : TickEnv) (sw sh : Z)
    (dpi : Scale) (id : string) (s0 : ClientState) (Hl : locked st s0)
    (ids : list string) :
  forall (o o' : Output) (r : option (string * Fault)) (s : ClientState),
    clientLoop st e env sw sh dpi ids o = (o', r) ->
    getClientState (o_clients o) id = Some s -> settled st s0 s ->
    (exists s', getClientState (o_clients o') id = Some s' /\ settled st s0 s')
    /\ locatorCallsOf id o' = locatorCallsOf id o.
Proof.
  induction ids as [|i ids IH]; intros o o' r s; cbn [clientLoop].
  - intros [= <- <-] Hs Hset. split; [eauto|reflexivity].
  - destruct (getClientState (o_clients o) i) as [si|] eqn:Ei; [|apply IH].
    destruct (hasSocket env i); cbn [negb]; [|apply IH].
    set (p := processClient st e sw sh dpi (clientEnv env i) si).
    pose proof (getClientState_socketId _ _ _ Ei) as Hsi.
    assert (Hp : socketId (p_state p) = i)
      by (unfold p; rewrite processClient_socketId; assumption).
    intros Hloop Hs Hset.
    (* the state of [id] and its calls after this turn *)
    assert (Hturn :
      (exists s1, getClientState (update i (fun _ => p_state p) (o_clients o)) id
                  = Some s1 /\ settled st s0 s1)
      /\ List.length (List.filter (String.eqb id) (calls i (p_locatorCalls p))) = O).
    { destruct (String.eqb_spec i id) as [->|Hne].
      - rewrite Ei in Hs. injection Hs as ->.
        destruct (processClient_settled st e sw sh dpi (clientEnv env id) s0 s Hl Hset)
          as (Hc & Hst). fold p in Hc, Hst.
        split.
        + exists (p_state p). split; [|assumption].
          apply (getClientState_update_same id (fun _ => p_state p) _ s); assumption.
        + rewrite Hc. reflexivity.
      - split.
        + exists s. split; [|assumption].
          rewrite getClientState_update_other; auto.
        + rewrite calls_other by assumption. reflexivity. }
    destruct Hturn as ((s1 & Hs1 & Hset1) & Hcalls).
    destruct (p_result p) as [frame|f].
    + destruct (IH _ _ _ s1 Hloop) as (Hex & Hn); [exact Hs1|exact Hset1|].
      split; [assumption|]. rewrite Hn.
      cbn [o_clients o_locatorCalls o_emitted o_log].
      rewrite locatorCallsOf_app, Hcalls. lia.
    + injection Hloop as <- <-. split; [eauto|].
      rewrite locatorCallsOf_app, Hcalls. lia.
Qed.

(** *** Events that do not come from the client *)

Lemma setMode_socketId (st : Store) (now : Z) (mode : string) (s : ClientState) :
  socketId (setMode st now mode s) = socketId s.
Proof.
  unfold setMode, restoreOrReset.
  repeat (match goal with
          | |- context [if ?c then _ else _] => destruct c
          | |- context [match ?c with Some _ => _ | None => _ end] => destruct c
          end; cbn); reflexivity.
Qed.

Lemma calibrationReset_socketId (st : Store) (now : Z) (s : ClientState) :
  socketId (calibrationReset st now s) = socketId s.
Proof.
  unfold calibrationReset. cbn [socketId set_calibration].
  rewrite setMode_socketId. reflexivity.
Qed.

Lemma calibrationResetFixed_socketId (st : Store) (now : Z) (s : ClientState) :
  socketId (calibrationResetFixed st now s) = socketId s.
Proof.
  unfold calibrationResetFixed. cbn [socketId set_calibration].
  rewrite setMode_socketId. reflexivity.
Qed.

Lemma getClientState_app (cs more : Clients) (id : string) (s : ClientState) :
  getClientState cs id = Some s -> getClientState (cs ++ more) id = Some s.
Proof.
  unfold getClientState. induction cs as [|c cs IH]; cbn; [discriminate|].
  destruct (hasId id c); [auto|exact IH].
Qed.

Lemma getClientState_addClient (cs : Clients) (id id' : string) (now : Z)
    (s : ClientState) :
  getClientState cs id = Some s ->
  getClientState (addClient cs id' now) id = Some s.
Proof.
  intros H. unfold addClient.
  destruct (getClientState cs id'); [assumption|].
  apply getClientState_app. assumption.
Qed.

Lemma getClientState_removeClient (cs : Clients) (id id' : string) :
  id' <> id ->
  getClientState (removeClient cs id') id = getClientState cs id.
Proof.
  intros Hne. unfold getClientState, removeClient.
  induction cs as [|c cs IH]; cbn; [reflexivity|].
  destruct (hasId id' c) eqn:E'; cbn.
  - apply hasId_true in E'.
    assert (E : hasId id c = false) by (apply hasId_false; congruence).
    rewrite E. exact IH.
  - destruct (hasId id c); [reflexivity|exact IH].
Qed.

Lemma getClientState_map (g : ClientState -> ClientState) (cs : Clients)
    (id : string) (s : ClientState) :
  (forall c, socketId (g c) = socketId c) ->
  getClientState cs id = Some s ->
  getClientState (List.map g cs) id = Some (g s).
Proof.
  intros Hg. unfold getClientState.
  induction cs as [|c cs IH]; cbn; [discriminate|].
  assert (E : hasId id (g c) = hasId id c) by (unfold hasId; rewrite Hg; reflexivity).
  rewrite E.
  destruct (hasId id c); [intros [= <-]; reflexivity|exact IH].
Qed.

Lemma fixedMode_removeClientConfig (st : Store) (id' : string) (s : ClientState) :
  socketId s <> id' ->
  fixedMode (removeClientConfig id' st) s = fixedMode st s.
Proof.
  intros Hne.
  unfold fixedMode, getEffectiveConfigOf, getEffectiveConfig, getClientConfig.
  cbn. rewrite lookup_delete_ne by congruence. reflexivity.
Qed.

Lemma tickBody_quiet (st : Store) (e : Engine) (env : TickEnv) (id : string)
    (s0 s : ClientState) (ids : list string) (o : Output) :
  locked st s0 -> getClientState (o_clients o) id = Some s -> settled st s0 s ->
  (exists s', getClientState (o_clients (tickBody st e env ids o)) id = Some s'
              /\ settled st s0 s')
  /\ locatorCallsOf id (tickBody st e env ids o) = locatorCallsOf id o.
Proof.
  intros Hl Hs Hset. unfold tickBody.
  destruct (snapshot env) as [[sw sh]|]; [|split; [eauto|reflexivity]].
  destruct (clientLoop _ _ _ _ _ _ ids o) as [o1 r] eqn:El.
  destruct (clientLoop_settled st e env sw sh _ id s0 Hl ids o o1 r s El Hs Hset)
    as (Hex & Hn).
  destruct r as [[i f]|]; [|split; assumption].
  split; [exact Hex|exact Hn].
Qed.

Lemma step_quiet (id : string) (s0 : ClientState) (w : World) (ev : Event) :
  socketId s0 = id -> concerns id ev = false ->
  quiet id s0 w ->
  quiet id s0 (step w ev)
  /\ locatorCallsOf id (out (step w ev)) = locatorCallsOf id (out w).
Proof.
  intros Hid Hev (Hl & s & Hs & Hset).
  pose proof (getClientState_socketId _ _ _ Hs) as Hsid.
  destruct ev as [|env|id' now|id'|id' mode now|id' now|id' now|id' src now
                 |lookups|now];
    cbn [concerns] in Hev; cbn [step];
    try (apply String.eqb_neq in Hev).
  - unfold timerFire.
    destruct (streamInterval (engine w)); [|split; [split; eauto|reflexivity]].
    destruct (isCapturing (engine w)); [split; [split; eauto|reflexivity]|].
    destruct (activeLinkClients (o_clients (out w)));
      (split; [split; eauto|reflexivity]).
  - unfold tickResume.
    destruct (suspended w) as [|ids rest]; [split; [split; eauto|reflexivity]|].
    destruct (tickBody_quiet (store w) (engine w) env id s0 s ids (out w) Hl Hs Hset)
      as (Hex & Hn).
    split; [split; assumption|assumption].
  - split; [|reflexivity]. split; [exact Hl|].
    exists s. split; [|exact Hset].
    cbn [out set_engine set_clients o_clients].
    apply getClientState_addClient. assumption.
  - assert (Hq : quiet id s0
               {| engine := engine w; store := removeClientConfig id' (store w);
                  out := out (set_clients (removeClient (o_clients (out w)) id') w);
                  suspended := suspended w; captures := captures w |}).
    { destruct Hl as (Hf & Hc & Hz). destruct Hset as (Hf' & Hrest).
      split.
      - split; [|split; assumption]. cbn [store].
        rewrite fixedMode_removeClientConfig by congruence. assumption.
      - exists s. split.
        + cbn [out set_clients o_clients].
          rewrite getClientState_removeClient by assumption. assumption.
        + split; [|assumption]. cbn [store].
          rewrite fixedMode_removeClientConfig by congruence. assumption. }
    destruct (removeClient (o_clients (out w)) id'); (split; [exact Hq|reflexivity]).
  - split; [|reflexivity]. split; [exact Hl|].
    exists s. split; [|exact Hset].
    unfold refreshInterval, onClient. cbn [out set_engine set_clients o_clients].
    rewrite getClientState_update_other; auto.
    intros c Hc. rewrite setMode_socketId. assumption.
  - split; [|reflexivity]. split; [exact Hl|].
    exists s. split; [|exact Hset].
    unfold refreshInterval, onClient. cbn [out set_engine set_clients o_clients].
    rewrite getClientState_update_other; auto.
    intros c Hc. rewrite calibrationReset_socketId. assumption.
  - split; [|reflexivity]. split; [exact Hl|].
    exists s. split; [|exact Hset].
    unfold refreshInterval, onClient. cbn [out set_engine set_clients o_clients].
    rewrite getClientState_update_other; auto.
    intros c Hc. rewrite calibrationResetFixed_socketId. assumption.
  - split; [|reflexivity]. split; [exact Hl|].
    exists s. split; [|exact Hset].
    unfold refreshInterval, onClient. cbn [out set_engine set_clients o_clients].
    rewrite getClientState_update_other; auto.
  - split; [|reflexivity]. split; [exact Hl|].
    assert (Hg : forall c, socketId (detectWindow lookups c) = socketId c).
    { intros c. unfold detectWindow.
      repeat (match goal with
              | |- context [if ?c then _ else _] => destruct c
              | |- context [match ?c with Some _ => _ | None => _ end] => destruct c
              end; cbn); reflexivity. }
    exists (detectWindow lookups s). split.
    + unfold detectionCycle. cbn [out set_engine set_clients o_clients].
      apply getClientState_map; assumption.
    + unfold detectWindow.
      repeat (match goal with
              | |- context [if ?c then _ else _] => destruct c
              | |- context [match ?c with Some _ => _ | None => _ end] => destruct c
              end; cbn [negb]); exact Hset.
  - split; [|reflexivity]. split; [exact Hl|].
    set (g := fun c : ClientState =>
                if isActive c && (INACTIVITY_TIMEOUT_MS <? now - lastActivity c)
                then set_viewMode "idle" (set_activity (lastActivity c) false c)
                else c).
    assert (Hg : forall c, socketId (g c) = socketId c).
    { intros c. unfold g. destruct (_ && _); reflexivity. }
    exists (g s). split.
    + cbn [out set_clients o_clients]. unfold checkInactivity. fold g.
      apply getClientState_map; assumption.
    + unfold g. destruct (_ && _); [|exact Hset].
      destruct Hset as (Hf & Hc & Hx & Hy & Hv).
      split; [|split; [|split; [|split]]]; try assumption.
      right. reflexivity.
Qed.

Lemma run_quiet (id : string) (s0 : ClientState) (events : list Event) :
  socketId s0 = id ->
  Forall (fun ev => concerns id ev = false) events ->
  forall w, quiet id s0 w ->
            quiet id s0 (run w events)
            /\ locatorCallsOf id (out (run w events)) = locatorCallsOf id (out w).
Proof.
  intros Hid Hall. induction Hall as [|ev events Hev _ IH]; intros w Hq; cbn.
  - split; [assumption|reflexivity].
  - destruct (step_quiet id s0 w ev Hid Hev Hq) as (Hq1 & Hn1).
    destruct (IH _ Hq1) as (Hq2 & Hn2).
    split; [assumption|]. unfold run in Hn2. rewrite Hn2. assumption.
Qed.
End LockFacts.

Module WorkerFacts.
Import WindowDetectorWorker.

Section Worker.
Variable parseInt : string -> option Z.

Lemma schedule_In (t x : Timer) (q : list Timer) :
  In x (schedule t q) <-> x = t \/ In x q.
Proof.
  induction q as [|t' q IH]; cbn.
  - split; [intros [H|[]]; auto|intros [H|[]]; auto].
  - destruct (due t <? due t'); cbn.
    + split; [intros [H|H]; auto|intros [H|H]; auto].
    + rewrite IH. split; [intros [H|[H|H]]; auto|intros [H|[H|H]]; auto].
Qed.

Lemma schedule_sorted (t : Timer) (q : list Timer) :
  StronglySorted byDue q -> StronglySorted byDue (schedule t q).
Proof.
  induction q as [|t' q IH]; intros Hs; cbn.
  - constructor; constructor.
  - inversion Hs as [|? ? Hq Hall]; subst.
    destruct (Z.ltb_spec (due t) (due t')) as [Hlt|Hge].
    + constructor; [assumption|]. constructor; [unfold byDue; lia|].
      rewrite List.Forall_forall in Hall |- *. intros x Hx.
      specialize (Hall x Hx). unfold byDue in *. lia.
    + constructor; [apply IH; assumption|].
      rewrite List.Forall_forall in Hall |- *. intros x Hx.
      apply schedule_In in Hx. destruct Hx as [->|Hx]; [exact Hge|].
      apply Hall. assumption.
Qed.

Lemma resolve_other (p q : nat) (v : option Bounds)
    (m : gmap nat (option Bounds)) :
  p <> q -> resolve p v m !! q = m !! q.
Proof.
  intros Hne. unfold resolve. destruct (m !! p); [reflexivity|].
  apply lookup_insert_ne. assumption.
Qed.

Lemma resolve_fresh (p : nat) (v : option Bounds) (m : gmap nat (option Bounds)) :
  m !! p = None -> resolve p v m !! p = Some v.
Proof. intros H. unfold resolve. rewrite H. apply lookup_insert_eq. Qed.

Lemma resolve_kept (p q : nat) (v w : option Bounds)
    (m : gmap nat (option Bounds)) :
  m !! q = Some w -> resolve p v m !! q = Some w.
Proof.
  intros H. unfold resolve. destruct (m !! p) eqn:E; [assumption|].
  rewrite lookup_insert_ne; [assumption|]. intros ->. congruence.
Qed.

(** *** The timers fired by [elapse] *)

Lemma fire_timers (a : TimerAction) (s : State) : timers (fire a s) = timers s.
Proof.
  destruct a as [id p|]; cbn; [|reflexivity].
  destruct (pendingCallbacks s !! id); reflexivity.
Qed.

Lemma fire_clock (a : TimerAction) (s : State) : clock (fire a s) = clock s.
Proof.
  destruct a as [id p|]; cbn; [|reflexivity].
  destruct (pendingCallbacks s !! id); reflexivity.
Qed.

Lemma fire_pop_timers (tm : Timer) (rest : list Timer) (s : State) :
  timers (fire (action tm) (pop tm rest s)) = rest.
Proof. rewrite fire_timers. reflexivity. Qed.

Lemma fireDue_invariant (P : State -> Prop) (t : Z) :
  (forall s tm rest, timers s = tm :: rest -> due tm <= t -> P s ->
                     P (fire (action tm) (pop tm rest s))) ->
  forall q s, timers s = q -> P s -> P (fireDue t q s).
Proof.
  intros Hstep. induction q as [|tm rest IH]; intros s Hq HP; cbn; [assumption|].
  destruct (Z.leb_spec (due tm) t) as [Hle|Hgt]; [|assumption].
  apply IH.
  - apply fire_pop_timers.
  - apply Hstep; assumption.
Qed.

Lemma fireDue_remaining (t : Z) :
  forall q s, timers s = q -> StronglySorted byDue q ->
              forall tm, In tm (timers (fireDue t q s)) -> t < due tm /\ In tm q.
Proof.
  induction q as [|tm0 rest IH]; intros s Hq Hs tm; cbn.
  - rewrite Hq. intros [].
  - inversion Hs as [|? ? Hrest Hall]; subst.
    destruct (Z.leb_spec (due tm0) t) as [Hle|Hgt].
    + intros Hin.
      destruct (IH _ (fire_pop_timers tm0 rest s) Hrest tm Hin) as (H1 & H2).
      auto.
    + rewrite Hq. intros [<-|Hin]; [auto|].
      rewrite List.Forall_forall in Hall. specialize (Hall tm Hin).
      unfold byDue in Hall. split; [lia|auto].
Qed.

Lemma fireDue_sorted (t : Z) :
  forall q s, timers s = q -> StronglySorted byDue q ->
              StronglySorted byDue (timers (fireDue t q s)).
Proof.
  induction q as [|tm0 rest IH]; intros s Hq Hs; cbn.
  - rewrite Hq. assumption.
  - inversion Hs as [|? ? Hrest Hall]; subst.
    destruct (due tm0 <=? t).
    + apply IH; [apply fire_pop_timers|assumption].
    + rewrite Hq. assumption.
Qed.

Lemma fireDue_clock (t : Z) :
  forall q s, clock (fireDue t q s) <= Z.max (clock s) t.
Proof.
  induction q as [|tm0 rest IH]; intros s; cbn; [lia|].
  destruct (Z.leb_spec (due tm0) t) as [Hle|Hgt]; [|lia].
  eapply Z.le_trans; [apply IH|]. rewrite fire_clock. cbn. lia.
Qed.

Lemma elapse_ahead (t : Z) (s : State) :
  ordered s -> ahead s -> ordered (elapse t s) /\ ahead (elapse t s).
Proof.
  intros Ho Ha. unfold ordered, ahead, elapse in *. cbn.
  split; [apply fireDue_sorted; [reflexivity|assumption]|].
  intros tm Hin.
  destruct (fireDue_remaining t (timers s) s eq_refl Ho tm Hin) as (H1 & H2).
  specialize (Ha tm H2).
  pose proof (fireDue_clock t (timers s) s). lia.
Qed.

(** *** The shape of a step *)

Lemma call_cases (e : Event) (s : State) :
  isCall e ->
  (exists v, step parseInt s e = fst (resolved v s))
  \/ (exists key, step parseInt s e = fst (register key s)).
Proof.
  destruct e as [pattern|handle| | | | |]; cbn; try contradiction; intros _.
  - unfold findWindowBounds. destruct pattern as [pattern|]; [|eauto].
    destruct (pattern =? "")%string; [eauto|].
    unfold lookup. destruct (cached _ s); [eauto|].
    destruct (negb (isReady s) || killed s); eauto.
  - unfold findWindowBoundsByHandle, lookup. destruct (cached _ s); [eauto|].
    destruct (negb (isReady s) || killed s); eauto.
Qed.

(** The promise a call returns is the next one in the numbering. *)
Lemma call_promise (s : State) :
  (forall pattern, snd (findWindowBounds pattern s) = promises s)
  /\ (forall handle, snd (findWindowBoundsByHandle handle s) = promises s).
Proof.
  assert (H : forall key, snd (lookup key s) = promises s).
  { intros key. unfold lookup. destruct (cached key s); [reflexivity|].
    destruct (negb (isReady s) || killed s); reflexivity. }
  split.
  - intros [pattern|]; cbn; [|reflexivity].
    destruct (pattern =? "")%string; [reflexivity|apply H].
  - intros handle. apply H.
Qed.

Lemma processLine_frame (s : State) (line : string) :
  timers (processLine parseInt s line) = timers s
  /\ clock (processLine parseInt s line) = clock s
  /\ callId (processLine parseInt s line) = callId s
  /\ promises (processLine parseInt s line) = promises s.
Proof.
  unfold processLine. destruct (parseLine line) as [| |id result|]; cbn; auto.
  destruct (pendingCallbacks s !! id); cbn; auto.
Qed.

Lemma fold_processLine_frame (lines : list string) :
  forall s,
    timers (fold_left (processLine parseInt) lines s) = timers s
    /\ clock (fold_left (processLine parseInt) lines s) = clock s
    /\ callId (fold_left (processLine parseInt) lines s) = callId s
    /\ promises (fold_left (processLine parseInt) lines s) = promises s.
Proof.
  induction lines as [|line lines IH]; intros s; cbn; [auto|].
  destruct (IH (processLine parseInt s line)) as (H1 & H2 & H3 & H4).
  destruct (processLine_frame s line) as (G1 & G2 & G3 & G4).
  rewrite H1, H2, H3, H4. auto.
Qed.

Lemma onData_frame (chunk : string) (s : State) :
  timers (onData parseInt chunk s) = timers s
  /\ clock (onData parseInt chunk s) = clock s
  /\ callId (onData parseInt chunk s) = callId s
  /\ promises (onData parseInt chunk s) = promises s.
Proof.
  unfold onData. destruct (completeLines _) as [lines rest].
  apply (fold_processLine_frame lines (set_outputBuffer rest s)).
Qed.

(** *** The queue stays ordered and ahead of the clock *)

Lemma step_timely (s : State) (e : Event) :
  ordered s /\ ahead s -> ordered (step parseInt s e) /\ ahead (step parseInt s e).
Proof.
  intros (Ho & Ha).
  assert (Hcall : isCall e -> ordered (step parseInt s e) /\ ahead (step parseInt s e)).
  { intros Hc. destruct (call_cases e s Hc) as [[v ->]|[key ->]].
    - split; assumption.
    - unfold ordered, ahead in *. cbn. split; [apply schedule_sorted; assumption|].
      intros tm Hin. apply schedule_In in Hin. destruct Hin as [->|Hin].
      + cbn. unfold CALL_TIMEOUT. lia.
      + apply Ha. assumption. }
  destruct e as [pattern|handle|chunk|t| | |]; try (apply Hcall; exact I).
  - cbn [step]. destruct (onData_frame chunk s) as (H1 & H2 & _).
    unfold ordered, ahead. rewrite H1, H2. split; assumption.
  - apply elapse_ahead; assumption.
  - unfold ordered, ahead in *. cbn. split; [apply schedule_sorted; assumption|].
    intros tm Hin. apply schedule_In in Hin. destruct Hin as [->|Hin].
    + cbn. unfold RESTART_DELAY. lia.
    + apply Ha. assumption.
  - split; assumption.
  - split; assumption.
Qed.

(** *** Promise numbers and correlation ids are fresh *)

Lemma create_numbered (now : Z) : numbered (create now).
Proof.
  unfold numbered, create. cbn. split; [|split].
  - intros tm id p [].
  - intros k cb H. rewrite lookup_empty in H. discriminate.
  - intros q _. apply lookup_empty.
Qed.

Lemma resolved_numbered (v : option Bounds) (s : State) :
  numbered s -> numbered (fst (resolved v s)).
Proof.
  intros (N1 & N2 & N3). unfold numbered. cbn. split; [|split].
  - intros tm id p Hin Ha. destruct (N1 tm id p Hin Ha) as (Hp & Hn).
    split; [lia|exact Hn].
  - intros k cb H. specialize (N2 k cb H). lia.
  - intros q Hq. rewrite resolve_other by lia. apply N3. lia.
Qed.

Lemma register_numbered (key : string) (s : State) :
  numbered s -> numbered (fst (register key s)).
Proof.
  intros (N1 & N2 & N3). unfold numbered. cbn. split; [|split].
  - intros tm id p Hin Ha. apply schedule_In in Hin. destruct Hin as [->|Hin].
    + cbn in Ha. injection Ha as <- <-. split; [lia|].
      exists (S (callId s)). split; [lia|reflexivity].
    + destruct (N1 tm id p Hin Ha) as (Hp & n & Hn & ->).
      split; [lia|]. exists n. split; [lia|reflexivity].
  - intros k cb H. rewrite lookup_insert in H.
    destruct (decide (pretty (S (callId s)) = k)).
    + injection H as <-. cbn. lia.
    + specialize (N2 k cb H). lia.
  - intros q Hq. apply N3. lia.
Qed.

Lemma processLine_numbered (s : State) (line : string) :
  numbered s -> numbered (processLine parseInt s line).
Proof.
  intros HN. unfold processLine.
  destruct (parseLine line) as [| |id result|]; try assumption.
  destruct (pendingCallbacks s !! id) as [cb|] eqn:Ecb; [|assumption].
  destruct HN as (N1 & N2 & N3). unfold numbered. cbn. split; [|split].
  - exact N1.
  - intros k cb' H. apply lookup_delete_Some in H. apply (N2 k cb'), H.
  - intros q Hq. specialize (N2 id cb Ecb).
    rewrite resolve_other by lia. apply N3. assumption.
Qed.

Lemma fold_processLine_numbered (lines : list string) :
  forall s, numbered s -> numbered (fold_left (processLine parseInt) lines s).
Proof.
  induction lines as [|line lines IH]; intros s HN; cbn; [assumption|].
  apply IH. apply processLine_numbered. assumption.
Qed.

Lemma fire_pop_numbered (t : Z) (s : State) (tm : Timer) (rest : list Timer) :
  timers s = tm :: rest -> due tm <= t -> numbered s ->
  numbered (fire (action tm) (pop tm rest s)).
Proof.
  intros Hq _ (N1 & N2 & N3).
  assert (N1' : forall tm' id p, In tm' rest -> action tm' = CallTimeout id p ->
                                 (p < promises s)%nat
                                 /\ exists n, (n <= callId s)%nat /\ id = pretty n).
  { intros tm' id p Hin. apply N1. rewrite Hq. right. assumption. }
  destruct (action tm) as [id p|] eqn:Ea; cbn.
  - destruct (pendingCallbacks s !! id) as [cb|] eqn:Ecb; cbn.
    + unfold numbered. cbn. split; [exact N1'|]. split.
      * intros k cb' H. apply lookup_delete_Some in H. apply (N2 k cb'), H.
      * intros q Hq'. destruct (N1 tm id p) as (Hp & _);
          [rewrite Hq; left; reflexivity|assumption|].
        rewrite resolve_other by lia. apply N3. assumption.
    + unfold numbered. cbn. auto.
  - unfold numbered. cbn. auto.
Qed.

Lemma step_numbered (s : State) (e : Event) :
  numbered s -> numbered (step parseInt s e).
Proof.
  intros HN.
  assert (Hcall : isCall e -> numbered (step parseInt s e)).
  { intros Hc. destruct (call_cases e s Hc) as [[v ->]|[key ->]];
      [apply resolved_numbered|apply register_numbered]; assumption. }
  destruct e as [pattern|handle|chunk|t| | |]; try (apply Hcall; exact I).
  - cbn [step]. unfold onData. destruct (completeLines _) as [lines rest].
    apply fold_processLine_numbered. exact HN.
  - cbn [step]. unfold elapse.
    assert (H : numbered (fireDue t (timers s) s)).
    { apply (fireDue_invariant numbered t); [|reflexivity|assumption].
      intros s0 tm rest. apply fire_pop_numbered. }
    exact H.
  - destruct HN as (N1 & N2 & N3). unfold numbered. cbn. split; [|auto].
    intros tm id p Hin Ha. apply schedule_In in Hin. destruct Hin as [->|Hin].
    + discriminate.
    + apply (N1 tm); assumption.
  - exact HN.
  - exact HN.
Qed.

Lemma run_invariant (P : State -> Prop) :
  (forall s e, P s -> P (step parseInt s e)) ->
  forall events s, P s -> P (run parseInt s events).
Proof.
  intros Hstep. induction events as [|e events IH]; intros s HP; cbn; [assumption|].
  apply IH. apply Hstep. assumption.
Qed.

(** *** A call that is waiting for its answer *)

Lemma register_watches (key : string) (s : State) :
  numbered s ->
  watched (pretty (S (callId s))) (promises s) (clock s + CALL_TIMEOUT)
          (fst (register key s)).
Proof.
  intros (N1 & N2 & N3). unfold watched. cbn.
  split; [|split; [|split; [|split]]].
  - intros tm id' p' Hin Ha. apply schedule_In in Hin. destruct Hin as [->|Hin].
    + cbn in Ha. injection Ha as <- <-. split; reflexivity.
    + destruct (N1 tm id' p' Hin Ha) as (Hp & n & Hn & ->).
      split.
      * intros Heq. apply (inj pretty) in Heq. lia.
      * intros Heq. lia.
  - intros k cb H Hp. rewrite lookup_insert in H.
    destruct (decide (pretty (S (callId s)) = k)) as [<-|Hne]; [reflexivity|].
    specialize (N2 k cb H). lia.
  - lia.
  - exists (S (callId s)). split; [lia|reflexivity].
  - left. unfold waiting. cbn. split; [|split].
    + apply schedule_In. left. reflexivity.
    + eexists. split; [apply lookup_insert_eq|reflexivity].
    + apply N3. lia.
Qed.

Lemma register_punctual (key : string) (s : State) :
  numbered s ->
  punctual (pretty (S (callId s))) (promises s) (clock s + CALL_TIMEOUT)
           (fst (register key s)).
Proof.
  intros (N1 & N2 & N3). unfold punctual. cbn. split.
  - intros tm p' Hin Ha. apply schedule_In in Hin. destruct Hin as [->|Hin].
    + reflexivity.
    + destruct (N1 tm _ p' Hin Ha) as (_ & n & Hn & Heq).
      apply (inj pretty) in Heq. lia.
  - intros _. unfold waiting. cbn. split; [|split].
    + apply schedule_In. left. reflexivity.
    + eexists. split; [apply lookup_insert_eq|reflexivity].
    + apply N3. lia.
Qed.

Section Watched.
Variables (id : string) (p : nat) (d : Z).

Lemma resolved_watched (v : option Bounds) (s : State) :
  watched id p d s -> watched id p d (fst (resolved v s)).
Proof.
  intros (W3 & W4 & W5 & W6 & W7). unfold watched. cbn.
  split; [exact W3|]. split; [exact W4|]. split; [lia|]. split; [exact W6|].
  destruct W7 as [(Hin & Hcb & Hs)|(Hs & Hnone)].
  - left. unfold waiting. cbn. split; [assumption|]. split; [assumption|].
    rewrite resolve_other by lia. assumption.
  - right. unfold timedOut. cbn. split; [|assumption].
    apply resolve_kept. assumption.
Qed.

Lemma register_watched (key : string) (s : State) :
  watched id p d s -> watched id p d (fst (register key s)).
Proof.
  intros (W3 & W4 & W5 & (n & Hn & Hid) & W7).
  assert (Hfresh : pretty (S (callId s)) <> id).
  { rewrite Hid. intros Heq. apply (inj pretty) in Heq. lia. }
  unfold watched. cbn. split; [|split; [|split; [|split]]].
  - intros tm id' p' Hin Ha. apply schedule_In in Hin. destruct Hin as [->|Hin].
    + cbn in Ha. injection Ha as <- <-. split; [contradiction|lia].
    + apply (W3 tm); assumption.
  - intros k cb H Hp. rewrite lookup_insert in H.
    destruct (decide (pretty (S (callId s)) = k)) as [<-|Hne].
    + injection H as <-. cbn in Hp. lia.
    + apply (W4 k cb); assumption.
  - lia.
  - exists n. split; [lia|assumption].
  - destruct W7 as [(Hin & Hcb & Hs)|(Hs & Hnone)].
    + left. unfold waiting. cbn. split; [|split].
      * apply schedule_In. right. assumption.
      * rewrite lookup_insert_ne by assumption. assumption.
      * assumption.
    + right. unfold timedOut. cbn. split; [assumption|].
      rewrite lookup_insert_ne by assumption. assumption.
Qed.

Lemma processLine_watched (s : State) (line : string) :
  (forall result, parseLine line <> Response id result) ->
  watched id p d s -> watched id p d (processLine parseInt s line).
Proof.
  intros Hsilent HW. unfold processLine.
  destruct (parseLine line) as [| |id' result|] eqn:El; try assumption.
  destruct (pendingCallbacks s !! id') as [cb|] eqn:Ecb; [|assumption].
  assert (Hne : id' <> id) by (intros ->; apply (Hsilent result); reflexivity).
  destruct HW as (W3 & W4 & W5 & W6 & W7).
  assert (Hp : cb_promise cb <> p).
  { intros Hp. apply Hne. apply (W4 id' cb); assumption. }
  unfold watched. cbn. split; [exact W3|]. split; [|split; [exact W5|split; [exact W6|]]].
  - intros k cb' H. apply lookup_delete_Some in H. apply (W4 k cb'), H.
  - destruct W7 as [(Hin & Hcb' & Hs)|(Hs & Hnone)].
    + left. unfold waiting. cbn. split; [assumption|]. split.
      * rewrite lookup_delete_ne by assumption. assumption.
      * rewrite resolve_other by assumption. assumption.
    + right. unfold timedOut. cbn. split.
      * apply resolve_kept. assumption.
      * rewrite lookup_delete_ne by assumption. assumption.
Qed.

Lemma fold_processLine_watched (lines : list string) :
  silentOn id lines ->
  forall s, watched id p d s ->
            watched id p d (fold_left (processLine parseInt) lines s).
Proof.
  induction lines as [|line lines IH]; intros Hsilent s HW; cbn; [assumption|].
  apply IH.
  - intros l r Hin. apply Hsilent. right. assumption.
  - apply processLine_watched; [|assumption].
    intros r. apply Hsilent. left. reflexivity.
Qed.

Lemma fire_pop_watched (t : Z) (s : State) (tm : Timer) (rest : list Timer) :
  timers s = tm :: rest -> due tm <= t -> watched id p d s ->
  watched id p d (fire (action tm) (pop tm rest s)).
Proof.
  intros Hq _ (W3 & W4 & W5 & W6 & W7).
  assert (W3' : forall tm' id' p', In tm' rest -> action tm' = CallTimeout id' p' ->
                                   (id' = id <-> p' = p)).
  { intros tm' id' p' Hin. apply W3. rewrite Hq. right. assumption. }
  assert (Hrest : In {| due := d; action := CallTimeout id p |} (timers s) ->
                  action tm <> CallTimeout id p ->
                  In {| due := d; action := CallTimeout id p |} rest).
  { intros Hin Hne. rewrite Hq in Hin. destruct Hin as [Heq|Hin]; [|assumption].
    contradiction Hne. rewrite Heq. reflexivity. }
  destruct (action tm) as [id' p'|] eqn:Ea; cbn.
  - destruct (W3 tm id' p') as (Hip & Hpi);
      [rewrite Hq; left; reflexivity|assumption|].
    destruct (pendingCallbacks s !! id') as [cb|] eqn:Ecb; cbn.
    + unfold watched. cbn. split; [exact W3'|].
      split; [|split; [exact W5|split; [exact W6|]]].
      * intros k cb' H. apply lookup_delete_Some in H. apply (W4 k cb'), H.
      * destruct (decide (id' = id)) as [->|Hne].
        -- right. unfold timedOut. cbn.
           rewrite (Hip eq_refl). split; [|apply lookup_delete_eq].
           destruct W7 as [(_ & _ & Hs)|(Hs & _)];
             [apply resolve_fresh|apply resolve_kept]; assumption.
        -- assert (Hp : p' <> p) by (intros Hp; apply Hne, Hpi, Hp).
           destruct W7 as [(Hin & Hcb' & Hs)|(Hs & Hnone)].
           ++ left. unfold waiting. cbn. split; [|split].
              ** apply (Hrest Hin). congruence.
              ** rewrite lookup_delete_ne by assumption. assumption.
              ** rewrite resolve_other by assumption. assumption.
           ++ right. unfold timedOut. cbn. split.
              ** apply resolve_kept. assumption.
              ** rewrite lookup_delete_ne by assumption. assumption.
    + unfold watched. cbn. split; [exact W3'|].
      split; [exact W4|split; [exact W5|split; [exact W6|]]].
      destruct W7 as [(Hin & (cb & Hcb & Hcp) & Hs)|HT]; [|right; exact HT].
      left. unfold waiting. cbn. split; [|split; [eauto|assumption]].
      apply (Hrest Hin). intros [= -> ->]. congruence.
  - unfold watched. cbn. split; [exact W3'|].
    split; [exact W4|split; [exact W5|split; [exact W6|]]].
    destruct W7 as [(Hin & Hcb & Hs)|HT]; [|right; exact HT].
    left. unfold waiting. cbn. split; [|split; assumption].
    apply (Hrest Hin). discriminate.
Qed.

Lemma step_watched (s : State) (e : Event) :
  match e with
  | Data chunk => silentOn id (fst (completeLines (outputBuffer s ++ chunk)))
  | _ => True
  end ->
  watched id p d s -> watched id p d (step parseInt s e).
Proof.
  intros Hsilent HW.
  assert (Hcall : isCall e -> watched id p d (step parseInt s e)).
  { intros Hc. destruct (call_cases e s Hc) as [[v ->]|[key ->]];
      [apply resolved_watched|apply register_watched]; assumption. }
  destruct e as [pattern|handle|chunk|t| | |]; try (apply Hcall; exact I).
  - cbn [step]. unfold onData.
    destruct (completeLines _) as [lines rest]. cbn [fst] in Hsilent.
    apply fold_processLine_watched; assumption.
  - cbn [step]. unfold elapse.
    assert (H : watched id p d (fireDue t (timers s) s)).
    { apply (fireDue_invariant (watched id p d) t); [|reflexivity|assumption].
      intros s0 tm rest. apply fire_pop_watched. }
    exact H.
  - destruct HW as (W3 & W4 & W5 & W6 & W7). unfold watched. cbn.
    split; [|split; [exact W4|split; [exact W5|split; [exact W6|]]]].
    + intros tm id' p' Hin Ha. apply schedule_In in Hin.
      destruct Hin as [->|Hin]; [discriminate|]. apply (W3 tm); assumption.
    + destruct W7 as [(Hin & Hcb & Hs)|HT]; [|right; exact HT].
      left. unfold waiting. cbn. split; [|split; assumption].
      apply schedule_In. right. assumption.
  - exact HW.
  - exact HW.
Qed.

Lemma run_watched (events : list Event) :
  forall s, unanswered parseInt id s events -> watched id p d s ->
            watched id p d (run parseInt s events).
Proof.
  induction events as [|e events IH]; intros s Hu HW; cbn; [assumption|].
  destruct Hu as (He & Hu). apply IH; [assumption|].
  apply step_watched; assumption.
Qed.
(** *** The call is not timed out before its time *)

Lemma resolved_punctual (v : option Bounds) (s : State) :
  watched id p d s -> punctual id p d s -> punctual id p d (fst (resolved v s)).
Proof.
  intros (_ & _ & W5 & _) (P1 & P2). unfold punctual. cbn.
  split; [exact P1|]. intros Hc.
  destruct (P2 Hc) as (Hin & Hcb & Hs).
  unfold waiting. cbn. split; [assumption|]. split; [assumption|].
  rewrite resolve_other by lia. assumption.
Qed.

Lemma register_keeps_punctual (key : string) (s : State) :
  watched id p d s -> punctual id p d s -> punctual id p d (fst (register key s)).
Proof.
  intros (_ & _ & _ & (n & Hn & Hid) & _) (P1 & P2).
  assert (Hfresh : pretty (S (callId s)) <> id).
  { rewrite Hid. intros Heq. apply (inj pretty) in Heq. lia. }
  unfold punctual. cbn. split.
  - intros tm p' Hin Ha. apply schedule_In in Hin. destruct Hin as [->|Hin].
    + cbn in Ha. injection Ha as Heq _. contradiction.
    + apply (P1 tm p'); assumption.
  - intros Hc. destruct (P2 Hc) as (Hin & Hcb & Hs).
    unfold waiting. cbn. split; [|split].
    + apply schedule_In. right. assumption.
    + rewrite lookup_insert_ne by assumption. assumption.
    + assumption.
Qed.

Lemma processLine_punctual (s : State) (line : string) :
  (forall result, parseLine line <> Response id result) ->
  watched id p d s -> punctual id p d s ->
  punctual id p d (processLine parseInt s line).
Proof.
  intros Hsilent (_ & W4 & _) HP. unfold processLine.
  destruct (parseLine line) as [| |id' result|] eqn:El; try assumption.
  destruct (pendingCallbacks s !! id') as [cb|] eqn:Ecb; [|assumption].
  assert (Hne : id' <> id) by (intros ->; apply (Hsilent result); reflexivity).
  assert (Hp : cb_promise cb <> p).
  { intros Hp. apply Hne. apply (W4 id' cb); assumption. }
  destruct HP as (P1 & P2). unfold punctual. cbn.
  split; [exact P1|]. intros Hc.
  destruct (P2 Hc) as (Hin & Hcb & Hs).
  unfold waiting. cbn. split; [assumption|]. split.
  - rewrite lookup_delete_ne by assumption. assumption.
  - rewrite resolve_other by assumption. assumption.
Qed.

Lemma fold_processLine_punctual (lines : list string) :
  silentOn id lines ->
  forall s, watched id p d s -> punctual id p d s ->
            punctual id p d (fold_left (processLine parseInt) lines s).
Proof.
  induction lines as [|line lines IH]; intros Hsilent s HW HP; cbn;
    [assumption|].
  assert (Hline : forall r, parseLine line <> Response id r)
    by (intros r; apply Hsilent; left; reflexivity).
  apply IH.
  - intros l r Hin. apply Hsilent. right. assumption.
  - apply processLine_watched; assumption.
  - apply processLine_punctual; assumption.
Qed.

Lemma fire_pop_punctual (t : Z) (s : State) (tm : Timer) (rest : list Timer) :
  timers s = tm :: rest -> due tm <= t ->
  watched id p d s /\ punctual id p d s ->
  watched id p d (fire (action tm) (pop tm rest s))
  /\ punctual id p d (fire (action tm) (pop tm rest s)).
Proof.
  intros Hq Hdue (HW & P1 & P2).
  split; [apply (fire_pop_watched t); assumption|].
  destruct HW as (W3 & _).
  unfold punctual. split.
  - intros tm' p' Hin. rewrite fire_pop_timers in Hin.
    apply P1. rewrite Hq. right. assumption.
  - rewrite fire_clock. cbn [clock pop]. intros Hc.
    assert (Hearly : due tm < d) by lia.
    destruct P2 as (Hin & Hcb & Hs); [lia|].
    assert (Hrest : action tm <> CallTimeout id p ->
                    In {| due := d; action := CallTimeout id p |} rest).
    { intros Hne. rewrite Hq in Hin. destruct Hin as [Heq|Hin]; [|assumption].
      contradiction Hne. rewrite Heq. reflexivity. }
    destruct (action tm) as [id' p'|] eqn:Ea; cbn.
    + assert (Hne : id' <> id).
      { intros ->. specialize (P1 tm p'). rewrite Hq in P1.
        specialize (P1 (or_introl eq_refl) Ea). lia. }
      assert (Hp : p' <> p).
      { intros Hp. apply Hne. apply (W3 tm id' p'); [|assumption|assumption].
        rewrite Hq. left. reflexivity. }
      destruct (pendingCallbacks s !! id') as [cb|] eqn:Ecb; cbn.
      * unfold waiting. cbn. split; [|split].
        -- apply Hrest. congruence.
        -- rewrite lookup_delete_ne by assumption. assumption.
        -- rewrite resolve_other by assumption. assumption.
      * unfold waiting. cbn. split; [|split; assumption].
        apply Hrest. congruence.
    + unfold waiting. cbn. split; [|split; assumption].
      apply Hrest. discriminate.
Qed.

Lemma step_punctual (s : State) (e : Event) :
  match e with
  | Data chunk => silentOn id (fst (completeLines (outputBuffer s ++ chunk)))
  | _ => True
  end ->
  watched id p d s -> punctual id p d s -> punctual id p d (step parseInt s e).
Proof.
  intros Hsilent HW HP.
  assert (Hcall : isCall e -> punctual id p d (step parseInt s e)).
  { intros Hc. destruct (call_cases e s Hc) as [[v ->]|[key ->]];
      [apply resolved_punctual|apply register_keeps_punctual]; assumption. }
  destruct e as [pattern|handle|chunk|t| | |]; try (apply Hcall; exact I).
  - cbn [step]. unfold onData.
    destruct (completeLines _) as [lines rest]. cbn [fst] in Hsilent.
    apply fold_processLine_punctual; assumption.
  - cbn [step]. unfold elapse.
    assert (H : watched id p d (fireDue t (timers s) s)
                /\ punctual id p d (fireDue t (timers s) s)).
    { apply (fireDue_invariant
               (fun s => watched id p d s /\ punctual id p d s) t);
        [|reflexivity|split; assumption].
      intros s0 tm rest. apply fire_pop_punctual. }
    destruct H as (_ & P1 & P2). unfold punctual. cbn. split; [exact P1|].
    intros Hc. apply P2. lia.
  - destruct HP as (P1 & P2). unfold punctual. cbn. split.
    + intros tm p' Hin Ha. apply schedule_In in Hin.
      destruct Hin as [->|Hin]; [discriminate|]. apply (P1 tm p'); assumption.
    + intros Hc. destruct (P2 Hc) as (Hin & Hcb & Hs).
      unfold waiting. cbn. split; [|split; assumption].
      apply schedule_In. right. assumption.
  - exact HP.
  - exact HP.
Qed.

Lemma run_punctual (events : list Event) :
  forall s, unanswered parseInt id s events ->
            watched id p d s -> punctual id p d s ->
            punctual id p d (run parseInt s events).
Proof.
  induction events as [|e events IH]; intros s Hu HW HP; cbn; [assumption|].
  destruct Hu as (He & Hu). apply IH; [assumption| |].
  - apply step_watched; assumption.
  - apply step_punctual; assumption.
Qed.
End Watched.

(** C8. A geometry call that is sent to the helper and whose correlation
    id is never answered stays pending, its promise unresolved, as long
    as less than 3000 ms have passed since the call; once 3000 ms have
    passed the promise is resolved with null and no entry for that id is
    pending. *)
Theorem unanswered_call_times_out (now0 : Z) (before after : list Event)
    (call : Event) :
  let s1 := run parseInt (create now0) before in
  let s2 := step parseInt s1 call in
  let s3 := run parseInt s2 after in
  isCall call ->
  callId s2 = S (callId s1) ->
  unanswered parseInt (pretty (callId s2)) s2 after ->
  (clock s3 < clock s1 + CALL_TIMEOUT ->
   settled s3 !! promises s1 = None
   /\ is_Some (pendingCallbacks s3 !! pretty (callId s2)))
  /\ (clock s1 + CALL_TIMEOUT <= clock s3 ->
      settled s3 !! promises s1 = Some None
      /\ pendingCallbacks s3 !! pretty (callId s2) = None).
Proof.
  intros s1 s2 s3 Hcall Hid Hu.
  assert (HN : numbered s1)
    by (apply (run_invariant numbered), create_numbered; apply step_numbered).
  assert (HT : ordered s1 /\ ahead s1).
  { apply (run_invariant (fun s => ordered s /\ ahead s)).
    - apply step_timely.
    - split; [constructor|intros tm []]. }
  assert (HT3 : ordered s3 /\ ahead s3).
  { apply (run_invariant (fun s => ordered s /\ ahead s)).
    - apply step_timely.
    - apply step_timely. assumption. }
  assert (HW : watched (pretty (callId s2)) (promises s1)
                       (clock s1 + CALL_TIMEOUT) s2
               /\ punctual (pretty (callId s2)) (promises s1)
                           (clock s1 + CALL_TIMEOUT) s2).
  { destruct (call_cases call s1 Hcall) as [[v Hs]|[key Hs]]; fold s2 in Hs.
    - rewrite Hs in Hid. cbn in Hid. lia.
    - rewrite Hid, Hs.
      split; [apply register_watches|apply register_punctual]; assumption. }
  destruct HW as (HW & HP).
  pose proof (run_punctual _ _ _ after s2 Hu HW HP) as (_ & Hearly).
  pose proof (run_watched _ _ _ after s2 Hu HW) as (_ & _ & _ & _ & Hend).
  fold s3 in Hend, Hearly. split.
  - intros Hc. destruct (Hearly Hc) as (_ & (cb & Hcb & _) & Hs).
    split; [exact Hs|]. exists cb. exact Hcb.
  - intros Hclock. destruct Hend as [(Hin & _)|Hout]; [|exact Hout].
    destruct HT3 as (_ & Hahead). specialize (Hahead _ Hin). cbn in Hahead. lia.
Qed.
End Worker.
End WorkerFacts.

Module Witnesses.
Import JS JSFacts Index DetectionFacts SchedulerFacts TickFacts LockFacts.

(** After [calibration:reset] the next tick calls the locator again. *)
Lemma reset_reopens_detection :
  locatorCallsOf "a" (out (run lockedWorld
                             [CalibrationReset "a" 9000; TimerFire;
                              TickResume (tickSeeing 620)]))
  = S (locatorCallsOf "a" (out lockedWorld)).
Proof. vm_compute. reflexivity. Qed.

(** The witness of C1. *)
Lemma tick_failure_contained_witness :
  isCapturing (engine (step twoClients (TickResume faultyTick))) = false.
Proof.
  assert (Hs : suspended twoClients = ["a"; "b"] :: []) by (vm_compute; reflexivity).
  exact (proj1 (tick_failure_contained twoClients faultyTick ["a"; "b"] [] Hs)).
Defined.
End Witnesses.

Module WorkerWitness.
Import WindowDetectorWorker WorkerFacts.

(** The witness of C8: the helper is ready, a call for the window "Cursor"
    gets the id "1" at time 0, and the helper prints an answer to a call
    "2" only.  At 2999 ms the call is still pending; at 3000 ms it is
    resolved with null. *)
Lemma unanswered_call_times_out_witness :
  let parseInt := fun _ : string => @None Z in
  let s1 := run parseInt (create 0) [Data (endLine "WORKER_READY")] in
  let s2 := step parseInt s1 (FindWindowBounds (Some "Cursor")) in
  let early := run parseInt s2 [Data (endLine "2:10,20,30,40"); Elapse 2999] in
  let late :=
    run parseInt s2 [Data (endLine "2:10,20,30,40"); Elapse 2999; Elapse 3000] in
  (settled early !! promises s1 = None
   /\ is_Some (pendingCallbacks early !! pretty (callId s2)))
  /\ (settled late !! promises s1 = Some None
      /\ pendingCallbacks late !! pretty (callId s2) = None).
Proof.
  intros parseInt s1 s2 early late.
  assert (Hsilent : silentOn (pretty (callId s2))
                      (fst (completeLines
                              (outputBuffer s2 ++ endLine "2:10,20,30,40")))).
  { intros line result Hin. vm_compute in Hin. destruct Hin as [<-|[]].
    vm_compute. intros H. discriminate H. }
  split.
  - apply (unanswered_call_times_out parseInt 0 [Data (endLine "WORKER_READY")]
             [Data (endLine "2:10,20,30,40"); Elapse 2999]
             (FindWindowBounds (Some "Cursor"))).
    + exact I.
    + vm_compute. reflexivity.
    + split; [exact Hsilent|]. split; exact I.
    + vm_compute. reflexivity.
  - apply (unanswered_call_times_out parseInt 0 [Data (endLine "WORKER_READY")]
             [Data (endLine "2:10,20,30,40"); Elapse 2999; Elapse 3000]
             (FindWindowBounds (Some "Cursor"))).
    + exact I.
    + vm_compute. reflexivity.
    + split; [exact Hsilent|]. split; [exact I|]. split; exact I.
    + vm_compute. discriminate.
Defined.
End WorkerWitness.

Module ServerFacts.
Import JS JSFacts Server DetectionFacts SchedulerFacts TickFacts LockFacts.

(** *** What a handler does to a locked client *)




Lemma refreshInterval_quiet (id : string) (s0 : ClientState) (w : World) :
  quiet id s0 w ->
  quiet id s0 (refreshInterval w)
  /\ locatorCallsOf id (out (refreshInterval w)) = locatorCallsOf id (out w).
Proof. intros H. split; [exact H|reflexivity]. Qed.

(** *** A configuration update that keeps the detection mode *)




(** *** The events that spare the lock *)







(** So does a [config:update] of another client that asks for dynamic
    detection: the tenth frame calls the locator again. *)
Lemma detectionMode_unlocks :
  locatorCallsOf "a" (out (world (run lockedServer modeChange)))
  = S (locatorCallsOf "a" (out (world lockedServer))).
Proof. vm_compute. reflexivity. Qed.

End ServerFacts.

Module ColourFacts.
Import JS PaneLocator.

Lemma toInt32_mod (z : Z) : toInt32 z mod 2 ^ 32 = z mod 2 ^ 32.
Proof.
  unfold toInt32.
  rewrite Zminus_mod_idemp_l.
  f_equal. lia.
Qed.

Lemma testbit_toInt32 (z n : Z) :
  0 <= n < 32 -> Z.testbit (toInt32 z) n = Z.testbit z n.
Proof.
  intros Hn.
  rewrite <- (Z.mod_pow2_bits_low (toInt32 z) 32 n) by lia.
  rewrite <- (Z.mod_pow2_bits_low z 32 n) by lia.
  now rewrite toInt32_mod.
Qed.

Lemma testbit_255 (n : Z) : 0 <= n -> Z.testbit 255 n = (n <? 8).
Proof.
  intros Hn. change 255 with (Z.ones 8).
  destruct (Z.ltb_spec n 8).
  - apply Z.ones_spec_low. lia.
  - apply Z.ones_spec_high. lia.
Qed.

Lemma testbit_band_255 (x n : Z) :
  n < 32 -> Z.testbit (band x 255) n = (n <? 8) && Z.testbit x n.
Proof.
  intros Hn.
  destruct (Z.ltb_spec n 0) as [Hneg|Hpos].
  { rewrite !Z.testbit_neg_r by lia. now rewrite andb_false_r. }
  unfold band.
  rewrite Z.land_spec, testbit_toInt32 by lia.
  change (toInt32 255) with 255.
  rewrite testbit_255 by lia. apply andb_comm.
Qed.

Lemma band_255_range (x : Z) : 0 <= band x 255 < 256.
Proof.
  unfold band. change (toInt32 255) with (Z.ones 8).
  rewrite Z.land_ones by lia. apply Z.mod_pos_bound. lia.
Qed.

Lemma testbit_shl (x k m : Z) :
  0 <= k < 32 -> 0 <= m < 32 ->
  Z.testbit (shl x k) m = (k <=? m) && Z.testbit x (m - k).
Proof.
  intros Hk Hm. unfold shl.
  rewrite testbit_toInt32 by lia.
  rewrite Z.mod_small by lia.
  rewrite Z.shiftl_spec by lia.
  destruct (Z.leb_spec k m).
  - rewrite testbit_toInt32 by lia. reflexivity.
  - rewrite Z.testbit_neg_r by lia. reflexivity.
Qed.

Lemma testbit_bor (a b m : Z) :
  0 <= m < 32 -> Z.testbit (bor a b) m = Z.testbit a m || Z.testbit b m.
Proof.
  intros Hm. unfold bor. rewrite Z.lor_spec, !testbit_toInt32 by lia.
  reflexivity.
Qed.

Lemma testbit_toUint32 (a m : Z) :
  0 <= m -> Z.testbit (toUint32 a) m = (m <? 32) && Z.testbit a m.
Proof.
  intros Hm. unfold toUint32.
  destruct (Z.ltb_spec m 32).
  - rewrite Z.mod_pow2_bits_low by lia. reflexivity.
  - rewrite Z.mod_pow2_bits_high by lia. reflexivity.
Qed.

(** The bits of a packed colour: channel [r] in bits 24 to 31, [g] in 16
    to 23, [b] in 8 to 15, [a] in 0 to 7. *)
Lemma rgbaToInt_bits (r g b a m : Z) :
  0 <= m ->
  Z.testbit (rgbaToInt r g b a) m
  = if m <? 8 then Z.testbit a m
    else if m <? 16 then Z.testbit b (m - 8)
    else if m <? 24 then Z.testbit g (m - 16)
    else if m <? 32 then Z.testbit r (m - 24)
    else false.
Proof.
  intros Hm. unfold rgbaToInt.
  rewrite testbit_toUint32 by lia.
  destruct (Z.ltb_spec m 32) as [H32|H32]; cbn [andb].
  - rewrite !testbit_bor, !testbit_shl, !testbit_band_255 by lia.
    destruct (Z.ltb_spec m 8), (Z.ltb_spec m 16), (Z.ltb_spec m 24);
      try lia;
      repeat match goal with
             | |- context [?a <=? ?b] => destruct (Z.leb_spec a b); try lia
             | |- context [?a <? ?b] => destruct (Z.ltb_spec a b); try lia
             end;
      cbn [andb orb];
      rewrite ?orb_false_r, ?andb_false_r, ?orb_false_l; reflexivity.
  - destruct (Z.ltb_spec m 8), (Z.ltb_spec m 16), (Z.ltb_spec m 24);
      reflexivity || lia.
Qed.

Lemma channel_bits (i k n : Z) :
  0 <= k -> 0 <= n ->
  Z.testbit (Z.land (ushr i k) 255) n
  = (n <? 8) && (n + k <? 32) && Z.testbit i (n + k).
Proof.
  intros Hk Hn. unfold ushr.
  rewrite Z.land_spec, Z.shiftr_spec, testbit_255 by lia.
  destruct (Z.ltb_spec (n + k) 32).
  - rewrite Z.mod_pow2_bits_low by lia.
    destruct (n <? 8), (Z.testbit i (n + k)); reflexivity.
  - rewrite Z.mod_pow2_bits_high by lia.
    destruct (n <? 8); reflexivity.
Qed.

Lemma byte_bits (x n : Z) :
  0 <= n -> Z.testbit (x mod 256) n = (n <? 8) && Z.testbit x n.
Proof.
  intros Hn. change 256 with (2 ^ 8).
  destruct (Z.ltb_spec n 8).
  - rewrite Z.mod_pow2_bits_low by lia. reflexivity.
  - rewrite Z.mod_pow2_bits_high by lia. reflexivity.
Qed.

(** X1. Unpacking a packed colour gives each channel back modulo 256:
    the four channels themselves when they are bytes. *)
Theorem intToRGBA_rgbaToInt (r g b a : Z) :
  intToRGBA (rgbaToInt r g b a)
  = {| PaneDetector.r := r mod 256; PaneDetector.g := g mod 256;
       PaneDetector.b := b mod 256; PaneDetector.a := a mod 256 |}.
Proof.
  unfold intToRGBA. f_equal.
  - apply Z.bits_inj'. intros n Hn.
    rewrite channel_bits, byte_bits, rgbaToInt_bits by lia.
    destruct (Z.ltb_spec n 8); cbn [andb]; [|reflexivity].
    destruct (Z.ltb_spec (n + 24) 32); [|lia]. cbn [andb].
    destruct (Z.ltb_spec (n + 24) 8), (Z.ltb_spec (n + 24) 16),
             (Z.ltb_spec (n + 24) 24); try lia.
    f_equal. lia.
  - apply Z.bits_inj'. intros n Hn.
    rewrite channel_bits, byte_bits, rgbaToInt_bits by lia.
    destruct (Z.ltb_spec n 8); cbn [andb]; [|reflexivity].
    destruct (Z.ltb_spec (n + 16) 32); [|lia]. cbn [andb].
    destruct (Z.ltb_spec (n + 16) 8), (Z.ltb_spec (n + 16) 16),
             (Z.ltb_spec (n + 16) 24); try lia.
    f_equal. lia.
  - apply Z.bits_inj'. intros n Hn.
    rewrite channel_bits, byte_bits, rgbaToInt_bits by lia.
    destruct (Z.ltb_spec n 8); cbn [andb]; [|reflexivity].
    destruct (Z.ltb_spec (n + 8) 32); [|lia]. cbn [andb].
    destruct (Z.ltb_spec (n + 8) 8), (Z.ltb_spec (n + 8) 16); try lia.
    f_equal. lia.
  - apply Z.bits_inj'. intros n Hn.
    replace (rgbaToInt r g b a mod 2 ^ 32) with (ushr (rgbaToInt r g b a) 0)
      by (unfold ushr; apply Z.shiftr_0_r).
    rewrite channel_bits, byte_bits, rgbaToInt_bits by lia.
    destruct (Z.ltb_spec n 8); cbn [andb]; [|reflexivity].
    destruct (Z.ltb_spec (n + 0) 32); [|lia]. cbn [andb].
    destruct (Z.ltb_spec (n + 0) 8); try lia.
    f_equal. lia.
Qed.

(** X2. Packing the channels of a pixel gives the pixel back, as an
    unsigned 32-bit integer. *)
Theorem rgbaToInt_intToRGBA (i : Z) :
  let c := intToRGBA i in
  rgbaToInt (PaneDetector.r c) (PaneDetector.g c) (PaneDetector.b c)
            (PaneDetector.a c)
  = i mod 2 ^ 32.
Proof.
  cbn zeta. unfold intToRGBA. cbn [PaneDetector.r PaneDetector.g PaneDetector.b PaneDetector.a].
  apply Z.bits_inj'. intros n Hn.
  rewrite rgbaToInt_bits by lia.
  replace (Z.land (i mod 2 ^ 32) 255) with (Z.land (ushr i 0) 255)
    by (unfold ushr; now rewrite Z.shiftr_0_r).
  destruct (Z.ltb_spec n 8).
  { rewrite channel_bits by lia.
    destruct (Z.ltb_spec n 8); [|lia].
    destruct (Z.ltb_spec (n + 0) 32); [|lia]. cbn [andb].
    rewrite Z.mod_pow2_bits_low by lia. f_equal. lia. }
  destruct (Z.ltb_spec n 16).
  { rewrite channel_bits by lia.
    destruct (Z.ltb_spec (n - 8) 8); [|lia].
    destruct (Z.ltb_spec (n - 8 + 8) 32); [|lia]. cbn [andb].
    rewrite Z.mod_pow2_bits_low by lia. f_equal. lia. }
  destruct (Z.ltb_spec n 24).
  { rewrite channel_bits by lia.
    destruct (Z.ltb_spec (n - 16) 8); [|lia].
    destruct (Z.ltb_spec (n - 16 + 16) 32); [|lia]. cbn [andb].
    rewrite Z.mod_pow2_bits_low by lia. f_equal. lia. }
  destruct (Z.ltb_spec n 32).
  { rewrite channel_bits by lia.
    destruct (Z.ltb_spec (n - 24) 8); [|lia].
    destruct (Z.ltb_spec (n - 24 + 24) 32); [|lia]. cbn [andb].
    rewrite Z.mod_pow2_bits_low by lia. f_equal. lia. }
  rewrite Z.mod_pow2_bits_high by lia. reflexivity.
Qed.

Lemma channel_range (i k : Z) : 0 <= Z.land (ushr i k) 255 < 256.
Proof.
  change 255 with (Z.ones 8). rewrite Z.land_ones by lia.
  apply Z.mod_pos_bound. lia.
Qed.

Lemma alpha_range (i : Z) : 0 <= Z.land (i mod 2 ^ 32) 255 < 256.
Proof.
  change 255 with (Z.ones 8). rewrite Z.land_ones by lia.
  apply Z.mod_pos_bound. lia.
Qed.

(** X3. On the colours of two pixels [colorDiff] lies between 0 and 765;
    it is symmetric, obeys the triangle inequality, and is 0 exactly when
    the two pixels agree in red, green and blue. *)
Theorem colorDiff_metric (i j k : Z) :
  let c1 := intToRGBA i in
  let c2 := intToRGBA j in
  let c3 := intToRGBA k in
  0 <= colorDiff c1 c2 <= 765
  /\ colorDiff c1 c2 = colorDiff c2 c1
  /\ colorDiff c1 c3 <= colorDiff c1 c2 + colorDiff c2 c3
  /\ (colorDiff c1 c2 = 0
      <-> PaneDetector.r c1 = PaneDetector.r c2
          /\ PaneDetector.g c1 = PaneDetector.g c2
          /\ PaneDetector.b c1 = PaneDetector.b c2).
Proof.
  cbn zeta. unfold colorDiff, intToRGBA.
  cbn [PaneDetector.r PaneDetector.g PaneDetector.b].
  pose proof (channel_range i 24). pose proof (channel_range i 16).
  pose proof (channel_range i 8). pose proof (channel_range j 24).
  pose proof (channel_range j 16). pose proof (channel_range j 8).
  pose proof (channel_range k 24). pose proof (channel_range k 16).
  pose proof (channel_range k 8).
  repeat split; lia.
Qed.

End ColourFacts.

Module EdgeFacts.
Import JS JSFacts PaneLocator PaneDetectorFacts.

(** *** The scan positions *)

Lemma countDown_range (fuel : nat) :
  forall p stop q,
    In q (countDown fuel p stop) -> (stop < q)%Q /\ (q <= p)%Q.
Proof.
  induction fuel as [|fuel IH]; intros p stop q Hin; [destruct Hin|].
  cbn [countDown] in Hin.
  destruct (Qgt_bool p stop) eqn:Hgt; [|destruct Hin].
  apply Qgt_bool_iff in Hgt.
  destruct Hin as [<-|Hin].
  - split; [assumption|apply Qle_refl].
  - apply IH in Hin. destruct Hin as [H1 H2]. split; [assumption|].
    eapply Qle_trans; [exact H2|]. lra.
Qed.

Lemma countDown_descending (fuel : nat) :
  forall p stop,
    StronglySorted (fun a b : Q => (b < a)%Q) (countDown fuel p stop).
Proof.
  induction fuel as [|fuel IH]; intros p stop; [constructor|].
  cbn [countDown].
  destruct (Qgt_bool p stop); [|constructor].
  constructor; [apply IH|].
  apply List.Forall_forall. intros q Hq.
  apply countDown_range in Hq. lra.
Qed.

Lemma countDown_nonempty (fuel : nat) (p stop : Q) :
  (stop < p)%Q -> countDown (S fuel) p stop <> [].
Proof.
  intros H. cbn [countDown].
  apply Qgt_bool_iff in H. rewrite H. discriminate.
Qed.

Lemma scanPositions_nonempty (start stop : Q) :
  (stop < start)%Q -> scanPositions start stop <> [].
Proof.
  intros H. unfold scanPositions.
  destruct (Z.to_nat (Qceiling (start - stop))) as [|n] eqn:E.
  - exfalso.
    assert (Hc : (0 < Qceiling (start - stop))%Z).
    { apply Z.lt_nge. intros Hle.
      pose proof (Qle_ceiling (start - stop)) as Hq.
      assert ((inject_Z (Qceiling (start - stop)) <= 0)%Q).
      { change 0%Q with (inject_Z 0). rewrite <- Zle_Qle. exact Hle. }
      lra. }
    lia.
  - apply countDown_nonempty. exact H.
Qed.

(** *** The sample loop *)

Lemma sampleLoop_counts (hit : Q -> bool) :
  forall fuel q limit step c t r,
    sampleLoop hit fuel q limit step c t = Some r ->
    0 <= c <= t -> 0 <= fst r <= snd r.
Proof.
  induction fuel as [|fuel IH]; intros q limit step c t r H Hc;
    cbn [sampleLoop] in H; destruct (Qlt_bool q limit).
  - discriminate.
  - injection H as <-. exact Hc.
  - apply IH in H; [exact H|]. destruct (hit q); lia.
  - injection H as <-. exact Hc.
Qed.

(** With a step that is not positive the loop never ends once entered:
    no amount of fuel lets it return. *)
Lemma sampleLoop_hangs (hit : Q -> bool) :
  forall fuel q limit step c t,
    (step <= 0)%Q -> (q < limit)%Q ->
    sampleLoop hit fuel q limit step c t = None.
Proof.
  induction fuel as [|fuel IH]; intros q limit step c t Hs Hq;
    cbn [sampleLoop]; pose proof Hq as Hb; apply Qlt_bool_iff in Hb;
    rewrite Hb; [reflexivity|].
  apply IH; [assumption|lra].
Qed.


Lemma samples_counts (hit : Q -> bool) (from limit step : Q) (r : Z * Z) :
  samples hit from limit step = Some r -> 0 <= fst r <= snd r.
Proof. intros H. eapply sampleLoop_counts; [exact H|lia]. Qed.

Lemma scoreOf_range (counts : Z * Z) :
  0 <= fst counts <= snd counts ->
  (0 <= scoreOf counts)%Q /\ (scoreOf counts <= 1)%Q.
Proof.
  intros [H0 H1]. unfold scoreOf.
  destruct (Z.ltb_spec 0 (snd counts)) as [Hp|Hp]; [|split; lra].
  assert (Ht : (0 < inject_Z (snd counts))%Q).
  { change 0%Q with (inject_Z 0). rewrite <- Zlt_Qlt. exact Hp. }
  assert (Hc : (0 <= inject_Z (fst counts))%Q).
  { change 0%Q with (inject_Z 0). rewrite <- Zle_Qle. exact H0. }
  assert (Hle : (inject_Z (fst counts) <= inject_Z (snd counts))%Q).
  { rewrite <- Zle_Qle. exact H1. }
  split.
  - apply Qle_shift_div_l; [exact Ht|]. lra.
  - apply Qle_shift_div_r; [exact Ht|]. lra.
Qed.

(** *** The scan *)

Lemma scan_scanned (sampleAt : Q -> option (Z * Z)) (minScore : Q) :
  forall positions edges,
    scan sampleAt minScore positions = Some edges ->
    Forall (scanned sampleAt minScore positions) edges.
Proof.
  induction positions as [|p rest IH]; intros edges H; cbn [scan] in H.
  - injection H as <-. constructor.
  - destruct (sampleAt p) as [counts|] eqn:Hs; [|discriminate].
    destruct (scan sampleAt minScore rest) as [edges'|] eqn:Hr; [|discriminate].
    injection H as <-.
    assert (Hrest : Forall (scanned sampleAt minScore (p :: rest)) edges').
    { eapply List.Forall_impl; [|apply IH; reflexivity].
      intros e [Hin Hc]. split; [right; exact Hin|exact Hc]. }
    destruct (Qge_bool (scoreOf counts) minScore) eqn:Hge; [|exact Hrest].
    constructor; [|exact Hrest].
    split; [left; reflexivity|].
    exists counts. cbn [pos edgeScore]. repeat split; try assumption.
    unfold Qge_bool in Hge. apply Qle_bool_iff in Hge. exact Hge.
Qed.

Lemma scan_descending (sampleAt : Q -> option (Z * Z)) (minScore : Q) :
  forall positions edges,
    StronglySorted (fun a b : Q => (b < a)%Q) positions ->
    scan sampleAt minScore positions = Some edges ->
    StronglySorted descending edges.
Proof.
  induction positions as [|p rest IH]; intros edges Hs H; cbn [scan] in H.
  - injection H as <-. constructor.
  - destruct (sampleAt p) as [counts|]; [|discriminate].
    destruct (scan sampleAt minScore rest) as [edges'|] eqn:Hr; [|discriminate].
    injection H as <-.
    apply StronglySorted_inv in Hs. destruct Hs as [Hs Hp].
    specialize (IH edges' Hs eq_refl).
    destruct (Qge_bool (scoreOf counts) minScore); [|exact IH].
    constructor; [exact IH|].
    pose proof (scan_scanned sampleAt minScore rest edges' Hr) as Hsc.
    rewrite List.Forall_forall in Hsc, Hp |- *.
    intros e He. unfold descending. cbn [pos].
    apply Hp. apply (Hsc e He).
Qed.


Lemma scan_hangs (sampleAt : Q -> option (Z * Z)) (minScore : Q) :
  (forall p, sampleAt p = None) ->
  forall positions, positions <> [] -> scan sampleAt minScore positions = None.
Proof.
  intros Hs positions Hne. destruct positions as [|p rest]; [contradiction|].
  cbn [scan]. rewrite Hs. reflexivity.
Qed.

(** *** The removal of duplicates *)

Lemma mergeInto_In (filtered : list Edge) (edge : Edge) :
  forall f, In f (mergeInto filtered edge) ->
            In f filtered
            \/ (pos f = pos edge /\ edgeScore f = edgeScore edge).
Proof.
  induction filtered as [|existing rest IH]; intros f Hin; cbn [mergeInto] in Hin.
  - destruct Hin as [<-|[]]. right. split; reflexivity.
  - destruct (close existing edge).
    + destruct Hin as [<-|Hin]; [|left; right; exact Hin].
      destruct (Qgt_bool (edgeScore edge) (edgeScore existing)).
      * right. split; reflexivity.
      * left. left. reflexivity.
    + destruct Hin as [<-|Hin]; [left; left; reflexivity|].
      apply IH in Hin. destruct Hin as [Hin|Hin]; [left; right; exact Hin|].
      right. exact Hin.
Qed.

Lemma dedupe_from (edges : list Edge) :
  forall filtered f,
    In f (fold_left mergeInto edges filtered) ->
    (exists e, In e filtered /\ pos f = pos e /\ edgeScore f = edgeScore e)
    \/ (exists e, In e edges /\ pos f = pos e /\ edgeScore f = edgeScore e).
Proof.
  induction edges as [|e rest IH]; intros filtered f Hin; cbn [fold_left] in Hin.
  - left. exists f. repeat split; assumption.
  - apply IH in Hin. destruct Hin as [[e' [Hin [Hp Hs]]]|[e' [Hin [Hp Hs]]]].
    + apply mergeInto_In in Hin. destruct Hin as [Hin|[Hp' Hs']].
      * left. exists e'. repeat split; assumption.
      * right. exists e. split; [left; reflexivity|].
        split; congruence.
    + right. exists e'. split; [right; exact Hin|]. split; assumption.
Qed.

Lemma close_false (e1 e2 : Edge) :
  (pos e2 < pos e1)%Q -> close e1 e2 = false -> (5 <= pos e1 - pos e2)%Q.
Proof.
  intros Hlt Hc. unfold close in Hc. apply Qlt_bool_false in Hc.
  rewrite Qabs_pos in Hc by lra. exact Hc.
Qed.

Lemma close_true (e1 e2 : Edge) :
  (pos e2 < pos e1)%Q -> close e1 e2 = true -> (pos e1 - pos e2 < 5)%Q.
Proof.
  intros Hlt Hc. unfold close in Hc. apply Qlt_bool_iff in Hc.
  rewrite Qabs_pos in Hc by lra. exact Hc.
Qed.

Lemma mergeInto_apart (filtered : list Edge) (edge : Edge) :
  ForallOrdPairs apart filtered ->
  Forall (fun f => (pos edge < pos f)%Q) filtered ->
  ForallOrdPairs apart (mergeInto filtered edge).
Proof.
  induction filtered as [|existing rest IH]; intros Hfop Hall; cbn [mergeInto].
  - constructor; constructor.
  - inversion Hfop as [|? ? Hex Hrest]; subst.
    inversion Hall as [|? ? Hlt Hall']; subst.
    destruct (close existing edge) eqn:Hc.
    + apply close_true in Hc; [|exact Hlt].
      destruct rest as [|r rest'].
      * constructor; constructor.
      * exfalso.
        inversion Hex as [|? ? Har _]; subst.
        inversion Hall' as [|? ? Hr _]; subst.
        unfold apart in Har. lra.
    + apply close_false in Hc; [|exact Hlt].
      constructor; [|apply IH; assumption].
      apply List.Forall_forall. intros f Hf.
      apply mergeInto_In in Hf. destruct Hf as [Hf|[Hp _]].
      * rewrite List.Forall_forall in Hex. apply Hex. exact Hf.
      * unfold apart. rewrite Hp. exact Hc.
Qed.

Lemma dedupe_apart_from (edges : list Edge) :
  forall filtered,
    StronglySorted descending edges ->
    ForallOrdPairs apart filtered ->
    (forall f e, In f filtered -> In e edges -> (pos e < pos f)%Q) ->
    ForallOrdPairs apart (fold_left mergeInto edges filtered).
Proof.
  induction edges as [|e rest IH]; intros filtered Hs Hfop Hbelow;
    cbn [fold_left]; [exact Hfop|].
  apply StronglySorted_inv in Hs. destruct Hs as [Hs He].
  apply IH; [exact Hs| |].
  - apply mergeInto_apart; [exact Hfop|].
    apply List.Forall_forall. intros f Hf. apply (Hbelow f e Hf). left. reflexivity.
  - intros f e' Hf He'.
    apply mergeInto_In in Hf. destruct Hf as [Hf|[Hp _]].
    + apply (Hbelow f e' Hf). right. exact He'.
    + rewrite Hp. rewrite List.Forall_forall in He. apply (He e' He').
Qed.

Lemma dedupe_apart (edges : list Edge) :
  StronglySorted descending edges -> ForallOrdPairs apart (dedupe edges).
Proof.
  intros Hs. unfold dedupe. apply dedupe_apart_from; [exact Hs|constructor|].
  intros f e [].
Qed.

Lemma apart_descending (edges : list Edge) :
  ForallOrdPairs apart edges -> StronglySorted descending edges.
Proof.
  induction 1 as [|e rest Hall _ IH]; constructor; [exact IH|].
  eapply List.Forall_impl; [|exact Hall].
  intros f Hf. unfold apart in Hf. unfold descending. lra.
Qed.

(** A list that already runs from the right to the left is left as it is
    by the final sort. *)
Lemma sort_descending (edges : list Edge) :
  StronglySorted descending edges -> sort byPosDescending edges = edges.
Proof.
  induction 1 as [|e rest Hs IH Hall]; [reflexivity|].
  unfold sort in *. cbn [foldr]. rewrite IH.
  destruct rest as [|f rest']; [reflexivity|].
  cbn [insert_sorted].
  inversion Hall as [|? ? Hf _]; subst.
  unfold descending in Hf.
  assert (Hb : Qlt_bool 0 (byPosDescending e f) = false).
  { apply Qlt_bool_false. unfold byPosDescending. lra. }
  rewrite Hb. reflexivity.
Qed.

(** The shared shape of both detectors: the candidates of the scan, with
    the duplicates removed. *)
Lemma detector_result (sampleAt : Q -> option (Z * Z)) (minScore start stop : Q)
    (candidates : list Edge) :
  scan sampleAt minScore (scanPositions start stop) = Some candidates ->
  sort byPosDescending (dedupe candidates) = dedupe candidates
  /\ ForallOrdPairs apart (dedupe candidates)
  /\ Forall (fun e => (stop < pos e)%Q /\ (pos e <= start)%Q
                      /\ (minScore <= edgeScore e)%Q
                      /\ exists counts, sampleAt (pos e) = Some counts
                                        /\ edgeScore e = scoreOf counts)
            (dedupe candidates).
Proof.
  intros Hscan.
  assert (Hdesc : StronglySorted descending candidates).
  { eapply scan_descending; [|exact Hscan]. apply countDown_descending. }
  pose proof (dedupe_apart candidates Hdesc) as Hap.
  split; [apply sort_descending, apart_descending, Hap|].
  split; [exact Hap|].
  apply List.Forall_forall. intros f Hf.
  unfold dedupe in Hf. apply dedupe_from in Hf.
  destruct Hf as [[e [[] _]]|[e [He [Hp Hs]]]].
  pose proof (scan_scanned _ _ _ _ Hscan) as Hsc.
  rewrite List.Forall_forall in Hsc. destruct (Hsc e He) as [Hin [counts [H1 [H2 H3]]]].
  apply countDown_range in Hin. destruct Hin as [Hlo Hhi].
  rewrite Hp, Hs. repeat split; try assumption.
  exists counts. split; assumption.
Qed.

Lemma findVerticalEdges_scan (image : Image) (options : EdgeOptions) :
  findVerticalEdges image options
  = match scan (fun x => samples (verticalHit image (edgeThreshold options) x)
                                 (marginY options)
                                 (inject_Z (height image) - marginY options)
                                 (sampleStep options))
               (minEdgeScore options)
               (scanPositions (fst (verticalRange image options))
                              (snd (verticalRange image options))) with
    | None => None
    | Some edges => Some (sort byPosDescending (dedupe edges))
    end.
Proof.
  unfold findVerticalEdges, verticalRange.
  destruct (fullWidth options); [reflexivity|].
  destruct (scanRegion options); reflexivity.
Qed.

Lemma findHorizontalEdges_scan (image : Image) (options : EdgeOptions) :
  findHorizontalEdges image options
  = match scan (fun y => samples (horizontalHit image (edgeThreshold options) y)
                                 (marginX options)
                                 (inject_Z (width image) - marginX options)
                                 (sampleStep options))
               (minEdgeScore options)
               (scanPositions (fst (horizontalRange image options))
                              (snd (horizontalRange image options))) with
    | None => None
    | Some edges => Some (sort byPosDescending (dedupe edges))
    end.
Proof.
  unfold findHorizontalEdges, horizontalRange.
  destruct (scanRegion options); reflexivity.
Qed.

Lemma detector_reported (sampleAt : Q -> option (Z * Z)) (minScore : Q)
    (range : Q * Q) (candidates : list Edge) :
  (forall p counts, sampleAt p = Some counts -> 0 <= fst counts <= snd counts) ->
  scan sampleAt minScore (scanPositions (fst range) (snd range)) = Some candidates ->
  Forall (reported range minScore) (sort byPosDescending (dedupe candidates)).
Proof.
  intros Hcounts Hscan.
  destruct (detector_result _ _ _ _ _ Hscan) as [-> [_ Hall]].
  eapply List.Forall_impl; [|exact Hall].
  intros e [H1 [H2 [H3 [counts [H4 H5]]]]].
  repeat split; try assumption.
  rewrite H5. apply scoreOf_range. eapply Hcounts. exact H4.
Qed.

Lemma findVerticalEdges_reported (image : Image) (options : EdgeOptions)
    (edges : list Edge) :
  findVerticalEdges image options = Some edges ->
  Forall (reported (verticalRange image options) (minEdgeScore options)) edges.
Proof.
  intros H. rewrite findVerticalEdges_scan in H.
  destruct (scan _ _ _) as [candidates|] eqn:Hscan; [|discriminate].
  injection H as <-.
  eapply detector_reported; [|exact Hscan].
  intros p counts Hs. cbv beta in Hs. eapply samples_counts. exact Hs.
Qed.

Lemma findHorizontalEdges_reported (image : Image) (options : EdgeOptions)
    (edges : list Edge) :
  findHorizontalEdges image options = Some edges ->
  Forall (reported (horizontalRange image options) (minEdgeScore options)) edges.
Proof.
  intros H. rewrite findHorizontalEdges_scan in H.
  destruct (scan _ _ _) as [candidates|] eqn:Hscan; [|discriminate].
  injection H as <-.
  eapply detector_reported; [|exact Hscan].
  intros p counts Hs. cbv beta in Hs. eapply samples_counts. exact Hs.
Qed.

(** X4. Every edge that [findVerticalEdges] or [findHorizontalEdges]
    returns lies inside the scanned range ([end < position <= start]) and
    has a score between [minEdgeScore] and 1. *)
Theorem findEdges_reported (image : Image) (options : EdgeOptions) :
  (forall edges, findVerticalEdges image options = Some edges ->
     Forall (reported (verticalRange image options) (minEdgeScore options)) edges)
  /\ (forall edges, findHorizontalEdges image options = Some edges ->
        Forall (reported (horizontalRange image options) (minEdgeScore options))
               edges).
Proof.
  split; intros edges H.
  - apply findVerticalEdges_reported. exact H.
  - apply findHorizontalEdges_reported. exact H.
Qed.

(** X5. The edges returned by either detector are listed from the
    right (the bottom) and any two of them lie at least 5 pixels apart:
    the removal of duplicates leaves no two edges within 5 pixels. *)
Theorem findEdges_apart (image : Image) (options : EdgeOptions) :
  (forall edges, findVerticalEdges image options = Some edges ->
                 ForallOrdPairs apart edges)
  /\ (forall edges, findHorizontalEdges image options = Some edges ->
                    ForallOrdPairs apart edges).
Proof.
  split; intros edges H.
  - rewrite findVerticalEdges_scan in H.
    destruct (scan _ _ _) as [candidates|] eqn:Hscan; [|discriminate].
    injection H as <-.
    destruct (detector_result _ _ _ _ _ Hscan) as [-> [Hap _]]. exact Hap.
  - rewrite findHorizontalEdges_scan in H.
    destruct (scan _ _ _) as [candidates|] eqn:Hscan; [|discriminate].
    injection H as <-.
    destruct (detector_result _ _ _ _ _ Hscan) as [-> [Hap _]]. exact Hap.
Qed.





(** X7. With a sample step that is not positive, a detector whose scan
    and sample ranges are not empty never returns: the inner loop does not
    advance, with any amount of fuel. *)
Theorem findVerticalEdges_hangs (image : Image) (options : EdgeOptions) :
  (sampleStep options <= 0)%Q ->
  (marginY options < inject_Z (height image) - marginY options)%Q ->
  (snd (verticalRange image options) < fst (verticalRange image options))%Q ->
  findVerticalEdges image options = None
  /\ forall hit fuel edgeCount totalSamples,
       sampleLoop hit fuel (marginY options)
                  (inject_Z (height image) - marginY options)
                  (sampleStep options) edgeCount totalSamples = None.
Proof.
  intros Hs Hy Hx. split.
  - rewrite findVerticalEdges_scan.
    rewrite scan_hangs; [reflexivity| |apply scanPositions_nonempty; exact Hx].
    intros p. unfold samples. apply sampleLoop_hangs; assumption.
  - intros hit fuel c t. apply sampleLoop_hangs; assumption.
Qed.

Lemma findVerticalEdges_hangs_witness :
  findVerticalEdges (splitImage 100 70 50) stuckOptions = None
  /\ forall hit fuel edgeCount totalSamples,
       sampleLoop hit fuel (marginY stuckOptions)
                  (inject_Z (height (splitImage 100 70 50)) - marginY stuckOptions)
                  (sampleStep stuckOptions) edgeCount totalSamples = None.
Proof.
  apply (findVerticalEdges_hangs (splitImage 100 70 50) stuckOptions).
  - vm_compute. discriminate.
  - vm_compute. reflexivity.
  - vm_compute. reflexivity.
Defined.

End EdgeFacts.

Module LocatorFacts.
Import JS JSFacts PaneLocator PaneDetectorFacts EdgeFacts.

Lemma lowResourceSampleStep_positive (lowResource : bool) :
  (0 < getLowResourceSampleStep lowResource 8)%Q.
Proof. destruct lowResource; vm_compute; reflexivity. Qed.

Lemma findVerticalEdges_blank (image : Image) (options : EdgeOptions) :
  (0 < minEdgeScore options)%Q -> (0 < sampleStep options)%Q ->
  noContrast image (edgeThreshold options) ->
  findVerticalEdges image options = Some [].
Proof.
  intros Hmin Hstep Hflat.
  unfold findVerticalEdges. rewrite scan_no_hit; [reflexivity|assumption|].
  intros p. apply samples_no_hit; [|assumption].
  intros q. apply verticalHit_no_contrast. assumption.
Qed.

Lemma findHorizontalEdges_blank (image : Image) (options : EdgeOptions) :
  (0 < minEdgeScore options)%Q -> (0 < sampleStep options)%Q ->
  noContrast image (edgeThreshold options) ->
  findHorizontalEdges image options = Some [].
Proof.
  intros Hmin Hstep Hflat.
  unfold findHorizontalEdges. rewrite scan_no_hit; [reflexivity|assumption|].
  intros p. apply samples_no_hit; [|assumption].
  intros q. apply horizontalHit_no_contrast. assumption.
Qed.

(** X8. On an image without contrast (no two pixels differ by more than
    20) both locators return [null]. *)
Theorem locators_blank (arraySort : (Edge -> Edge -> Q) -> list Edge -> list Edge)
    (image : Image) (lowResource : bool) (region : option ScanRegion) :
  noContrast image 20 ->
  findChatPaneStructural arraySort image lowResource region = Some None
  /\ findTerminalPane arraySort image lowResource = Some None.
Proof.
  intros Hflat. split.
  - unfold findChatPaneStructural.
    rewrite findVerticalEdges_blank; [reflexivity| | |exact Hflat].
    + reflexivity.
    + apply lowResourceSampleStep_positive.
  - unfold findTerminalPane.
    rewrite findHorizontalEdges_blank; [reflexivity| | |exact Hflat].
    + reflexivity.
    + apply lowResourceSampleStep_positive.
Qed.

Lemma locators_blank_witness :
  findChatPaneStructural (@JS.sort Edge) (greyImage 200 100) false None = Some None
  /\ findTerminalPane (@JS.sort Edge) (greyImage 200 100) false = Some None.
Proof.
  apply (locators_blank (@JS.sort Edge) (greyImage 200 100) false None).
  intros x1 y1 x2 y2. vm_compute. discriminate.
Defined.

Lemma terminalSlice_within (h : Z) (horizontalEdges : list Edge) (s : Slice) :
  terminalSlice h horizontalEdges = Some s ->
  (inject_Z h * (30 # 100) < topSeparatorY s)%Q
  /\ (topSeparatorY s < inject_Z h - 40)%Q
  /\ (120 <= bottomSeparatorY s - topSeparatorY s)%Q
  /\ (bottomSeparatorY s < inject_Z h - 5)%Q.
Proof.
  unfold terminalSlice. destruct horizontalEdges as [|e0 es]; [discriminate|].
  set (hs := e0 :: es).
  destruct (selectTop (topCandidates h hs)) as [topSeparator|] eqn:Et; [|discriminate].
  destruct (Qlt_bool _ 120) eqn:Hh; [discriminate|].
  intros [= <-]. cbn [topSeparatorY bottomSeparatorY].
  apply Qlt_bool_false in Hh.
  unfold selectTop in Et. destruct (topCandidates h hs) as [|c0 rest] eqn:Ec;
    [discriminate|].
  injection Et as <-.
  pose proof (walkUp_In c0 rest c0 c0) as Hin. rewrite <- Ec in Hin.
  unfold topCandidates in Hin.
  apply (Permutation_in _ (sort_perm byPosDescending _)) in Hin.
  apply filter_In in Hin. destruct Hin as (_ & Hrange).
  apply andb_true_iff in Hrange. destruct Hrange as (Hlow & Hhigh).
  apply Qgt_bool_iff in Hlow. apply Qlt_bool_iff in Hhigh.
  repeat split; try assumption.
  set (top := walkUp c0 c0 c0 rest) in *.
  assert (Hb : forall b, In b (bottomCandidates h (pos top) hs) ->
                         (pos b < inject_Z h - 5)%Q).
  { intros b Hb. unfold bottomCandidates in Hb.
    apply (Permutation_in _ (sort_perm byPosDescending _)) in Hb.
    apply filter_In in Hb. destruct Hb as (_ & Hr).
    unfold inBottomRange in Hr. apply andb_true_iff in Hr.
    destruct Hr as (_ & Hr). apply Qlt_bool_iff in Hr. exact Hr. }
  destruct (bottomCandidates h (pos top) hs) as [|b0 [|b1 more]];
    cbn [selectBottomY].
  - lra.
  - apply Hb. left. reflexivity.
  - destruct (_ && _).
    + apply Hb. right. left. reflexivity.
    + apply Hb. left. reflexivity.
Qed.

Section Locators.

Variable arraySort : (Edge -> Edge -> Q) -> list Edge -> list Edge.

(** The sort rearranges the array. *)
Hypothesis arraySort_perm :
  forall cmp l, Permutation (arraySort cmp l) l.

Lemma firstPos_cases (keep : Edge -> bool) (edges : list Edge) (fallback : Q) :
  firstPos (arraySort byScoreThenPos (List.filter keep edges)) fallback = fallback
  \/ exists e, In e edges /\ keep e = true
               /\ firstPos (arraySort byScoreThenPos (List.filter keep edges))
                           fallback = pos e.
Proof.
  destruct (arraySort byScoreThenPos (List.filter keep edges)) as [|e rest] eqn:E.
  - left. reflexivity.
  - right. exists e.
    assert (Hin : In e (arraySort byScoreThenPos (List.filter keep edges)))
      by (rewrite E; left; reflexivity).
    apply (Permutation_in _ (arraySort_perm _ _)) in Hin.
    apply filter_In in Hin. destruct Hin as [H1 H2].
    repeat split; assumption.
Qed.


(** X10. A pane returned by [findTerminalPane] starts below 30% of the
    image height and above the 40 pixels of the status bar, is at least
    120 pixels high and ends more than 5 pixels above the image bottom;
    its left side is the image's or an edge between 2% and 60% of the
    width, its right side the image's or an edge between 40% and 98% of
    the width. *)
Theorem findTerminalPane_pane (image : Image) (lowResource : bool)
    (pane : ConfigManager.Rect) :
  findTerminalPane arraySort image lowResource = Some (Some pane) ->
  let w := inject_Z (width image) in
  let h := inject_Z (height image) in
  (h * (30 # 100) < ConfigManager.y pane)%Q
  /\ (ConfigManager.y pane < h - 40)%Q
  /\ (120 <= ConfigManager.height pane)%Q
  /\ (ConfigManager.y pane + ConfigManager.height pane < h - 5)%Q
  /\ (ConfigManager.x pane = 0%Q
      \/ (w * (2 # 100) < ConfigManager.x pane)%Q
         /\ (ConfigManager.x pane < w * (6 # 10))%Q)
  /\ ((ConfigManager.x pane + ConfigManager.width pane == w)%Q
      \/ (w * (4 # 10) < ConfigManager.x pane + ConfigManager.width pane)%Q
         /\ (ConfigManager.x pane + ConfigManager.width pane < w * (98 # 100))%Q).
Proof.
  intros H. cbn zeta.
  unfold findTerminalPane in H.
  destruct (findHorizontalEdges image (terminalEdgeOptions lowResource None))
    as [hEdges|]; [|discriminate].
  destruct (terminalSlice (height image) hEdges) as [slice|] eqn:Hs;
    [|discriminate].
  destruct (Qlt_bool _ 30); [discriminate|].
  destruct (findVerticalEdges _ sliceEdgeOptions) as [vEdges|]; [|discriminate].
  injection H as <-.
  apply terminalSlice_within in Hs. destruct Hs as [H1 [H2 [H3 H4]]].
  unfold terminalPane.
  cbn [ConfigManager.x ConfigManager.y ConfigManager.width ConfigManager.height].
  split; [exact H1|]. split; [exact H2|]. split; [exact H3|].
  split; [lra|].
  split.
  - destruct (firstPos_cases (leftCandidate (width image)) vEdges 0)
      as [->|[e [_ [Hk ->]]]]; [left; reflexivity|right].
    unfold leftCandidate in Hk. apply andb_true_iff in Hk.
    destruct Hk as [Ha Hb]. apply Qgt_bool_iff in Ha. apply Qlt_bool_iff in Hb.
    split; assumption.
  - destruct (firstPos_cases (rightCandidate (width image)) vEdges
                             (inject_Z (width image)))
      as [->|[e [_ [Hk ->]]]]; [left; ring|right].
    unfold rightCandidate in Hk. apply andb_true_iff in Hk.
    destruct Hk as [Ha Hb]. apply Qlt_bool_iff in Ha. apply Qgt_bool_iff in Hb.
    split; lra.
Qed.

End Locators.


Lemma findTerminalPane_pane_witness :
  let pane := {| ConfigManager.x := 0; ConfigManager.y := 147;
                 ConfigManager.width := 80; ConfigManager.height := 128 |} in
  let image := layeredImage 80 300 150 in
  let w := inject_Z (width image) in
  let h := inject_Z (height image) in
  (h * (30 # 100) < ConfigManager.y pane)%Q
  /\ (ConfigManager.y pane < h - 40)%Q
  /\ (120 <= ConfigManager.height pane)%Q
  /\ (ConfigManager.y pane + ConfigManager.height pane < h - 5)%Q
  /\ (ConfigManager.x pane = 0%Q
      \/ (w * (2 # 100) < ConfigManager.x pane)%Q
         /\ (ConfigManager.x pane < w * (6 # 10))%Q)
  /\ ((ConfigManager.x pane + ConfigManager.width pane == w)%Q
      \/ (w * (4 # 10) < ConfigManager.x pane + ConfigManager.width pane)%Q
         /\ (ConfigManager.x pane + ConfigManager.width pane < w * (98 # 100))%Q).
Proof.
  apply (findTerminalPane_pane (@JS.sort Edge) (@sort_perm Edge)
           (layeredImage 80 300 150) false).
  vm_compute. reflexivity.
Defined.

End LocatorFacts.

Module ClientFacts.
Import JS JSFacts Input DetectionFacts SchedulerFacts TickFacts LockFacts.

(** *** The engine streams while clients are connected *)

Lemma update_nil (id : string) (f : ClientState -> ClientState) (cs : Clients) :
  update id f cs = [] <-> cs = [].
Proof.
  destruct cs as [|s rest]; [split; reflexivity|]. cbn [update].
  destruct (hasId id s); split; discriminate.
Qed.

Lemma ids_nil (cs cs' : Clients) :
  List.map socketId cs' = List.map socketId cs -> (cs' = [] <-> cs = []).
Proof.
  intros H. destruct cs, cs'; try discriminate; split; intros E;
    try discriminate E; reflexivity.
Qed.

Lemma tickBody_ids (st : Store) (e : Engine) (env : TickEnv) (ids : list string)
    (o : Output) :
  List.map socketId (o_clients (tickBody st e env ids o))
  = List.map socketId (o_clients o).
Proof.
  unfold tickBody. destruct (snapshot env) as [[sw sh]|]; [|reflexivity].
  destruct (clientLoop _ _ _ _ _ _ _ _) as [o1 r] eqn:E.
  apply clientLoop_frames in E. destruct E as [Hids _].
  destruct r as [[id f]|]; exact Hids.
Qed.

Lemma updateInterval_streaming (st : Store) (cs : Clients) (e : Engine) :
  isStreaming (updateInterval st cs e) = isStreaming e
  /\ (isStreaming (updateInterval st cs e) = true
      <-> is_Some (streamInterval (updateInterval st cs e))).
Proof.
  unfold updateInterval. destruct (isStreaming e) eqn:E; cbn; split; trivial.
  - split; [eauto|reflexivity].
  - split; [discriminate|]. intros [? [=]].
Qed.

Lemma timerFire_engine (w : World) :
  isStreaming (engine (timerFire w)) = isStreaming (engine w)
  /\ streamInterval (engine (timerFire w)) = streamInterval (engine w)
  /\ o_clients (out (timerFire w)) = o_clients (out w).
Proof.
  unfold timerFire.
  destruct (streamInterval (engine w)) eqn:Ei; [|auto].
  destruct (isCapturing (engine w)); [auto|].
  cbn zeta. destruct (activeLinkClients (o_clients (out w))); cbn; auto.
Qed.

Lemma step_streaming (w : World) (ev : Event) :
  streamingWhileConnected w -> streamingWhileConnected (step w ev).
Proof.
  intros [Htimer Hconn]. unfold streamingWhileConnected.
  destruct ev as [|env|id now|id|id mode now|id now|id now|id src now|lookups|now];
    cbn [step].
  - destruct (timerFire_engine w) as [-> [-> ->]]. split; assumption.
  - unfold tickResume. destruct (suspended w) as [|ids rest]; [split; assumption|].
    cbn. split; [exact Htimer|].
    intros Hne. apply Hconn. intros Hnil. apply Hne.
    apply (ids_nil _ _ (tickBody_ids (store w) (engine w) env ids (out w))).
    exact Hnil.
  - cbn. unfold start.
    destruct (isStreaming (engine w)) eqn:Es.
    + cbn. rewrite Es. split; [exact Htimer|reflexivity].
    + unfold updateInterval. cbn. split; [|reflexivity].
      split; [eauto|reflexivity].
  - destruct (removeClient (o_clients (out w)) id) as [|c cs] eqn:Er.
    + cbn. unfold stop. destruct (isStreaming (engine w)) eqn:Es; cbn.
      * split; [|intros []; reflexivity]. split; [discriminate|intros [? [=]]].
      * rewrite Es. split; [exact Htimer|intros []; reflexivity].
    + unfold refreshInterval. cbn.
      destruct (updateInterval_streaming
                  (removeClientConfig id (store w)) (c :: cs) (engine w))
        as [Hs Ht].
      split; [exact Ht|]. intros _. rewrite Hs. apply Hconn.
      intros Hnil. rewrite Hnil in Er. discriminate.
  - unfold refreshInterval, onClient. cbn.
    destruct (updateInterval_streaming (store w)
                (update id (setMode (store w) now mode) (o_clients (out w)))
                (engine w)) as [Hs Ht].
    split; [exact Ht|]. intros Hne. rewrite Hs. apply Hconn.
    intros Hnil. apply Hne. apply update_nil. exact Hnil.
  - unfold onClient. cbn. split; [exact Htimer|].
    intros Hne. apply Hconn. intros Hnil. apply Hne. apply update_nil. exact Hnil.
  - unfold onClient. cbn. split; [exact Htimer|].
    intros Hne. apply Hconn. intros Hnil. apply Hne. apply update_nil. exact Hnil.
  - unfold refreshInterval, onClient. cbn.
    destruct (updateInterval_streaming (store w)
                (update id (fun s => set_streamSource src (updateActivity now s))
                        (o_clients (out w)))
                (engine w)) as [Hs Ht].
    split; [exact Ht|]. intros Hne. rewrite Hs. apply Hconn.
    intros Hnil. apply Hne. apply update_nil. exact Hnil.
  - unfold detectionCycle. cbn.
    assert (He : forall e0, isStreaming e0 = isStreaming (engine w) ->
                            streamInterval e0 = streamInterval (engine w) ->
                            (isStreaming e0 = true <-> is_Some (streamInterval e0)))
      by (intros e0 -> ->; exact Htimer).
    destruct (globalFound lookups); cbn; (split; [exact Htimer|]);
      intros Hne; apply Hconn; intros Hnil; apply Hne; rewrite Hnil; reflexivity.
  - cbn. split; [exact Htimer|].
    intros Hne. apply Hconn. intros Hnil. apply Hne.
    unfold checkInactivity. rewrite Hnil. reflexivity.
Qed.

Lemma boot_streaming (st : Store) : streamingWhileConnected (boot st).
Proof.
  unfold streamingWhileConnected, boot. cbn.
  split; [|intros H; contradiction].
  split; [eauto|reflexivity].
Qed.

Lemma run_streaming (events : list Event) :
  forall w, streamingWhileConnected w -> streamingWhileConnected (run w events).
Proof.
  induction events as [|ev rest IH]; intros w H; [exact H|].
  cbn [run fold_left]. apply IH. apply step_streaming. exact H.
Qed.

(** X11. From boot on, whatever the clients and the timers do, the
    capture timer is set exactly while the engine is streaming, the engine
    is streaming whenever a client is connected, and the disconnect of the
    last client stops it and clears the timer. *)
Theorem streaming_while_connected (st : Store) (events : list Event) :
  let w := run (boot st) events in
  (isStreaming (engine w) = true <-> is_Some (streamInterval (engine w)))
  /\ (o_clients (out w) <> [] -> isStreaming (engine w) = true)
  /\ forall id,
       o_clients (out (step w (Disconnect id))) = [] ->
       isStreaming (engine (step w (Disconnect id))) = false
       /\ streamInterval (engine (step w (Disconnect id))) = None.
Proof.
  cbn zeta.
  pose proof (run_streaming events (boot st) (boot_streaming st)) as [Ht Hc].
  split; [exact Ht|]. split; [exact Hc|].
  intros id. set (w := run (boot st) events) in *.
  cbn [step].
  destruct (removeClient (o_clients (out w)) id) as [|c cs] eqn:Er.
  - intros _. cbn. unfold stop.
    destruct (isStreaming (engine w)) eqn:Es; cbn; [split; reflexivity|].
    rewrite Es. split; [reflexivity|].
    destruct (streamInterval (engine w)) as [q|] eqn:Ei; [exfalso|reflexivity].
    cut (false = true); [discriminate|].
    apply Ht. rewrite ?Ei. eauto.
  - unfold refreshInterval. cbn. discriminate.
Qed.

(** *** Inactivity *)

Lemma resetDetectionState_keeps (s : ClientState) :
  socketId (resetDetectionState s) = socketId s
  /\ viewMode (resetDetectionState s) = viewMode s
  /\ fixedChatZone (resetDetectionState s) = fixedChatZone s
  /\ fixedTerminalZone (resetDetectionState s) = fixedTerminalZone s.
Proof. repeat split. Qed.

Lemma setMode_keeps (store : Store) (now : Z) (mode : string) (s : ClientState) :
  socketId (setMode store now mode s) = socketId s
  /\ viewMode (setMode store now mode s) = mode
  /\ fixedChatZone (setMode store now mode s) = fixedChatZone s
  /\ fixedTerminalZone (setMode store now mode s) = fixedTerminalZone s.
Proof.
  unfold setMode.
  destruct (isPaneMode mode && negb (viewMode s =? mode)%string);
    [|repeat split].
  destruct (e_detectionMode _ =? "fixed")%string; [|repeat split].
  unfold restoreOrReset.
  destruct (mode =? "chat")%string.
  - destruct (fixedChatZone s) eqn:Ec; cbn; rewrite ?Ec; auto.
  - destruct (mode =? "terminal")%string; [|repeat split].
    destruct (fixedTerminalZone s) eqn:Et; cbn; rewrite ?Et; auto.
Qed.





(** *** Mode switches *)

(** X14. In fixed detection mode a locked zone survives a change of view
    mode: leaving chat (or terminal) for any other mode and coming back
    restores the stable pane from the saved zone, with calibration off and
    the stability count at 3, so that no detection has to run again.  In
    dynamic mode the same round trip resets the pane and restarts
    calibration. *)
Theorem setMode_round_trip (store : Store) (s : ClientState) (mode target : string)
    (t1 t2 : Z) :
  isPaneMode target = true -> mode <> target ->
  let back := setMode store t2 target (setMode store t1 mode s) in
  viewMode back = target
  /\ (fixedMode store s = true ->
      (forall zx, target = "chat" -> fixedChatZone s = Some zx ->
         stablePaneX back = zx /\ lastPaneX back = zx
         /\ stabilityCount back = 3 /\ calibrationMode back = false)
      /\ (forall z, target = "terminal" -> fixedTerminalZone s = Some z ->
            stablePaneX back = fz_stablePaneX z /\ stablePaneY back = fz_stablePaneY z
            /\ stablePaneW back = fz_stablePaneW z
            /\ stablePaneH back = fz_stablePaneH z
            /\ stabilityCount back = 3 /\ calibrationMode back = false))
  /\ (fixedMode store s = false ->
      stablePaneX back = (-1)%Q /\ stablePaneY back = (-1)%Q
      /\ stabilityCount back = 0 /\ calibrationMode back = true
      /\ calibrationStartTime back = None).
Proof.
  intros Hpane Hne. cbn zeta.
  destruct (setMode_keeps store t1 mode s) as [Hid [Hvm [Hcz Htz]]].
  set (away := setMode store t1 mode s) in *.
  assert (Hfm : fixedMode store away = fixedMode store s)
    by (apply fixedMode_same; exact Hid).
  assert (Hneq : (mode =? target)%string = false)
    by (apply String.eqb_neq; exact Hne).
  split; [apply setMode_keeps|].
  split.
  - intros Hfixed. rewrite <- Hfm in Hfixed. unfold fixedMode in Hfixed. split.
    + intros zx -> Hz. unfold setMode.
      rewrite Hvm, Hneq, Hpane. cbn [andb negb].
      rewrite Hfixed. unfold restoreOrReset.
      change ("chat" =? "chat")%string with true. cbn iota.
      rewrite Hcz, Hz. repeat split.
    + intros z -> Hz. unfold setMode.
      rewrite Hvm, Hneq, Hpane. cbn [andb negb].
      rewrite Hfixed. unfold restoreOrReset.
      change ("terminal" =? "chat")%string with false.
      change ("terminal" =? "terminal")%string with true. cbn iota.
      rewrite Htz, Hz. repeat split.
  - intros Hdyn. rewrite <- Hfm in Hdyn. unfold fixedMode in Hdyn.
    unfold setMode. rewrite Hvm, Hpane, Hneq. cbn [andb negb].
    rewrite Hdyn. repeat split.
Qed.

Lemma setMode_round_trip_witness :
  let back := setMode fixedStore 200 "chat"
                      (setMode fixedStore 100 "terminal" lockedState) in
  viewMode back = "chat"
  /\ (fixedMode fixedStore lockedState = true ->
      (forall zx, "chat" = "chat" -> fixedChatZone lockedState = Some zx ->
         stablePaneX back = zx /\ lastPaneX back = zx
         /\ stabilityCount back = 3 /\ calibrationMode back = false)
      /\ (forall z, "chat" = "terminal" -> fixedTerminalZone lockedState = Some z ->
            stablePaneX back = fz_stablePaneX z /\ stablePaneY back = fz_stablePaneY z
            /\ stablePaneW back = fz_stablePaneW z
            /\ stablePaneH back = fz_stablePaneH z
            /\ stabilityCount back = 3 /\ calibrationMode back = false))
  /\ (fixedMode fixedStore lockedState = false ->
      stablePaneX back = (-1)%Q /\ stablePaneY back = (-1)%Q
      /\ stabilityCount back = 0 /\ calibrationMode back = true
      /\ calibrationStartTime back = None).
Proof.
  apply (setMode_round_trip fixedStore lockedState "terminal" "chat" 100 200).
  - reflexivity.
  - discriminate.
Defined.

End ClientFacts.

Module InputFacts.
Import JS JSFacts Input DetectionFacts IndexFacts TickFacts LockFacts ClientFacts.

(** *** A click on a frame *)

Lemma observeChat_viewMode (f : bool) (p : Rect) (s : ClientState) :
  viewMode (observeChat f p s) = viewMode s.
Proof.
  unfold observeChat.
  repeat (match goal with
          | |- context [if ?c then _ else _] => destruct c
          end; cbn); reflexivity.
Qed.

Lemma observeTerminal_viewMode (f : bool) (p : Rect) (s : ClientState) :
  viewMode (observeTerminal f p s) = viewMode s.
Proof.
  unfold observeTerminal.
  repeat (match goal with
          | |- context [if ?c then _ else _] => destruct c
          end; cbn); reflexivity.
Qed.

Lemma performPaneDetection_viewMode (st : Store) (cenv : ClientEnv) (s : ClientState) :
  viewMode (d_state (performPaneDetection st cenv s)) = viewMode s.
Proof.
  destruct (beginDetection_keeps cenv s) as (_ & Hvm & _).
  unfold performPaneDetection.
  set (s1 := beginDetection cenv s) in *.
  destruct (fastExit (fixedMode st s1) s1); [exact Hvm|].
  destruct (negb (shouldRunDetection s1)); [exact Hvm|].
  destruct (isChat s1 || isTerminal s1); [|exact Hvm].
  destruct (throws cenv DetectionFault); [exact Hvm|].
  destruct (located cenv) as [p|]; [|exact Hvm].
  cbn [d_state returned].
  destruct (isChat s1);
    rewrite ?observeChat_viewMode, ?observeTerminal_viewMode; exact Hvm.
Qed.

(** The scale applied to a frame before it is encoded. *)
Lemma processClient_emitted (st : Store) (e : Engine) (sw sh : Z) (dpi : Scale)
    (cenv : ClientEnv) (s : ClientState) (f : Frame) :
  let p := processClient st e sw sh dpi cenv s in
  p_result p = Emitted f ->
  socketId (p_state p) = socketId s
  /\ viewMode (p_state p) = viewMode s
  /\ exists final,
      lastCaptureArea (p_state p) = Some final
      /\ frame_area f = snd (manualCrop (getEffectiveConfigOf st s) final)
      /\ frame_scale f
         = (if lowResourceMode (global st)
               && Qlt_bool (imageDownscale (global st)) 1
            then imageDownscale (global st) else 1%Q).
Proof.
  cbn zeta. intros H.
  split; [apply processClient_socketId|].
  revert H. unfold processClient.
  destruct (throws cenv BaseCropFault); [discriminate|].
  set (d := if bool_decide (is_Some (detectedWindow s)) && isPaneMode (viewMode s)
            then performPaneDetection st cenv s else returned s 0).
  assert (Hd : viewMode (d_state d) = viewMode s).
  { unfold d. destruct (bool_decide (is_Some (detectedWindow s))
                        && isPaneMode (viewMode s));
      [apply performPaneDetection_viewMode|reflexivity]. }
  clearbody d.
  destruct (d_threw d); [discriminate|].
  destruct (stableCrop _ (d_state d)) as [cropped final].
  destruct (cropped && throws cenv PaneCropFault); [discriminate|].
  destruct (manualCrop _ final) as [cut shown] eqn:Em.
  destruct (cut && throws cenv ManualCropFault); [discriminate|].
  destruct (throws cenv EncodeFault); [discriminate|].
  cbn [p_result p_state]. intros [= <-].
  split; [exact Hd|].
  exists final. cbn [frame_area frame_scale snd]. repeat split.
  rewrite Em. reflexivity.
Qed.

Lemma manualCrop_fit (config : EffectiveConfig) (final : Rect) :
  marginsFit config final ->
  manualCrop config final
  = (true, {| x := x final + cropLeft config; y := y final + cropTop config;
              width := width final - cropLeft config - cropRight config;
              height := height final - cropTop config - cropBottom config |}).
Proof.
  intros [Hw Hh]. unfold manualCrop.
  apply Qgt_bool_iff in Hw. apply Qgt_bool_iff in Hh.
  rewrite Hw, Hh. reflexivity.
Qed.

Lemma manualCrop_misfit (config : EffectiveConfig) (final : Rect) :
  ~ marginsFit config final -> manualCrop config final = (false, final).
Proof.
  intros Hn. unfold manualCrop.
  destruct (Qgt_bool _ 0) eqn:Hh; [|reflexivity].
  destruct (Qgt_bool (width final - _ - _) 0) eqn:Hw; [|reflexivity].
  exfalso. apply Hn. apply Qgt_bool_iff in Hh. apply Qgt_bool_iff in Hw.
  split; assumption.
Qed.

Lemma downscale_agrees (st : Store) :
  (lowResourceMode (global st) = true -> (imageDownscale (global st) <= 1)%Q) ->
  ((if lowResourceMode (global st) && Qlt_bool (imageDownscale (global st)) 1
    then imageDownscale (global st) else 1) == clickDownscale st)%Q.
Proof.
  intros H. unfold clickDownscale.
  destruct (lowResourceMode (global st)); [|reflexivity]. cbn [andb].
  destruct (Qlt_bool (imageDownscale (global st)) 1) eqn:E; [reflexivity|].
  apply Qlt_bool_false in E. specialize (H eq_refl). lra.
Qed.

Lemma inputClick_records (st : Store) (env : ClickEnv) (now : Z) (u v : Q)
    (s : ClientState) (area : Rect) (w h : Z) :
  lastCaptureArea s = Some area ->
  click_snapshot env = Some (w, h) ->
  let absolute := absolutePosition st (getEffectiveConfigOf st s) area (u, v) in
  lastClickPos (fst (inputClick st env now (Some (u, v)) s))
  = Some {| click_x := fst absolute; click_y := snd absolute; click_time := now |}
  /\ snd (inputClick st env now (Some (u, v)) s)
     = Some (logicalPosition
               (getDpiScale (fst (click_logicalScreen env))
                            (snd (click_logicalScreen env)) w h) absolute).
Proof.
  intros Ha Hs. cbn zeta. unfold inputClick.
  change (lastCaptureArea (updateActivity now s)) with (lastCaptureArea s).
  rewrite Ha, Hs. split; reflexivity.
Qed.

(** X15. A click on a pixel of the frame a client was sent lands on the
    pixel of the screen that the frame shows there: when the configured
    margins fit into the captured region, the position recorded by
    [input:click] is the frame's origin plus the click divided by the
    frame's scale.  (In low-resource mode the downscale factor must not
    exceed 1.) *)
Theorem click_hits_frame (st : Store) (e : Engine) (sw sh : Z) (dpi : Scale)
    (cenv : ClientEnv) (s : ClientState) (f : Frame) (area : Rect)
    (env : ClickEnv) (now : Z) (u v : Q) (w h : Z) :
  let p := processClient st e sw sh dpi cenv s in
  p_result p = Emitted f ->
  lastCaptureArea (p_state p) = Some area ->
  marginsFit (getEffectiveConfigOf st (p_state p)) area ->
  (lowResourceMode (global st) = true -> (imageDownscale (global st) <= 1)%Q) ->
  click_snapshot env = Some (w, h) ->
  exists c,
    lastClickPos (fst (inputClick st env now (Some (u, v)) (p_state p))) = Some c
    /\ (click_x c == fst (framePixel f u v))%Q
    /\ (click_y c == snd (framePixel f u v))%Q
    /\ snd (inputClick st env now (Some (u, v)) (p_state p))
       = Some (logicalPosition
                 (getDpiScale (fst (click_logicalScreen env))
                              (snd (click_logicalScreen env)) w h)
                 (click_x c, click_y c)).
Proof.
  cbn zeta. intros Hf Ha Hfit Hlow Hs.
  destruct (processClient_emitted st e sw sh dpi cenv s f Hf)
    as [Hid [Hvm [final [Hfinal [Harea Hscale]]]]].
  rewrite Ha in Hfinal. injection Hfinal as <-.
  set (s2 := p_state (processClient st e sw sh dpi cenv s)) in *.
  assert (Hcfg : getEffectiveConfigOf st s2 = getEffectiveConfigOf st s)
    by (unfold getEffectiveConfigOf; rewrite Hid, Hvm; reflexivity).
  destruct (inputClick_records st env now u v s2 area w h Ha Hs) as [Hc Hm].
  eexists. split; [exact Hc|].
  cbn [click_x click_y]. rewrite Hcfg in *.
  rewrite (manualCrop_fit _ _ Hfit) in Harea. cbn [snd] in Harea.
  unfold framePixel. rewrite Harea, Hscale. cbn [x y fst snd absolutePosition].
  pose proof (downscale_agrees st Hlow) as Hd.
  split; [|split].
  - unfold absolutePosition. cbn [fst]. rewrite Hd. ring.
  - unfold absolutePosition. cbn [snd]. rewrite Hd. ring.
  - rewrite Hm. reflexivity.
Qed.

Lemma click_hits_frame_witness :
  let f := {| frame_area := {| x := 0; y := 40; width := 800; height := 520 |};
              frame_quality := 70; frame_scale := 1 |} in
  let s2 := p_state (processClient defaultStore newEngine 1920 1080
                       (getDpiScale 1920 1080 1920 1080) calmTurn
                       (createDefaultClientState "a" 0)) in
  exists c,
    lastClickPos (fst (inputClick defaultStore sameScale 5 (Some (10, 20)%Q) s2))
    = Some c
    /\ (click_x c == fst (framePixel f 10 20))%Q
    /\ (click_y c == snd (framePixel f 10 20))%Q
    /\ snd (inputClick defaultStore sameScale 5 (Some (10, 20)%Q) s2)
       = Some (logicalPosition
                 (getDpiScale (fst (click_logicalScreen sameScale))
                              (snd (click_logicalScreen sameScale)) 1920 1080)
                 (click_x c, click_y c)).
Proof.
  apply (click_hits_frame defaultStore newEngine 1920 1080
           (getDpiScale 1920 1080 1920 1080) calmTurn
           (createDefaultClientState "a" 0)
           {| frame_area := {| x := 0; y := 40; width := 800; height := 520 |};
              frame_quality := 70; frame_scale := 1 |}
           {| x := 0; y := 0; width := 800; height := 600 |}
           sameScale 5 10 20 1920 1080).
  - vm_compute. reflexivity.
  - vm_compute. reflexivity.
  - split; vm_compute; reflexivity.
  - discriminate.
  - reflexivity.
Defined.

(** X16. When the configured margins do not fit into the captured region
    the frame is sent uncropped, but [input:click] still adds the margins:
    the recorded position is off the clicked pixel by
    [(cropLeft, cropTop)]. *)
Theorem click_misses_uncropped_frame (st : Store) (e : Engine) (sw sh : Z)
    (dpi : Scale) (cenv : ClientEnv) (s : ClientState) (f : Frame) (area : Rect)
    (env : ClickEnv) (now : Z) (u v : Q) (w h : Z) :
  let p := processClient st e sw sh dpi cenv s in
  let config := getEffectiveConfigOf st (p_state p) in
  p_result p = Emitted f ->
  lastCaptureArea (p_state p) = Some area ->
  ~ marginsFit config area ->
  (lowResourceMode (global st) = true -> (imageDownscale (global st) <= 1)%Q) ->
  click_snapshot env = Some (w, h) ->
  frame_area f = area
  /\ exists c,
      lastClickPos (fst (inputClick st env now (Some (u, v)) (p_state p))) = Some c
      /\ (click_x c == fst (framePixel f u v) + cropLeft config)%Q
      /\ (click_y c == snd (framePixel f u v) + cropTop config)%Q.
Proof.
  cbn zeta. intros Hf Ha Hfit Hlow Hs.
  destruct (processClient_emitted st e sw sh dpi cenv s f Hf)
    as [Hid [Hvm [final [Hfinal [Harea Hscale]]]]].
  rewrite Ha in Hfinal. injection Hfinal as <-.
  set (s2 := p_state (processClient st e sw sh dpi cenv s)) in *.
  assert (Hcfg : getEffectiveConfigOf st s2 = getEffectiveConfigOf st s)
    by (unfold getEffectiveConfigOf; rewrite Hid, Hvm; reflexivity).
  destruct (inputClick_records st env now u v s2 area w h Ha Hs) as [Hc Hm].
  rewrite Hcfg in *.
  rewrite (manualCrop_misfit _ _ Hfit) in Harea. cbn [snd] in Harea.
  split; [exact Harea|].
  eexists. split; [exact Hc|].
  cbn [click_x click_y].
  unfold framePixel. rewrite Harea, Hscale. cbn [x y fst snd absolutePosition].
  pose proof (downscale_agrees st Hlow) as Hd.
  split.
  - unfold absolutePosition. cbn [fst]. rewrite Hd. ring.
  - unfold absolutePosition. cbn [snd]. rewrite Hd. ring.
Qed.

Lemma click_misses_uncropped_frame_witness :
  let f := {| frame_area := {| x := 0; y := 0; width := 800; height := 60 |};
              frame_quality := 70; frame_scale := 1 |} in
  let s2 := p_state (processClient defaultStore newEngine 1920 1080
                       (getDpiScale 1920 1080 1920 1080) calmTurn slit) in
  let config := getEffectiveConfigOf defaultStore s2 in
  frame_area f = {| x := 0; y := 0; width := 800; height := 60 |}
  /\ exists c,
      lastClickPos (fst (inputClick defaultStore sameScale 5 (Some (10, 20)%Q) s2))
      = Some c
      /\ (click_x c == fst (framePixel f 10 20) + cropLeft config)%Q
      /\ (click_y c == snd (framePixel f 10 20) + cropTop config)%Q.
Proof.
  apply (click_misses_uncropped_frame defaultStore newEngine 1920 1080
           (getDpiScale 1920 1080 1920 1080) calmTurn slit
           {| frame_area := {| x := 0; y := 0; width := 800; height := 60 |};
              frame_quality := 70; frame_scale := 1 |}
           {| x := 0; y := 0; width := 800; height := 60 |}
           sameScale 5 10 20 1920 1080).
  - vm_compute. reflexivity.
  - vm_compute. reflexivity.
  - intros [_ Hh]. revert Hh. vm_compute. discriminate.
  - discriminate.
  - reflexivity.
Defined.

End InputFacts.

Module ScrollFacts.
Import JS JSFacts Input IndexFacts InputFacts.

(** *** The focus click and the focus check *)

(** X19. The click that gives the pane the focus before a three-finger
    scroll lands inside the region shown to the client, 10 pixels from its
    left side and less than a pixel from the middle of its height, whenever
    that region is more than 10 pixels wide. *)
Theorem focusClick_inside (st : Store) (env : ClickEnv) (now : Z)
    (s : ClientState) (pane : Rect) (w h : Z) :
  lastCaptureArea s = Some pane ->
  click_snapshot env = Some (w, h) ->
  let config := getEffectiveConfigOf st s in
  let shown := captureArea config pane in
  (10 < width shown)%Q -> (0 < height shown)%Q ->
  exists cx cy,
    snd (threeFingerScrollStart st env now s)
    = [MoveMouse (logicalPosition
                    (getDpiScale (fst (click_logicalScreen env))
                                 (snd (click_logicalScreen env)) w h) (cx, cy));
       MouseClick]
    /\ (cx == x shown + 10)%Q /\ (cx < x shown + width shown)%Q
    /\ (y shown <= cy)%Q /\ (cy < y shown + height shown)%Q
    /\ (Qabs (cy - (y shown + height shown / 2)) < 1)%Q.
Proof.
  intros Ha Hs. cbn zeta. intros Hw Hh.
  unfold threeFingerScrollStart.
  change (lastCaptureArea (updateActivity now s)) with (lastCaptureArea s).
  rewrite Ha, Hs. cbn [snd].
  change (getEffectiveConfigOf st (updateActivity now s))
    with (getEffectiveConfigOf st s).
  unfold focusClick.
  eexists. eexists. split; [reflexivity|].
  unfold captureArea in *. cbn [x y width height] in *.
  set (dh := (height pane - cropTop (getEffectiveConfigOf st s)
              - cropBottom (getEffectiveConfigOf st s))%Q) in *.
  pose proof (Qfloor_le (dh / 2)) as H1. pose proof (Qlt_floor (dh / 2)) as H2.
  rewrite inject_Z_plus in H2. change (inject_Z 1) with 1%Q in H2.
  assert (H0 : (0 <= inject_Z (Qfloor (dh / 2)))%Q).
  { change 0%Q with (inject_Z 0). rewrite <- Zle_Qle.
    change 0%Z with (Qfloor 0). apply Qfloor_resp_le.
    apply Qle_shift_div_l; lra. }
  assert (Hhalf : (dh / 2 * 2 == dh)%Q) by (field).
  clearbody dh. set (half := (dh / 2)%Q) in *. clearbody half.
  split; [ring|]. split; [lra|]. split; [lra|]. split; [lra|].
  apply Qabs_Qlt_condition. split; lra.
Qed.

Lemma focusClick_inside_witness :
  let config := getEffectiveConfigOf defaultStore clicker in
  let shown := captureArea config
                 {| x := 100; y := 200; width := 500; height := 400 |} in
  exists cx cy,
    snd (threeFingerScrollStart defaultStore sameScale 5 clicker)
    = [MoveMouse (logicalPosition
                    (getDpiScale (fst (click_logicalScreen sameScale))
                                 (snd (click_logicalScreen sameScale)) 1920 1080)
                    (cx, cy));
       MouseClick]
    /\ (cx == x shown + 10)%Q /\ (cx < x shown + width shown)%Q
    /\ (y shown <= cy)%Q /\ (cy < y shown + height shown)%Q
    /\ (Qabs (cy - (y shown + height shown / 2)) < 1)%Q.
Proof.
  apply (focusClick_inside defaultStore sameScale 5 clicker
           {| x := 100; y := 200; width := 500; height := 400 |} 1920 1080).
  - reflexivity.
  - reflexivity.
  - vm_compute. reflexivity.
  - vm_compute. reflexivity.
Defined.

(** X20. A focus check within 30 seconds of a click inside the region
    shown to the client answers from the click: the focus is reported in
    the chat, at the relative height of the click in that region. *)
Theorem click_then_checkFocus (st : Store) (env : ClickEnv) (now now1 now2 : Z)
    (os : option OsFocus) (u v : Q) (s : ClientState) (area : Rect) (w h : Z) :
  lastCaptureArea s = Some area ->
  click_snapshot env = Some (w, h) ->
  let shown := captureArea (getEffectiveConfigOf st s) area in
  let d := clickDownscale st in
  (0 <= u / d)%Q -> (u / d <= width shown)%Q ->
  (0 <= v / d)%Q -> (v / d <= height shown)%Q ->
  (0 < height shown)%Q ->
  now2 - now < 30000 ->
  let clicked := fst (inputClick st env now (Some (u, v)) s) in
  exists r,
    snd (checkFocus st now1 now2 os clicked)
    = Some {| isInChat := true; relativeY := Some (Num r);
              focusName := Some "Last Click Priority" |}
    /\ (r == v / d / height shown)%Q.
Proof.
  intros Ha Hs. cbn zeta. intros Hu0 Hu1 Hv0 Hv1 Hh Ht.
  destruct (inputClick_records st env now u v s area w h Ha Hs) as [Hc _].
  assert (Hkeep : lastCaptureArea (fst (inputClick st env now (Some (u, v)) s))
                  = Some area
                  /\ getEffectiveConfigOf st (fst (inputClick st env now (Some (u, v)) s))
                     = getEffectiveConfigOf st s).
  { unfold inputClick.
    change (lastCaptureArea (updateActivity now s)) with (lastCaptureArea s).
    rewrite Ha, Hs. split; [exact Ha|reflexivity]. }
  destruct Hkeep as [Hk1 Hk2].
  set (clicked := fst (inputClick st env now (Some (u, v)) s)) in *.
  unfold checkFocus.
  change (lastCaptureArea (updateActivity now1 clicked)) with (lastCaptureArea clicked).
  change (lastClickPos (updateActivity now1 clicked)) with (lastClickPos clicked).
  change (getEffectiveConfigOf st (updateActivity now1 clicked))
    with (getEffectiveConfigOf st clicked).
  rewrite Hk1, Hc, Hk2. cbn [click_time click_x click_y].
  set (shown := captureArea (getEffectiveConfigOf st s) area) in *.
  assert (Hx : (fst (absolutePosition st (getEffectiveConfigOf st s) area (u, v))
                == x shown + u / clickDownscale st)%Q)
    by (unfold absolutePosition, shown, captureArea; cbn [fst x]; ring).
  assert (Hy : (snd (absolutePosition st (getEffectiveConfigOf st s) area (u, v))
                == y shown + v / clickDownscale st)%Q)
    by (unfold absolutePosition, shown, captureArea; cbn [snd y]; ring).
  set (ud := (u / clickDownscale st)%Q) in *.
  set (vd := (v / clickDownscale st)%Q) in *.
  set (ax := fst (absolutePosition st (getEffectiveConfigOf st s) area (u, v))) in *.
  set (ay := snd (absolutePosition st (getEffectiveConfigOf st s) area (u, v))) in *.
  clearbody ud vd ax ay.
  assert (Hin : inside ax ay shown = true).
  { unfold inside, Qge_bool.
    repeat (apply andb_true_iff; split); apply Qle_bool_iff; lra. }
  rewrite Hin.
  destruct (Z.ltb_spec (now2 - now) 30000); [|lia]. cbn [andb snd].
  unfold validRelativeY.
  destruct (Qeq_bool (height shown) 0) eqn:Ez.
  { apply Qeq_bool_iff in Ez. lra. }
  eexists. split; [reflexivity|].
  assert (Hq : ((ay - y shown) / height shown == vd / height shown)%Q).
  { rewrite Hy. field. lra. }
  assert (H01 : (0 <= vd / height shown)%Q /\ (vd / height shown <= 1)%Q).
  { split.
    - apply Qle_shift_div_l; [exact Hh|]. lra.
    - apply Qle_shift_div_r; [exact Hh|]. lra. }
  rewrite <- Hq in H01. rewrite <- Hq.
  set (q := ((ay - y shown) / height shown)%Q) in *. clearbody q.
  unfold Math_max, Math_min.
  destruct (Qlt_bool q 1) eqn:E1.
  - destruct (Qlt_bool 0 q) eqn:E0; [reflexivity|].
    apply Qlt_bool_false in E0. lra.
  - apply Qlt_bool_false in E1. change (Qlt_bool 0 1) with true. cbn iota. lra.
Qed.

Lemma click_then_checkFocus_witness :
  let shown := captureArea (getEffectiveConfigOf defaultStore clicker)
                 {| x := 100; y := 200; width := 500; height := 400 |} in
  let d := clickDownscale defaultStore in
  let clicked := fst (inputClick defaultStore sameScale 5 (Some (10, 80)%Q) clicker) in
  exists r,
    snd (checkFocus defaultStore 1000 1001 None clicked)
    = Some {| isInChat := true; relativeY := Some (Num r);
              focusName := Some "Last Click Priority" |}
    /\ (r == 80 / d / height shown)%Q.
Proof.
  apply (click_then_checkFocus defaultStore sameScale 5 1000 1001 None 10 80 clicker
           {| x := 100; y := 200; width := 500; height := 400 |} 1920 1080).
  - reflexivity.
  - reflexivity.
  - vm_compute. discriminate.
  - vm_compute. discriminate.
  - vm_compute. discriminate.
  - vm_compute. discriminate.
  - vm_compute. reflexivity.
  - reflexivity.
Defined.

End ScrollFacts.

Module ConfigFacts.
Import JS JSFacts ConfigUpdate StreamEngineFacts.

Lemma Math_max_lower (a b : Q) : (a <= Math_max a b)%Q /\ (b <= Math_max a b)%Q.
Proof.
  unfold Math_max. destruct (Qlt_bool a b) eqn:E.
  - apply Qlt_bool_iff in E. split; lra.
  - apply Qlt_bool_false in E. split; lra.
Qed.

Lemma clamp_within (lo hi v : Q) : (lo <= hi)%Q -> within lo hi (clamp lo hi v).
Proof.
  intros H. unfold within, clamp, Math_max, Math_min.
  destruct (Qlt_bool v hi) eqn:E1.
  - apply Qlt_bool_iff in E1.
    destruct (Qlt_bool lo v) eqn:E2.
    + apply Qlt_bool_iff in E2. split; lra.
    + split; lra.
  - destruct (Qlt_bool lo hi) eqn:E2.
    + apply Qlt_bool_iff in E2. split; lra.
    + split; lra.
Qed.

Lemma clamp_inside (lo hi v : Q) : within lo hi v -> (clamp lo hi v == v)%Q.
Proof.
  intros [H1 H2]. unfold clamp, Math_max, Math_min.
  destruct (Qlt_bool v hi) eqn:E1.
  - destruct (Qlt_bool lo v) eqn:E2; [reflexivity|].
    apply Qlt_bool_false in E2. lra.
  - apply Qlt_bool_false in E1.
    destruct (Qlt_bool lo hi) eqn:E2; [lra|].
    apply Qlt_bool_false in E2. lra.
Qed.

Lemma within_bounds (lo hi v : Q) : within lo hi v -> (lo <= hi)%Q.
Proof. intros [H1 H2]. lra. Qed.

Lemma merged_within (lo hi : Q) (update : option Q) (old : Q) :
  (lo <= hi)%Q -> within lo hi old -> within lo hi (merged (clamp lo hi) update old).
Proof.
  intros H Hold. destruct update; cbn [merged]; [apply clamp_within; exact H|exact Hold].
Qed.

(** *** The bounds are kept *)

Lemma updateGlobalConfig_sane (updates : GlobalUpdates) (m : Manager) :
  sane m -> sane (updateGlobalConfig updates m).
Proof.
  intros (Hf & Hq & Hs & Ht & Hd & Hr & Hc & Ho).
  unfold sane. cbn [updateGlobalConfig settings mstore global clients
                    fps quality screenConfig chatCrop terminalCrop
                    fpsMin fpsMax qualityMin qualityMax scrollSensitivity
                    threeFingerScrollSensitivity detectionInterval].
  split; [apply merged_within; [eapply within_bounds|]; exact Hf|].
  split; [apply merged_within; [eapply within_bounds|]; exact Hq|].
  split; [apply merged_within; [lra|exact Hs]|].
  split; [apply merged_within; [lra|exact Ht]|].
  split; [apply merged_within; [lra|exact Hd]|].
  split.
  { destruct (g_screenConfig updates) as [u|]; cbn [merged]; [|exact Hr].
    unfold sanitizeRect. cbn [x y width height].
    repeat split; apply Math_max_lower. }
  split; [|exact Ho].
  intros crop [->| ->].
  - destruct (g_chatCrop updates) as [u|]; cbn [merged];
      [|apply Hc; left; reflexivity].
    unfold sanitizeCrop. cbn [top bottom left right].
    repeat split; apply Math_max_lower.
  - destruct (g_terminalCrop updates) as [u|]; cbn [merged];
      [|apply Hc; right; reflexivity].
    unfold sanitizeCrop. cbn [top bottom left right].
    repeat split; apply Math_max_lower.
Qed.

Lemma getClientConfig_sane (m : Manager) (socketId : string) :
  sane m ->
  (forall v, c_fps (getClientConfig (mstore m) socketId) = Some v ->
             within (fpsMin (settings m)) (fpsMax (settings m)) v)
  /\ (forall v, c_quality (getClientConfig (mstore m) socketId) = Some v ->
                within (qualityMin (settings m)) (qualityMax (settings m)) v).
Proof.
  intros (_ & _ & _ & _ & _ & _ & _ & Ho).
  unfold getClientConfig.
  destruct (clients (mstore m) !! socketId) as [config|] eqn:E; cbn [default].
  - exact (Ho socketId config E).
  - split; intros v [=].
Qed.

Lemma updateClientConfig_sane (socketId : string) (updates : ClientUpdates)
    (m : Manager) :
  sane m -> sane (updateClientConfig socketId updates m).
Proof.
  intros Hsane. pose proof (getClientConfig_sane m socketId Hsane) as [Hcf Hcq].
  destruct Hsane as (Hf & Hq & Hs & Ht & Hd & Hr & Hc & Ho).
  unfold sane. cbn [updateClientConfig settings mstore global clients].
  repeat (split; [assumption|]).
  intros id' config Hlook.
  destruct (decide (socketId = id')) as [<-|Hne].
  - rewrite lookup_insert_eq in Hlook. injection Hlook as <-.
    cbn [c_fps c_quality]. split; intros v Hv.
    + destruct (cu_fps updates) as [[w|]|]; cbn [merged option_map] in Hv.
      * injection Hv as <-. apply clamp_within. eapply within_bounds. exact Hf.
      * discriminate.
      * apply Hcf. exact Hv.
    + destruct (cu_quality updates) as [[w|]|]; cbn [merged option_map] in Hv.
      * injection Hv as <-. apply clamp_within. eapply within_bounds. exact Hq.
      * discriminate.
      * apply Hcq. exact Hv.
  - rewrite lookup_insert_ne in Hlook by exact Hne. exact (Ho id' config Hlook).
Qed.

Lemma removeClientConfigOf_sane (socketId : string) (m : Manager) :
  sane m -> sane (removeClientConfigOf socketId m).
Proof.
  intros (Hf & Hq & Hs & Ht & Hd & Hr & Hc & Ho).
  unfold sane. cbn [removeClientConfigOf removeClientConfig settings mstore global
                    clients].
  repeat (split; [assumption|]).
  intros id' config Hlook.
  apply lookup_delete_Some in Hlook. destruct Hlook as [_ Hlook].
  exact (Ho id' config Hlook).
Qed.

Lemma perform_sane (m : Manager) (c : Call) : sane m -> sane (perform m c).
Proof.
  destruct c; cbn [perform];
    [apply updateGlobalConfig_sane|apply updateClientConfig_sane
     |apply removeClientConfigOf_sane].
Qed.

Lemma defaultManager_sane : sane defaultManager.
Proof.
  unfold sane, within. cbn.
  repeat split; try (vm_compute; discriminate);
    destruct H as [->| ->]; vm_compute; discriminate.
Qed.

Lemma performAll_invariant (P : Manager -> Prop) :
  (forall m c, P m -> P (perform m c)) ->
  forall cs m, P m -> P (performAll m cs).
Proof.
  intros Hstep. induction cs as [|c cs IH]; intros m H; [exact H|].
  cbn [performAll fold_left]. apply IH. apply Hstep. exact H.
Qed.

Lemma perform_bounded (m : Manager) (c : Call) : bounded m -> bounded (perform m c).
Proof. destruct c; intros H; exact H. Qed.

(** X21. Whatever updates the configuration manager is sent, starting
    from its defaults, every setting stays within its bounds: the frame
    rate within [10, 60], the quality within [30, 100], the scroll
    sensitivities within [0.1, 5] and [0.3, 3], the detection interval
    within [500, 10000], the screen rectangle at a non-negative origin and
    at least 100 by 100, the crop margins non-negative, and every client
    override of frame rate and quality within the global bounds. *)
Theorem config_stays_sane (cs : list Call) :
  let m := performAll defaultManager cs in
  sane m
  /\ fpsMin (settings m) = 10%Q /\ fpsMax (settings m) = 60%Q
  /\ qualityMin (settings m) = 30%Q /\ qualityMax (settings m) = 100%Q.
Proof.
  cbn zeta. split.
  - apply performAll_invariant; [apply perform_sane|apply defaultManager_sane].
  - assert (H : bounded (performAll defaultManager cs)).
    { apply performAll_invariant; [apply perform_bounded|].
      repeat split. }
    destruct H as (H1 & H2 & H3 & H4 & _). auto.
Qed.

Lemma effective_fps_within (m : Manager) (socketId viewMode : string) :
  sane m ->
  within (fpsMin (settings m)) (fpsMax (settings m))
         (e_fps (getEffectiveConfig (mstore m) socketId viewMode)).
Proof.
  intros Hsane. pose proof (getClientConfig_sane m socketId Hsane) as [Hcf _].
  unfold getEffectiveConfig. cbn [e_fps].
  destruct (c_fps (getClientConfig (mstore m) socketId)) as [v|] eqn:E;
    cbn [default].
  - apply Hcf. reflexivity.
  - apply Hsane.
Qed.

(** X22. With low-resource mode off and the configuration reached from
    the defaults by any updates, the target frame rate of the capture timer
    lies within [10, 60] for any set of clients, so that the period
    [1000 / targetFps] is a positive number of milliseconds between
    1000/60 and 100. *)
Theorem interval_bounded (cs : list Call) (clients : Clients) :
  let st := mstore (performAll defaultManager cs) in
  within 10 60 (targetFps st clients)
  /\ within (1000 / 60) 100 (intervalMs st clients).
Proof.
  cbn zeta.
  assert (Hs : sane (performAll defaultManager cs))
    by (apply performAll_invariant; [apply perform_sane|apply defaultManager_sane]).
  assert (Hb : bounded (performAll defaultManager cs)).
  { apply performAll_invariant; [apply perform_bounded|]. repeat split. }
  set (m := performAll defaultManager cs) in *.
  destruct Hb as (Hmin & Hmax & _ & _ & Hlow).
  assert (Ht : within 10 60 (targetFps (mstore m) clients)).
  { unfold targetFps, baseFps. rewrite Hlow. cbv iota.
    set (others := clientFps (mstore m) clients).
    destruct (maxOf_bounds others (fps (global (mstore m))))
      as (_ & _ & [E | Hin]).
    - rewrite E, <- Hmin, <- Hmax. apply Hs.
    - unfold others, clientFps, getAllClients in *. apply in_map_iff in Hin.
      destruct Hin as [c [E _]]. rewrite <- E, <- Hmin, <- Hmax.
      apply effective_fps_within. exact Hs. }
  split; [exact Ht|].
  destruct Ht as [H1 H2]. unfold intervalMs, within.
  set (t := targetFps (mstore m) clients) in *. clearbody t.
  split.
  - apply Qle_shift_div_l; [lra|].
    assert (E : (1000 / 60 * t == 1000 * t / 60)%Q) by (field).
    rewrite E. apply Qle_shift_div_r; lra.
  - apply Qle_shift_div_r; lra.
Qed.

(** *** Overrides *)

(** X23. A client's frame-rate override is read back clamped to the
    global bounds, [null] gives the global value back, the overrides of
    other clients are not touched, and removing the client's
    configuration leaves it with the global value. *)
Theorem clientConfig_round_trip (m : Manager) (socketId viewMode : string) (v : Q) :
  let set := updateClientConfig socketId (fpsOverride (Some v)) m in
  let reset := updateClientConfig socketId (fpsOverride None) set in
  e_fps (getEffectiveConfig (mstore set) socketId viewMode)
  = clamp (fpsMin (settings m)) (fpsMax (settings m)) v
  /\ e_fps (getEffectiveConfig (mstore reset) socketId viewMode)
     = fps (global (mstore m))
  /\ e_fps (getEffectiveConfig (mstore (removeClientConfigOf socketId set))
                               socketId viewMode)
     = fps (global (mstore m))
  /\ (forall other mode, other <> socketId ->
        getEffectiveConfig (mstore set) other mode
        = getEffectiveConfig (mstore m) other mode)
  /\ (within (fpsMin (settings m)) (fpsMax (settings m)) v ->
      (e_fps (getEffectiveConfig (mstore set) socketId viewMode) == v)%Q).
Proof.
  cbn zeta.
  assert (H1 : e_fps (getEffectiveConfig
                        (mstore (updateClientConfig socketId (fpsOverride (Some v)) m))
                        socketId viewMode)
               = clamp (fpsMin (settings m)) (fpsMax (settings m)) v).
  { unfold getEffectiveConfig, getClientConfig.
    cbn [updateClientConfig mstore clients global e_fps].
    rewrite lookup_insert_eq. reflexivity. }
  split; [exact H1|]. split; [|split; [|split]].
  - unfold getEffectiveConfig, getClientConfig.
    cbn [updateClientConfig mstore clients global e_fps].
    rewrite lookup_insert_eq. reflexivity.
  - unfold getEffectiveConfig, getClientConfig.
    cbn [removeClientConfigOf removeClientConfig updateClientConfig mstore clients
         global e_fps].
    rewrite lookup_delete_eq. reflexivity.
  - intros other mode Hne. unfold getEffectiveConfig, getClientConfig.
    cbn [updateClientConfig mstore clients global].
    rewrite lookup_insert_ne by (intros E; apply Hne; symmetry; exact E).
    reflexivity.
  - intros Hin. rewrite H1. apply clamp_inside. exact Hin.
Qed.

End ConfigFacts.

Module ParseFacts.
Import WindowDetector.

(** *** Splitting *)

Lemma split_nonempty (sep : ascii) (s : string) : split sep s <> [].
Proof.
  destruct s as [|c rest]; cbn [split]; [discriminate|].
  destruct (Ascii.eqb c sep); [discriminate|].
  destruct (split sep rest); discriminate.
Qed.

Lemma split_free (sep : ascii) (s : string) : free sep s -> split sep s = [s].
Proof.
  induction s as [|c rest IH]; intros H; cbn [split]; [reflexivity|].
  destruct H as [Hc Hrest].
  apply Ascii.eqb_neq in Hc. rewrite Hc, (IH Hrest). reflexivity.
Qed.

Lemma append_nil (s : string) : String.append "" s = s.
Proof. reflexivity. Qed.

Lemma append_cons (c : ascii) (s t : string) :
  String.append (String c s) t = String c (String.append s t).
Proof. reflexivity. Qed.

Lemma split_cons (sep : ascii) (piece rest : string) :
  free sep piece ->
  split sep (piece ++ String sep rest) = piece :: split sep rest.
Proof.
  induction piece as [|c piece IH]; intros H.
  - rewrite append_nil. cbn [split]. rewrite Ascii.eqb_refl. reflexivity.
  - rewrite append_cons. cbn [split].
    destruct H as [Hc Hp]. apply Ascii.eqb_neq in Hc.
    rewrite Hc, (IH Hp). reflexivity.
Qed.

(** Splitting undoes joining, and joining undoes splitting. *)
Lemma split_join (sep : ascii) (pieces : list string) :
  pieces <> [] -> Forall (free sep) pieces -> split sep (join sep pieces) = pieces.
Proof.
  induction pieces as [|piece rest IH]; intros Hne Hall; [contradiction|].
  apply Forall_cons in Hall. destruct Hall as [Hp Hrest].
  destruct rest as [|piece' rest'].
  - cbn [join]. apply split_free. exact Hp.
  - change (join sep (piece :: piece' :: rest'))
      with (piece ++ String sep (join sep (piece' :: rest')))%string.
    rewrite split_cons by exact Hp.
    rewrite IH; [reflexivity|discriminate|exact Hrest].
Qed.

Lemma join_split (sep : ascii) (s : string) :
  join sep (split sep s) = s /\ Forall (free sep) (split sep s).
Proof.
  induction s as [|c rest [IHj IHf]]; cbn [split].
  - split; [reflexivity|]. repeat constructor.
  - destruct (Ascii.eqb_spec c sep) as [->|Hne].
    + pose proof (split_nonempty sep rest) as Hn.
      destruct (split sep rest) as [|p ps] eqn:E; [contradiction|].
      split.
      * change (join sep ("" :: p :: ps))
          with ("" ++ String sep (join sep (p :: ps)))%string.
        rewrite IHj. reflexivity.
      * constructor; [exact I|exact IHf].
    + pose proof (split_nonempty sep rest) as Hn.
      destruct (split sep rest) as [|p ps] eqn:E; [contradiction|].
      apply Forall_cons in IHf. destruct IHf as [Hp Hps].
      split.
      * destruct ps as [|p' ps'].
        -- cbn [join] in *. rewrite IHj. reflexivity.
        -- change (join sep (String c p :: p' :: ps'))
             with (String c p ++ String sep (join sep (p' :: ps')))%string.
           change (join sep (p :: p' :: ps'))
             with (p ++ String sep (join sep (p' :: ps')))%string in IHj.
           rewrite append_cons, IHj. reflexivity.
      * constructor; [split; assumption|exact Hps].
Qed.

Section Parser.

Variable parseInt : string -> option Z.

(** X24. [parseResult] reads exactly the texts made of four fields
    separated by commas: on such a text it returns the [parseInt] of each
    field, and whenever it returns bounds the text was four comma-free
    fields joined by commas.  The empty text, NOT_FOUND and every other
    number of fields give [null]. *)
Theorem parseResult_fields (result : string) (bounds : Bounds) :
  (forall p0 p1 p2 p3,
     Forall (free ",") [p0; p1; p2; p3] ->
     parseResult parseInt (join "," [p0; p1; p2; p3])
     = Some {| x := parseInt p0; y := parseInt p1;
               width := parseInt p2; height := parseInt p3 |})
  /\ (parseResult parseInt result = Some bounds ->
      exists p0 p1 p2 p3,
        result = join "," [p0; p1; p2; p3]
        /\ Forall (free ",") [p0; p1; p2; p3]
        /\ bounds = {| x := parseInt p0; y := parseInt p1;
                       width := parseInt p2; height := parseInt p3 |})
  /\ parseResult parseInt "" = None
  /\ parseResult parseInt "NOT_FOUND" = None.
Proof.
  split; [|split; [|split; reflexivity]].
  - intros p0 p1 p2 p3 Hall. unfold parseResult.
    rewrite split_join by (discriminate || exact Hall).
    destruct (join "," [p0; p1; p2; p3] =? "")%string eqn:E1.
    { apply String.eqb_eq in E1. exfalso.
      assert (Hs : split "," (join "," [p0; p1; p2; p3]) = [""%string])
        by (rewrite E1; reflexivity).
      rewrite split_join in Hs by (discriminate || exact Hall). discriminate. }
    destruct (join "," [p0; p1; p2; p3] =? "NOT_FOUND")%string eqn:E2;
      [|reflexivity].
    apply String.eqb_eq in E2. exfalso.
    assert (Hs : split "," (join "," [p0; p1; p2; p3]) = ["NOT_FOUND"%string])
      by (rewrite E2; reflexivity).
    rewrite split_join in Hs by (discriminate || exact Hall). discriminate.
  - unfold parseResult.
    destruct (_ || _); [discriminate|].
    destruct (join_split "," result) as [Hj Hf].
    destruct (split "," result) as [|p0 [|p1 [|p2 [|p3 [|p4 more]]]]];
      try discriminate.
    intros [= <-]. exists p0, p1, p2, p3.
    split; [symmetry; exact Hj|]. split; [exact Hf|reflexivity].
Qed.

(** X25. The one-shot detector and the worker read a result alike:
    with exit code 0 the ['close'] handler of window-detector.js returns
    what the worker's [parseResult] returns on the trimmed output, and
    with any other exit code it returns [null]. *)
Theorem onClose_parseResult (code : option Z) (output : string) :
  onClose parseInt (Some 0) output = parseResult parseInt (trim output)
  /\ (code <> Some 0 -> onClose parseInt code output = None).
Proof.
  split.
  - unfold onClose, parseResult.
    destruct (trim output =? "")%string eqn:E1; [reflexivity|]. cbn [orb].
    destruct (trim output =? "NOT_FOUND")%string eqn:E2; [|reflexivity].
    apply String.eqb_eq in E2. rewrite E2. reflexivity.
  - intros Hne. unfold onClose.
    destruct code as [[| |]|]; try reflexivity. contradiction.
Qed.

End Parser.

End ParseFacts.

Module ChannelFacts.
Import WindowDetector WorkerFacts ParseFacts.

(** *** The line buffer *)

Lemma append_assoc (x y z : string) :
  String.append (String.append x y) z = String.append x (String.append y z).
Proof.
  induction x as [|c x IH]; [reflexivity|].
  rewrite !append_cons, IH. reflexivity.
Qed.

Lemma last_app_nonempty {A} (l l' : list A) (d : A) :
  l' <> [] -> List.last (l ++ l') d = List.last l' d.
Proof.
  intros H. induction l as [|a l IH]; [reflexivity|].
  change ((a :: l) ++ l') with (a :: (l ++ l')).
  destruct (l ++ l') as [|b m] eqn:E.
  - destruct l; [contradiction|discriminate].
  - exact IH.
Qed.

(** The lines of a text that arrives in two parts. *)
Lemma split_app (sep : ascii) (x y : string) :
  split sep (String.append x y)
  = removelast (split sep x)
    ++ split sep (String.append (List.last (split sep x) "") y).
Proof.
  induction x as [|c x IH].
  - reflexivity.
  - rewrite append_cons. cbn [split].
    pose proof (split_nonempty sep x) as Hx.
    destruct (Ascii.eqb c sep) eqn:Ec.
    + rewrite IH.
      destruct (split sep x) as [|p ps] eqn:E; [contradiction|].
      reflexivity.
    + rewrite IH.
      destruct (split sep x) as [|p ps] eqn:E; [contradiction|].
      destruct ps as [|p' ps'].
      * cbn [removelast List.last app]. rewrite append_cons. cbn [split].
        rewrite Ec. reflexivity.
      * reflexivity.
Qed.

Section Worker.

Variable parseInt : string -> option Z.

Lemma processLine_buffer (buffer : string) (s : State) (line : string) :
  processLine parseInt (set_outputBuffer buffer s) line
  = set_outputBuffer buffer (processLine parseInt s line).
Proof.
  unfold processLine. destruct (parseLine line) as [| |id result|];
    try reflexivity.
  cbn [set_outputBuffer pendingCallbacks].
  destruct (pendingCallbacks s !! id); reflexivity.
Qed.

Lemma fold_processLine_buffer (buffer : string) (lines : list string) :
  forall s,
    fold_left (processLine parseInt) lines (set_outputBuffer buffer s)
    = set_outputBuffer buffer (fold_left (processLine parseInt) lines s).
Proof.
  induction lines as [|line lines IH]; intros s; [reflexivity|].
  cbn [fold_left]. rewrite processLine_buffer. apply IH.
Qed.

Lemma processLine_outputBuffer (s : State) (line : string) :
  outputBuffer (processLine parseInt s line) = outputBuffer s.
Proof.
  unfold processLine. destruct (parseLine line) as [| |id result|];
    try reflexivity.
  destruct (pendingCallbacks s !! id); reflexivity.
Qed.

Lemma fold_processLine_outputBuffer (lines : list string) :
  forall s, outputBuffer (fold_left (processLine parseInt) lines s)
            = outputBuffer s.
Proof.
  induction lines as [|line lines IH]; intros s; [reflexivity|].
  cbn [fold_left]. rewrite IH. apply processLine_outputBuffer.
Qed.

Lemma onData_outputBuffer (chunk : string) (s : State) :
  outputBuffer (onData parseInt chunk s)
  = List.last (split newline (String.append (outputBuffer s) chunk)) "".
Proof.
  unfold onData, completeLines.
  rewrite fold_processLine_outputBuffer. reflexivity.
Qed.

Lemma onData_app (a b : string) (s : State) :
  onData parseInt (String.append a b) s
  = onData parseInt b (onData parseInt a s).
Proof.
  unfold onData at 1 2. unfold completeLines.
  rewrite onData_outputBuffer.
  rewrite <- append_assoc, split_app.
  set (X := String.append (outputBuffer s) a).
  set (restA := List.last (split newline X) "").
  pose proof (split_nonempty newline (String.append restA b)) as Hn.
  rewrite List.removelast_app, last_app_nonempty by exact Hn.
  rewrite fold_left_app.
  unfold onData, completeLines. fold X. fold restA.
  rewrite !fold_processLine_buffer. reflexivity.
Qed.

(** X26. The worker's reading of its helper's output does not depend on
    how the output is cut into chunks: reading a text in several pieces
    leaves the worker in the state that reading it at once does. *)
Theorem onData_chunks (chunk : string) (chunks : list string) (s : State) :
  fold_left (fun s chunk => onData parseInt chunk s) (chunk :: chunks) s
  = onData parseInt (fold_right String.append "" (chunk :: chunks)) s.
Proof.
  revert s chunk. induction chunks as [|c1 rest IH]; intros s c0.
  - cbn [fold_left fold_right].
    replace (String.append c0 "") with c0; [reflexivity|].
    clear. induction c0 as [|c c0 IH]; [reflexivity|].
    rewrite append_cons, <- IH. reflexivity.
  - cbn [fold_left fold_right] in *.
    rewrite onData_app. apply IH.
Qed.

(** *** Answers *)

Lemma fire_settled (a : TimerAction) (s : State) (q : nat) (w : option Bounds) :
  settled s !! q = Some w -> settled (fire a s) !! q = Some w.
Proof.
  intros H. destruct a as [id p|]; cbn [fire]; [|exact H].
  destruct (pendingCallbacks s !! id); [|exact H].
  cbn [settled]. apply resolve_kept. exact H.
Qed.

Lemma fireDue_settled (t : Z) (q : nat) (w : option Bounds) :
  forall queue s,
    settled s !! q = Some w -> settled (fireDue t queue s) !! q = Some w.
Proof.
  induction queue as [|tm rest IH]; intros s H; cbn [fireDue]; [exact H|].
  destruct (due tm <=? t); [|exact H].
  apply IH. apply fire_settled. exact H.
Qed.

Lemma processLine_settled (s : State) (line : string) (q : nat)
    (w : option Bounds) :
  settled s !! q = Some w -> settled (processLine parseInt s line) !! q = Some w.
Proof.
  intros H. unfold processLine.
  destruct (parseLine line) as [| |id result|]; try exact H.
  destruct (pendingCallbacks s !! id); [|exact H].
  cbn [settled]. apply resolve_kept. exact H.
Qed.

Lemma fold_processLine_settled (lines : list string) (q : nat)
    (w : option Bounds) :
  forall s, settled s !! q = Some w ->
            settled (fold_left (processLine parseInt) lines s) !! q = Some w.
Proof.
  induction lines as [|line lines IH]; intros s H; [exact H|].
  cbn [fold_left]. apply IH. apply processLine_settled. exact H.
Qed.

Lemma lookup_settled (key : string) (s : State) (q : nat) (w : option Bounds) :
  settled s !! q = Some w -> settled (fst (lookup key s)) !! q = Some w.
Proof.
  intros H. unfold lookup.
  destruct (cached key s); [cbn; apply resolve_kept; exact H|].
  destruct (negb (isReady s) || killed s);
    [cbn; apply resolve_kept; exact H|exact H].
Qed.

(** A promise is settled once. *)
Lemma step_settled (s : State) (e : Event) (q : nat) (w : option Bounds) :
  settled s !! q = Some w -> settled (step parseInt s e) !! q = Some w.
Proof.
  intros H. destruct e as [pattern|handle|chunk|t| | |]; cbn [step];
    try exact H.
  - destruct pattern as [pattern|]; cbn [findWindowBounds].
    + destruct (pattern =? "")%string;
        [cbn; apply resolve_kept; exact H|apply lookup_settled; exact H].
    + cbn. apply resolve_kept. exact H.
  - apply lookup_settled. exact H.
  - unfold onData. destruct (completeLines _) as [lines rest].
    apply fold_processLine_settled. exact H.
  - unfold elapse. cbn [settled]. apply fireDue_settled. exact H.
Qed.

Lemma run_settled (events : list Event) (q : nat) (w : option Bounds) :
  forall s, settled s !! q = Some w ->
            settled (run parseInt s events) !! q = Some w.
Proof.
  induction events as [|e rest IH]; intros s H; [exact H|].
  cbn [run fold_left]. apply IH. apply step_settled. exact H.
Qed.

Lemma run_numbered (now0 : Z) (events : list Event) :
  numbered (run parseInt (create now0) events).
Proof.
  apply (run_invariant parseInt numbered);
    [intros s e; apply step_numbered|apply create_numbered].
Qed.

(** X27. A call that the helper answers settles with the parsed answer:
    when the line [id:result] for a pending title lookup is read, the
    promise of the call resolves with [parseResult(result)], the call is
    no longer pending, the result is in the cache for the call's
    pattern, and nothing that happens later (the call's own timeout
    included) changes what the promise resolved with. *)
Theorem call_answered (now0 : Z) (before later : list Event)
    (pattern chunk rest line result : string) :
  let s1 := run parseInt (create now0) before in
  let key := String.append "title:" pattern in
  let id := pretty (S (callId s1)) in
  let s2 := fst (findWindowBounds (Some pattern) s1) in
  let s3 := onData parseInt chunk s2 in
  pattern <> "" ->
  cached key s1 = None -> isReady s1 = true -> killed s1 = false ->
  completeLines (String.append (outputBuffer s2) chunk) = ([line], rest) ->
  parseLine line = Response id result ->
  snd (findWindowBounds (Some pattern) s1) = promises s1
  /\ pendingCallbacks s2 !! id
     = Some {| cb_cacheKey := key; cb_promise := promises s1 |}
  /\ settled s3 !! promises s1 = Some (parseResult parseInt result)
  /\ pendingCallbacks s3 !! id = None
  /\ cached key s3 = Some (parseResult parseInt result)
  /\ settled (run parseInt s3 later) !! promises s1
     = Some (parseResult parseInt result).
Proof.
  cbn zeta. intros Hne Hc Hr Hk Hlines Hline.
  pose proof (run_numbered now0 before) as (_ & _ & N3).
  set (s1 := run parseInt (create now0) before) in *.
  assert (Hcall : findWindowBounds (Some pattern) s1
                  = register (String.append "title:" pattern) s1).
  { cbn [findWindowBounds]. apply String.eqb_neq in Hne. rewrite Hne.
    unfold lookup. rewrite Hc, Hr, Hk. reflexivity. }
  rewrite Hcall in *. cbn [register fst snd] in *.
  split; [reflexivity|].
  split; [apply lookup_insert_eq|].
  assert (H3 : settled (onData parseInt chunk
                          (fst (register (String.append "title:" pattern) s1)))
               !! promises s1 = Some (parseResult parseInt result)
               /\ pendingCallbacks (onData parseInt chunk
                                      (fst (register (String.append "title:" pattern) s1)))
                  !! pretty (S (callId s1)) = None
               /\ cached (String.append "title:" pattern)
                         (onData parseInt chunk
                            (fst (register (String.append "title:" pattern) s1)))
                  = Some (parseResult parseInt result)).
  { unfold onData. cbn [register fst outputBuffer] in *. rewrite Hlines.
    cbn [fold_left]. unfold processLine. rewrite Hline.
    cbn [set_outputBuffer pendingCallbacks].
    rewrite lookup_insert_eq.
    cbn [settled pendingCallbacks cb_promise cb_cacheKey].
    split; [apply resolve_fresh; apply N3; lia|].
    split; [apply lookup_delete_eq|].
    unfold cached. cbn [cache clock]. rewrite lookup_insert_eq.
    cbn [time value]. rewrite Z.sub_diag. reflexivity. }
  destruct H3 as [H3 [H4 H5]].
  split; [exact H3|]. split; [exact H4|]. split; [exact H5|].
  apply run_settled. exact H3.
Qed.

(** X28. A call is answered from the cache while an answer for the same
    pattern is less than 2000 ms old: the promise resolves at once with
    the cached bounds and nothing is sent to the helper (no correlation
    id is taken, no callback or timer registered).  An older entry is
    not used. *)
Theorem call_cached (now0 : Z) (before : list Event) (pattern : string)
    (entry : CacheEntry) :
  let s := run parseInt (create now0) before in
  let key := String.append "title:" pattern in
  pattern <> "" ->
  cache s !! key = Some entry ->
  let r := findWindowBounds (Some pattern) s in
  (clock s - time entry < cacheTTL ->
   settled (fst r) !! snd r = Some (value entry)
   /\ callId (fst r) = callId s
   /\ pendingCallbacks (fst r) = pendingCallbacks s
   /\ timers (fst r) = timers s)
  /\ (cacheTTL <= clock s - time entry -> cached key s = None).
Proof.
  cbn zeta. intros Hne He.
  pose proof (run_numbered now0 before) as (_ & _ & N3).
  set (s := run parseInt (create now0) before) in *.
  apply String.eqb_neq in Hne.
  split.
  - intros Hfresh. cbn [findWindowBounds]. rewrite Hne.
    unfold lookup, cached. rewrite He.
    destruct (Z.ltb_spec (clock s - time entry) cacheTTL); [|lia].
    cbn [resolved fst snd settled callId pendingCallbacks timers].
    split; [apply resolve_fresh; apply N3; lia|]. repeat split.
  - intros Hold. unfold cached. rewrite He.
    destruct (Z.ltb_spec (clock s - time entry) cacheTTL); [lia|reflexivity].
Qed.

(** X29. While the helper is not ready or has been killed, and for a
    pattern that is empty or not a string, a call resolves with [null]
    at once and leaves no trace: no correlation id is taken, no callback
    or timer is registered. *)
Theorem call_unavailable (now0 : Z) (before : list Event)
    (titlePattern : option string) :
  let s := run parseInt (create now0) before in
  (isReady s = false \/ killed s = true
   \/ titlePattern = None \/ titlePattern = Some ""%string) ->
  (forall pattern, titlePattern = Some pattern ->
                   cached (String.append "title:" pattern) s = None) ->
  let r := findWindowBounds titlePattern s in
  settled (fst r) !! snd r = Some None
  /\ callId (fst r) = callId s
  /\ pendingCallbacks (fst r) = pendingCallbacks s
  /\ timers (fst r) = timers s.
Proof.
  cbn zeta. intros Hcase Hmiss.
  pose proof (run_numbered now0 before) as (_ & _ & N3).
  set (s := run parseInt (create now0) before) in *.
  assert (Hnull : let r := resolved None s in
                  settled (fst r) !! snd r = Some None
                  /\ callId (fst r) = callId s
                  /\ pendingCallbacks (fst r) = pendingCallbacks s
                  /\ timers (fst r) = timers s).
  { cbn. split; [apply resolve_fresh; apply N3; lia|]. repeat split. }
  destruct titlePattern as [pattern|]; cbn [findWindowBounds]; [|exact Hnull].
  destruct (pattern =? "")%string eqn:Ee; [exact Hnull|].
  unfold lookup. rewrite (Hmiss pattern eq_refl).
  destruct Hcase as [Hr|[Hk|[Hn|Hn]]].
  - rewrite Hr. exact Hnull.
  - rewrite Hk, orb_true_r. exact Hnull.
  - discriminate.
  - injection Hn as ->. discriminate.
Qed.

End Worker.

(** The helper is ready, a call for the window "Code" gets the id "1",
    the helper answers it, and 6000 ms pass. *)
Lemma call_answered_witness :
  let s2 := fst (findWindowBounds (Some "Code") readyWorker) in
  let s3 := onData noInt (endLine "1:10,20,30,40") s2 in
  settled s3 !! promises readyWorker = Some (parseResult noInt "10,20,30,40")
  /\ pendingCallbacks s3 !! "1" = None
  /\ settled (run noInt s3 [Elapse 6000]) !! promises readyWorker
     = Some (parseResult noInt "10,20,30,40").
Proof.
  cbn zeta.
  destruct (call_answered noInt 0 [Data (endLine "WORKER_READY")] [Elapse 6000]
              "Code" (endLine "1:10,20,30,40") "" "1:10,20,30,40" "10,20,30,40")
    as (_ & _ & H3 & H4 & _ & H6).
  - discriminate.
  - vm_compute. reflexivity.
  - vm_compute. reflexivity.
  - vm_compute. reflexivity.
  - vm_compute. reflexivity.
  - vm_compute. reflexivity.
  - split; [exact H3|]. split; [exact H4|exact H6].
Defined.

(** The answer to the call for "Code", received at time 0, serves a second
    call at time 0. *)
Lemma call_cached_witness :
  let s := run noInt readyWorker
             [FindWindowBounds (Some "Code"); Data (endLine "1:10,20,30,40")] in
  let r := findWindowBounds (Some "Code") s in
  settled (fst r) !! snd r = Some (parseResult noInt "10,20,30,40")
  /\ callId (fst r) = callId s.
Proof.
  cbn zeta.
  destruct (call_cached noInt 0
              [Data (endLine "WORKER_READY"); FindWindowBounds (Some "Code");
               Data (endLine "1:10,20,30,40")]
              "Code" {| value := parseResult noInt "10,20,30,40"; time := 0 |})
    as [Hfresh _].
  - discriminate.
  - vm_compute. reflexivity.
  - destruct Hfresh as (H1 & H2 & _); [vm_compute; reflexivity|].
    split; [exact H1|exact H2].
Defined.

(** A call before the helper has reported ready. *)
Lemma call_unavailable_witness :
  let r := findWindowBounds (Some "Code") (create 0) in
  settled (fst r) !! snd r = Some None /\ callId (fst r) = callId (create 0).
Proof.
  cbn zeta.
  destruct (call_unavailable noInt 0 [] (Some "Code")) as (H1 & H2 & _).
  - left. reflexivity.
  - intros pattern H. injection H as <-. vm_compute. reflexivity.
  - split; [exact H1|exact H2].
Defined.

End ChannelFacts.
